(** * A shallow embedding of the virtio wayland driver (virtio_wl.c)

    The development follows the C source function by function.  Kernel
    objects the driver only consumes (the virtqueue, the idr, kzalloc,
    wait queues) appear through the results they hand back to the driver:
    either as explicit arguments of the embedded function or as a small
    state that records what the driver asked of them. *)

From Stdlib Require Import ZArith List Lia Bool.
From stdpp Require Import base gmap.
Import ListNotations.

Local Open Scope Z_scope.

(** ** Errno values (include/uapi/asm-generic/errno*.h) *)

Module Errno.
Definition EAGAIN : Z := 11.
Definition EIO : Z := 5.
Definition ENOMEM : Z := 12.
Definition EACCES : Z := 13.
Definition EFAULT : Z := 14.
Definition EBUSY : Z := 16.
Definition ENODEV : Z := 19.
Definition EINVAL : Z := 22.
Definition ENOSPC : Z := 28.
Definition ERESTARTSYS : Z := 512.
End Errno.
Import Errno.

(** ** Machine integers

    [unsigned int], [u32], [uint32_t] and [__le32] are 32 bits wide;
    [size_t], [ssize_t], [s64] and [unsigned long] are 64 bits wide (the
    driver casts to [s64] next to [ssize_t], an LP64 kernel).  A 64-bit
    expression whose operands are all 32-bit values cannot wrap and is
    written in [Z] directly; 32-bit arithmetic is written with its wrap. *)

Definition u32 (z : Z) : Z := z mod 2 ^ 32.
Definition u64 (z : Z) : Z := z mod 2 ^ 64.

Definition is_u32 (z : Z) : Prop := 0 <= z < 2 ^ 32.
Definition is_u64 (z : Z) : Prop := 0 <= z < 2 ^ 64.

#[global] Instance is_u32_dec z : Decision (is_u32 z).
Proof. unfold is_u32. apply _. Defined.

(** ** Control message types (enum virtio_wl_ctrl_type of virtio_wl.h)

    The header is not part of the file under study; the enumerators are
    kept as constructors, and [CTRL_UNKNOWN n] stands for a 32-bit type
    field whose value is none of the enumerators. *)

Inductive virtio_wl_ctrl_type : Type :=
| VIRTIO_WL_CMD_VFD_NEW
| VIRTIO_WL_CMD_VFD_CLOSE
| VIRTIO_WL_CMD_VFD_SEND
| VIRTIO_WL_CMD_VFD_RECV
| VIRTIO_WL_CMD_VFD_NEW_CTX
| VIRTIO_WL_RESP_OK
| VIRTIO_WL_RESP_VFD_NEW
| VIRTIO_WL_RESP_ERR
| VIRTIO_WL_RESP_OUT_OF_MEMORY
| VIRTIO_WL_RESP_INVALID_ID
| VIRTIO_WL_RESP_INVALID_TYPE
| CTRL_UNKNOWN (n : Z).

#[global] Instance virtio_wl_ctrl_type_eq_dec : EqDecision virtio_wl_ctrl_type.
Proof. solve_decision. Defined.

(** The four failure acknowledgments the host may write. *)
Definition host_failure (t : virtio_wl_ctrl_type) : bool :=
  match t with
  | VIRTIO_WL_RESP_ERR | VIRTIO_WL_RESP_OUT_OF_MEMORY
  | VIRTIO_WL_RESP_INVALID_ID | VIRTIO_WL_RESP_INVALID_TYPE => true
  | _ => false
  end.

(** The two success acknowledgments. *)
Definition host_success (t : virtio_wl_ctrl_type) : bool :=
  match t with
  | VIRTIO_WL_RESP_OK | VIRTIO_WL_RESP_VFD_NEW => true
  | _ => false
  end.

(** [virtwl_resp_err] (virtio_wl.c:107). *)
Definition virtwl_resp_err (type : virtio_wl_ctrl_type) : Z :=
  match type with
  | VIRTIO_WL_RESP_OK
  | VIRTIO_WL_RESP_VFD_NEW => 0
  | VIRTIO_WL_RESP_ERR => - ENODEV
  | VIRTIO_WL_RESP_OUT_OF_MEMORY => - ENOMEM
  | VIRTIO_WL_RESP_INVALID_ID
  | VIRTIO_WL_RESP_INVALID_TYPE
  | _ => - EINVAL
  end.

(** ** Constants and layouts of virtio_wl.h and of the kernel headers

    [virtio_wl.h] and the kernel headers are not part of the file under
    study.  What the driver takes from them is gathered here; the
    functions below are parametric in it. *)

Class virtio_wl_h : Type := {
  (** [sizeof(struct virtio_wl_ctrl_vfd_recv)], the fixed part of a
      receive message; the vfd ids and then the data bytes follow it. *)
  sizeof_recv : Z;
  VIRTIO_WL_VFD_WRITE : Z;
  VIRTIO_WL_VFD_MAP : Z;
  VIRTIO_WL_VFD_CONTROL : Z;
  VIRTWL_MAX_ALLOC : Z;
  PAGE_SHIFT : Z;
  VM_WRITE : Z
}.

(** [sizeof(__le32)]. *)
Definition sizeof_le32 : Z := 4.

(** ** Receive buffers and pending-queue entries *)

(** One page-sized buffer handed to the in-queue, as the driver reads it
    after the host has written a message into it.  [hdr_type] is
    [hdr->type] and [msg_vfd_id] is the [vfd_id] field that follows the
    header in both message layouts.  Read as a
    [struct virtio_wl_ctrl_vfd_recv] the buffer has [recv_vfd_count] and
    then [body], the bytes of the page after the fixed part; read as a
    [struct virtio_wl_ctrl_vfd_new] it has [new_flags], [new_pfn] and
    [new_size]. *)
Record inbuf : Type := {
  hdr_type : virtio_wl_ctrl_type;
  msg_vfd_id : Z;
  recv_vfd_count : Z;
  body : list Z;
  new_flags : Z;
  new_pfn : Z;
  new_size : Z
}.

(** [struct virtwl_vfd_qentry] (virtio_wl.c:63); the list linkage is the
    position of the entry in the [in_queue] list of its vfd. *)
Record virtwl_vfd_qentry : Type := {
  hdr : inbuf;
  len : Z;
  vfd_offset : Z;
  data_offset : Z
}.

Definition set_data_offset (q : virtwl_vfd_qentry) (d : Z) : virtwl_vfd_qentry :=
  {| hdr := hdr q; len := len q; vfd_offset := vfd_offset q; data_offset := d |}.

Definition set_vfd_offset (q : virtwl_vfd_qentry) (v : Z) : virtwl_vfd_qentry :=
  {| hdr := hdr q; len := len q; vfd_offset := v; data_offset := data_offset q |}.

(** What the driver prints with [printk]. *)
Inductive printk_msg : Type :=
| MsgGiveInbufFailed (ret : Z)       (* failed to give inbuf to host *)
| MsgInvalidId (id : Z)              (* received a vfd with invalid id *)
| MsgPlaceFailed (ret : Z)           (* failed to place received vfd *)
| MsgRecvUnknownVfd (id : Z)         (* recv for unknown vfd_id *)
| MsgQentryAllocFailed               (* failed to allocate qentry for vfd *)
| MsgUnhandledCtrl (t : virtio_wl_ctrl_type)
| MsgReturnInbufFailed (ret : Z)     (* failed to return inbuf to host *)
| MsgUnrecognizedId (id : Z)         (* received a vfd with unrecognized id *)
| MsgCloseQueueFailed (id ret : Z)   (* failed to queue close vfd id *)
| MsgReleaseFailed (id ret : Z).     (* failed to release vfd id *)

(** The in-queue as the driver sees it, with what the functions that
    work on it leave behind in the kernel.  [inbufs]: the buffers the
    queue took with [virtqueue_add_inbuf], latest last.  [kicks]: the
    number of kicks.  [add_inbuf_results]: what the transport returns to
    the next calls of [virtqueue_add_inbuf], first call first; once the
    list is used up the calls return 0.  [kfreed]: the receive buffers
    passed to [kfree].  [printed]: the lines printed with [printk], latest
    last; the functions that work on the in-queue print too, so the log
    travels with it. *)
Record virtqueue_in : Type := {
  inbufs : list inbuf;
  kicks : nat;
  add_inbuf_results : list Z;
  kfreed : list inbuf;
  printed : list printk_msg
}.

(** An in-queue on which nothing has happened yet and whose transport
    takes every buffer. *)
Definition vq_idle : virtqueue_in :=
  {| inbufs := []; kicks := 0; add_inbuf_results := []; kfreed := []; printed := [] |}.

(** An in-queue on which nothing has happened yet and whose transport
    refuses the next buffer with [-EIO] (a broken virtqueue). *)
Definition vq_refusing : virtqueue_in :=
  {| inbufs := []; kicks := 0; add_inbuf_results := [- EIO]; kfreed := []; printed := [] |}.

(** [virtqueue_add_inbuf(vq, sg, 1, buffer, GFP_KERNEL)] for a one-page
    buffer: the transport decides; a buffer it takes is queued. *)
Definition virtqueue_add_inbuf (vq : virtqueue_in) (buffer : inbuf) : virtqueue_in * Z :=
  let ret := hd 0 (add_inbuf_results vq) in
  ({| inbufs := if ret =? 0 then inbufs vq ++ [buffer] else inbufs vq;
      kicks := kicks vq;
      add_inbuf_results := tl (add_inbuf_results vq);
      kfreed := kfreed vq;
      printed := printed vq |}, ret).

Definition vq_printk (vq : virtqueue_in) (m : printk_msg) : virtqueue_in :=
  {| inbufs := inbufs vq; kicks := kicks vq; add_inbuf_results := add_inbuf_results vq;
     kfreed := kfreed vq; printed := printed vq ++ [m] |}.

(** [kfree] of a receive buffer. *)
Definition kfree_inbuf (vq : virtqueue_in) (buffer : inbuf) : virtqueue_in :=
  {| inbufs := inbufs vq; kicks := kicks vq; add_inbuf_results := add_inbuf_results vq;
     kfreed := kfreed vq ++ [buffer]; printed := printed vq |}.

(** [vq_return_inbuf_locked] (virtio_wl.c:124): the queue afterwards and
    the returned value. *)
Definition vq_return_inbuf_locked (vq : virtqueue_in) (buffer : inbuf) : virtqueue_in * Z :=
  let '(vq', ret) := virtqueue_add_inbuf vq buffer in
  if negb (ret =? 0) then (vq_printk vq' (MsgGiveInbufFailed ret), ret)
  else (vq', 0).

Definition virtqueue_kick (vq : virtqueue_in) : virtqueue_in :=
  {| inbufs := inbufs vq; kicks := S (kicks vq); add_inbuf_results := add_inbuf_results vq;
     kfreed := kfreed vq; printed := printed vq |}.

(** The payload length [data_len] computed in [vfd_qentry_free_if_empty]:
    signed 64-bit arithmetic on 32-bit operands. *)
Definition data_len `{virtio_wl_h} (qentry : virtwl_vfd_qentry) : Z :=
  len qentry - sizeof_recv - recv_vfd_count (hdr qentry) * sizeof_le32.

(** [vfd_qentry_free_if_empty] (virtio_wl.c:415).  The result is the
    in-queue afterwards and the entry if it is still linked ([None] after
    [list_del] and [kfree]).  What [vq_return_inbuf_locked] returns is not
    looked at: the entry is unlinked and freed and the host is kicked
    also when the transport refused the buffer. *)
Definition vfd_qentry_free_if_empty `{virtio_wl_h}
    (vq : virtqueue_in) (qentry : virtwl_vfd_qentry)
  : virtqueue_in * option virtwl_vfd_qentry :=
  let release := (virtqueue_kick (fst (vq_return_inbuf_locked vq (hdr qentry))), None) in
  if decide (hdr_type (hdr qentry) = VIRTIO_WL_CMD_VFD_RECV) then
    if vfd_offset qentry <? recv_vfd_count (hdr qentry) then (vq, Some qentry)
    else if data_offset qentry <? data_len qentry then (vq, Some qentry)
    else release
  else release.

(** Bytes [off .. off + n) of a buffer body. *)
Definition read_bytes (b : list Z) (off n : Z) : list Z :=
  firstn (Z.to_nat n) (skipn (Z.to_nat off) b).

(** The result of one drain of payload bytes. *)
Record out_result : Type := {
  out_count : Z;                       (* the returned read_count *)
  out_bytes : list Z;                  (* bytes stored at buffer[0..] *)
  out_queue : list virtwl_vfd_qentry;  (* in_queue afterwards *)
  out_vq : virtqueue_in;
  out_released : list virtwl_vfd_qentry
    (* the entries that were unlinked and freed, as they were then *)
}.

(** The entry that [vfd_qentry_free_if_empty] unlinked, if it did. *)
Definition released_of (qentry : virtwl_vfd_qentry) (kept : option virtwl_vfd_qentry)
  : list virtwl_vfd_qentry :=
  match kept with
  | Some _ => []
  | None => [qentry]
  end.

(** The loop of [vfd_out_locked] (virtio_wl.c:450), by recursion on the
    entries that are still to be visited.  [copy_ok off n] tells whether
    [copy_to_user(buffer + off, _, n)] succeeds.  [read_count] is never
    negative inside the loop, so its comparisons with the [size_t] [len]
    are comparisons of numbers. *)
Fixpoint vfd_out_loop `{virtio_wl_h} (copy_ok : Z -> Z -> bool) (len_ : Z)
    (queue : list virtwl_vfd_qentry) (read_count : Z) (vq : virtqueue_in)
  : out_result :=
  match queue with
  | [] => {| out_count := read_count; out_bytes := []; out_queue := []; out_vq := vq;
             out_released := [] |}
  | qentry :: next =>
    let recv_offset :=
      sizeof_recv + recv_vfd_count (hdr qentry) * sizeof_le32 + data_offset qentry in
    let to_read := len qentry - recv_offset in
    let skip :=
      let r := vfd_out_loop copy_ok len_ next read_count vq in
      {| out_count := out_count r; out_bytes := out_bytes r;
         out_queue := qentry :: out_queue r; out_vq := out_vq r;
         out_released := out_released r |} in
    if len_ <=? read_count then
      {| out_count := read_count; out_bytes := []; out_queue := queue; out_vq := vq;
         out_released := [] |}
    else if to_read <=? 0 then skip
    else if negb (bool_decide (hdr_type (hdr qentry) = VIRTIO_WL_CMD_VFD_RECV)) then skip
    else
      let to_read := if len_ <? to_read + read_count then len_ - read_count else to_read in
      if negb (copy_ok read_count to_read) then
        {| out_count := if read_count =? 0 then - EFAULT else read_count;
           out_bytes := []; out_queue := queue; out_vq := vq; out_released := [] |}
      else
        let buf := read_bytes (body (hdr qentry)) (recv_offset - sizeof_recv) to_read in
        let qentry' := set_data_offset qentry (u32 (data_offset qentry + to_read)) in
        let '(vq', kept) := vfd_qentry_free_if_empty vq qentry' in
        let r := vfd_out_loop copy_ok len_ next (read_count + to_read) vq' in
        {| out_count := out_count r; out_bytes := buf ++ out_bytes r;
           out_queue := option_list kept ++ out_queue r; out_vq := out_vq r;
           out_released := released_of qentry' kept ++ out_released r |}
  end.

(** [vfd_out_locked] (virtio_wl.c:444). *)
Definition vfd_out_locked `{virtio_wl_h} (copy_ok : Z -> Z -> bool)
    (in_queue : list virtwl_vfd_qentry) (vq : virtqueue_in) (len_ : Z) : out_result :=
  vfd_out_loop copy_ok len_ in_queue 0 vq.

(** ** VFDs, the handle table and the device *)

(** [struct virtwl_vfd] (virtio_wl.c:71) without its locks and wait
    queue. *)
Record virtwl_vfd : Type := {
  vfd_id : Z;
  vfd_flags : Z;
  vfd_pfn : Z;
  vfd_size : Z;
  in_queue : list virtwl_vfd_qentry
}.

(** The object [kzalloc] hands to [virtwl_vfd_alloc]: all fields zero,
    the list empty. *)
Definition vfd_zero : virtwl_vfd :=
  {| vfd_id := 0; vfd_flags := 0; vfd_pfn := 0; vfd_size := 0; in_queue := [] |}.

Definition set_in_queue (v : virtwl_vfd) (q : list virtwl_vfd_qentry) : virtwl_vfd :=
  {| vfd_id := vfd_id v; vfd_flags := vfd_flags v; vfd_pfn := vfd_pfn v;
     vfd_size := vfd_size v; in_queue := q |}.

Definition set_vfd_id (v : virtwl_vfd) (i : Z) : virtwl_vfd :=
  {| vfd_id := i; vfd_flags := vfd_flags v; vfd_pfn := vfd_pfn v;
     vfd_size := vfd_size v; in_queue := in_queue v |}.

Definition set_vfd_attrs (v : virtwl_vfd) (sz p f : Z) : virtwl_vfd :=
  {| vfd_id := vfd_id v; vfd_flags := f; vfd_pfn := p;
     vfd_size := sz; in_queue := in_queue v |}.

(** [struct virtwl_info] (virtio_wl.c:85): the idr maps an id to the
    address of a vfd, [objs] is the memory holding the allocated vfds, and
    [vq_in] is [vqs[VIRTWL_VQ_IN]]. *)
Record virtwl_info : Type := {
  vfds : gmap Z Z;
  objs : gmap Z virtwl_vfd;
  vq_in : virtqueue_in
}.

Definition set_vfds (vi : virtwl_info) (t : gmap Z Z) : virtwl_info :=
  {| vfds := t; objs := objs vi; vq_in := vq_in vi |}.

Definition set_objs (vi : virtwl_info) (o : gmap Z virtwl_vfd) : virtwl_info :=
  {| vfds := vfds vi; objs := o; vq_in := vq_in vi |}.

Definition set_vq_in (vi : virtwl_info) (vq : virtqueue_in) : virtwl_info :=
  {| vfds := vfds vi; objs := objs vi; vq_in := vq |}.

(** The kernel log. *)
Definition klog (vi : virtwl_info) : list printk_msg := printed (vq_in vi).

Definition printk (vi : virtwl_info) (m : printk_msg) : virtwl_info :=
  set_vq_in vi (vq_printk (vq_in vi) m).

(** *** The idr (include/linux/idr.h), as the driver uses it *)

Definition INT_MAX : Z := 2 ^ 31 - 1.

(** An [int] argument made from a [u32] value. *)
Definition int_of_u32 (z : Z) : Z := if z <? 2 ^ 31 then z else z - 2 ^ 32.

Definition idr_find (t : gmap Z Z) (id : Z) : option Z := t !! id.

Definition idr_remove (t : gmap Z Z) (id : Z) : gmap Z Z := delete id t.

(** The smallest free id in [i .. max].  At most [size t] ids are taken,
    so [S (size t)] probes decide the search. *)
Fixpoint idr_scan (fuel : nat) (t : gmap Z Z) (i max : Z) : option Z :=
  match fuel with
  | O => None
  | S fuel' =>
    if max <? i then None
    else match t !! i with
         | None => Some i
         | Some _ => idr_scan fuel' t (i + 1) max
         end
  end.

(** [idr_alloc(idr, ptr, start, end, GFP_KERNEL)]: the smallest free id in
    [start, end) is given to [ptr]; [end <= 0] stands for [INT_MAX + 1].
    The result is the id, or [-EINVAL] for a negative [start], or
    [-ENOSPC] when the range is full. *)
Definition idr_alloc (t : gmap Z Z) (ptr start end_ : Z) : gmap Z Z * Z :=
  if start <? 0 then (t, - EINVAL)
  else
    let max := if 0 <? end_ then end_ - 1 else INT_MAX in
    match idr_scan (S (size t)) t start max with
    | Some id => (<[id := ptr]> t, id)
    | None => (t, - ENOSPC)
    end.

(** ** Draining transferred handles *)

(** [le32_to_cpu] of the four bytes at [off]. *)
Definition le32_at (b : list Z) (off : Z) : Z :=
  let byte i := nth (Z.to_nat (off + i)) b 0 in
  byte 0 + 2 ^ 8 * byte 1 + 2 ^ 16 * byte 2 + 2 ^ 24 * byte 3.

(** The [for] loop of [vfd_out_vfds_locked] (virtio_wl.c:509): [n]
    iterations are left and [i] is the loop index; [base] is the offset of
    [vfds_le] in the body.  The result holds the entry, the pointers
    stored into [vfds[read_count..]] that were kept, and the messages. *)
Fixpoint vfds_for (t : gmap Z Z) (base : Z) (n : nat) (i : Z)
    (qentry : virtwl_vfd_qentry)
  : virtwl_vfd_qentry * list Z * list printk_msg :=
  match n with
  | O => (qentry, [], [])
  | S n' =>
    let vfd_id := le32_at (body (hdr qentry)) (base + i * sizeof_le32) in
    let qentry' := set_vfd_offset qentry (u32 (vfd_offset qentry + 1)) in
    let '(q, found, msgs) := vfds_for t base n' (i + 1) qentry' in
    match idr_find t vfd_id with
    | Some ptr => (q, ptr :: found, msgs)
    | None => (q, found, MsgUnrecognizedId vfd_id :: msgs)
    end
  end.

(** The result of one drain of handles. *)
Record vfds_result : Type := {
  vr_vfds : list Z;                     (* vfds[0 .. read_count) *)
  vr_queue : list virtwl_vfd_qentry;    (* in_queue afterwards *)
  vr_vq : virtqueue_in;
  vr_msgs : list printk_msg;            (* the lines printed at virtio_wl.c:515 *)
  vr_released : list virtwl_vfd_qentry
    (* the entries that were unlinked and freed, as they were then *)
}.

(** The loop of [vfd_out_vfds_locked] (virtio_wl.c:492).  [read_count] is
    the length of [acc], the pointers stored so far.  The lines the [for]
    loop prints go to the log before [vfd_qentry_free_if_empty] runs. *)
Fixpoint vfd_out_vfds_loop `{virtio_wl_h} (t : gmap Z Z) (count : Z)
    (queue : list virtwl_vfd_qentry) (acc : list Z) (vq : virtqueue_in)
  : vfds_result :=
  match queue with
  | [] => {| vr_vfds := acc; vr_queue := []; vr_vq := vq; vr_msgs := [];
             vr_released := [] |}
  | qentry :: next =>
    let read_count := Z.of_nat (length acc) in
    let vfds_to_read := u32 (recv_vfd_count (hdr qentry) - vfd_offset qentry) in
    let skip :=
      let r := vfd_out_vfds_loop t count next acc vq in
      {| vr_vfds := vr_vfds r; vr_queue := qentry :: vr_queue r;
         vr_vq := vr_vq r; vr_msgs := vr_msgs r; vr_released := vr_released r |} in
    if count <=? read_count then
      {| vr_vfds := acc; vr_queue := queue; vr_vq := vq; vr_msgs := [];
         vr_released := [] |}
    else if vfds_to_read <=? 0 then skip
    else if negb (bool_decide (hdr_type (hdr qentry) = VIRTIO_WL_CMD_VFD_RECV)) then skip
    else
      let vfds_to_read :=
        if count <? vfds_to_read + read_count then count - read_count else vfds_to_read in
      let '(qentry', found, msgs) :=
        vfds_for t (vfd_offset qentry * sizeof_le32) (Z.to_nat vfds_to_read) 0 qentry in
      let '(vq', kept) := vfd_qentry_free_if_empty (fold_left vq_printk msgs vq) qentry' in
      let r := vfd_out_vfds_loop t count next (acc ++ found) vq' in
      {| vr_vfds := vr_vfds r; vr_queue := option_list kept ++ vr_queue r;
         vr_vq := vr_vq r; vr_msgs := msgs ++ vr_msgs r;
         vr_released := released_of qentry' kept ++ vr_released r |}
  end.

(** [vfd_out_vfds_locked] (virtio_wl.c:484). *)
Definition vfd_out_vfds_locked `{virtio_wl_h} (t : gmap Z Z)
    (in_queue : list virtwl_vfd_qentry) (vq : virtqueue_in) (count : Z) : vfds_result :=
  vfd_out_vfds_loop t count in_queue [] vq.

(** ** The inbound dispatcher *)

(** A call either returns or dereferences an invalid pointer. *)
Inductive outcome (A : Type) : Type :=
| Done (a : A)
| Oops.
Arguments Done {A} a.
Arguments Oops {A}.

Definition VFD_ILLEGAL_SIGN_BIT : Z := 0x80000000.
Definition VFD_HOST_VFD_ID_BIT : Z := 0x40000000.

(** [virtwl_vfd_alloc] (virtio_wl.c:357) given the address [kzalloc]
    returned: the zeroed object is placed at that address. *)
Definition virtwl_vfd_alloc (vi : virtwl_info) (addr : Z) : virtwl_info :=
  set_objs vi (<[addr := vfd_zero]> (objs vi)).

(** [virtwl_vfd_free] (virtio_wl.c:388). *)
Definition virtwl_vfd_free (vi : virtwl_info) (addr : Z) : virtwl_info :=
  set_objs vi (delete addr (objs vi)).

(** [vq_handle_new] (virtio_wl.c:192).  [kz] is what [kzalloc] returns
    for the vfd: an unused address or [None] for NULL.  On NULL
    [virtwl_vfd_alloc] returns [ERR_PTR(-ENOMEM)], which the test [!vfd]
    lets through; the pointer is then handed to [kfree] or written
    through. *)
Definition vq_handle_new (vi : virtwl_info) (kz : option Z) (new : inbuf)
  : outcome (virtwl_info * bool) :=
  let id := msg_vfd_id new in
  if id =? 0 then Done (vi, true)
  else if (Z.land id VFD_HOST_VFD_ID_BIT =? 0)
          || negb (Z.land id VFD_ILLEGAL_SIGN_BIT =? 0) then
    Done (printk vi (MsgInvalidId id), true)
  else
    match kz with
    | None => Oops
    | Some addr =>
      let vi1 := virtwl_vfd_alloc vi addr in
      let '(t, ret) :=
        idr_alloc (vfds vi1) addr (int_of_u32 id) (int_of_u32 (u32 (id + 1))) in
      let vi2 := set_vfds vi1 t in
      if ret <=? 0 then
        Done (printk (virtwl_vfd_free vi2 addr) (MsgPlaceFailed ret), true)
      else
        let vfd := {| vfd_id := id; vfd_flags := new_flags new; vfd_pfn := new_pfn new;
                      vfd_size := new_size new; in_queue := [] |} in
        Done (set_objs vi2 (<[addr := vfd]> (objs vi2)), true)
    end.

(** [vq_handle_recv] (virtio_wl.c:229).  [kz_ok] tells whether [kzalloc]
    of the queue entry succeeds. *)
Definition vq_handle_recv (vi : virtwl_info) (kz_ok : bool) (recv : inbuf) (len_ : Z)
  : outcome (virtwl_info * bool) :=
  match idr_find (vfds vi) (msg_vfd_id recv) with
  | None => Done (printk vi (MsgRecvUnknownVfd (msg_vfd_id recv)), true)
  | Some ptr =>
    match objs vi !! ptr with
    | None => Oops
    | Some vfd =>
      if negb kz_ok then Done (printk vi MsgQentryAllocFailed, true)
      else
        let qentry := {| hdr := recv; len := len_; vfd_offset := 0; data_offset := 0 |} in
        let vfd' := set_in_queue vfd (in_queue vfd ++ [qentry]) in
        Done (set_objs vi (<[ptr := vfd']> (objs vi)), false)
    end
  end.

(** [vq_dispatch_hdr] (virtio_wl.c:264).  [kz] serves the allocation of
    the handler that runs; for a receive message [None] is a failed
    [kzalloc].  A buffer the transport refuses to take back is freed. *)
Definition vq_dispatch_hdr (vi : virtwl_info) (kz : option Z) (len_ : Z) (hdr_ : inbuf)
  : outcome (virtwl_info * bool) :=
  let handled :=
    match hdr_type hdr_ with
    | VIRTIO_WL_CMD_VFD_NEW => vq_handle_new vi kz hdr_
    | VIRTIO_WL_CMD_VFD_RECV => vq_handle_recv vi (bool_decide (is_Some kz)) hdr_ len_
    | t => Done (printk vi (MsgUnhandledCtrl t), true)
    end in
  match handled with
  | Oops => Oops
  | Done (vi', false) => Done (vi', false)
  | Done (vi', true) =>
    let '(vq, ret) := vq_return_inbuf_locked (vq_in vi') hdr_ in
    if negb (ret =? 0) then
      Done (set_vq_in vi' (kfree_inbuf (vq_printk vq (MsgReturnInbufFailed ret)) hdr_), true)
    else Done (set_vq_in vi' vq, true)
  end.

(** ** The outbound sender *)

(** What the out-queue and the host do around one outbound call, in the
    order in which it happens. *)
Inductive event : Type :=
| EvMessage (t : virtio_wl_ctrl_type) (id flags sz : Z)
                             (* the message built for the out-queue *)
| EvAddSgs (ret : Z)         (* virtqueue_add_sgs returned ret *)
| EvWait (woken : bool)      (* wait_event_timeout returned non-zero / zero *)
| EvKick                     (* virtqueue_kick on the out-queue *)
| EvCompletion               (* wait_for_completion returned *)
| EvUnlink (id : Z)          (* idr_remove *)
| EvReturnInbuf (b : inbuf)  (* vq_return_inbuf_locked called on a queued buffer *)
| EvFree (addr : Z).         (* kfree of the vfd *)

(** One turn of the loop of [vq_queue_out] as the transport decides it:
    the result of [virtqueue_add_sgs] and, should the driver wait after
    [-ENOSPC], whether [wait_event_timeout(out_waitq, num_free > 0, HZ)]
    returns non-zero (a slot became free within [HZ]) or zero (the time
    elapsed). *)
Record out_attempt : Type := {
  add_res : Z;
  woken : bool
}.

(** [vq_queue_out] (virtio_wl.c:139), by recursion on the turns the
    transport takes.  [None]: the turns given are used up and the call is
    still in its loop. *)
Fixpoint vq_queue_out (nonblock : bool) (script : list out_attempt)
  : option (Z * list event) :=
  match script with
  | [] => None
  | a :: rest =>
    if add_res a =? - ENOSPC then
      if nonblock then Some (- EAGAIN, [EvAddSgs (add_res a)])
      else if negb (woken a) then Some (- EBUSY, [EvAddSgs (add_res a); EvWait false])
      else
        match vq_queue_out nonblock rest with
        | Some (ret, evs) => Some (ret, EvAddSgs (add_res a) :: EvWait true :: evs)
        | None => None
        end
    else if add_res a =? 0 then Some (0, [EvAddSgs 0; EvKick])
    else Some (add_res a, [EvAddSgs (add_res a)])
  end.

(** [virtwl_vfd_lock_unlink] (virtio_wl.c:373). *)
Definition virtwl_vfd_lock_unlink (vi : virtwl_info) (vfd : virtwl_vfd) : virtwl_info :=
  set_vfds vi (idr_remove (vfds vi) (vfd_id vfd)).

(** [virtwl_vfd_remove] (virtio_wl.c:396) of the vfd at [addr]; the
    events are the teardown steps in program order.  What
    [vq_return_inbuf_locked] returns is not looked at. *)
Definition virtwl_vfd_remove (vi : virtwl_info) (addr : Z) (vfd : virtwl_vfd)
  : virtwl_info * list event :=
  let vi1 := virtwl_vfd_lock_unlink vi vfd in
  let bufs := map hdr (in_queue vfd) in
  let vq := fold_left (fun vq b => fst (vq_return_inbuf_locked vq b)) bufs (vq_in vi1) in
  let vi2 := set_vq_in vi1 vq in
  (virtwl_vfd_free vi2 addr,
   EvUnlink (vfd_id vfd) :: map EvReturnInbuf bufs ++ [EvFree addr]).

(** [do_vfd_close] (virtio_wl.c:528) of the vfd at [addr].  [kz_ok]:
    [kzalloc] of the close message succeeds.  The completion is signalled
    by the host; the call sleeps in [wait_for_completion] until then. *)
Definition do_vfd_close (vi : virtwl_info) (addr : Z) (kz_ok : bool)
    (script : list out_attempt) : option (outcome (virtwl_info * Z * list event)) :=
  match objs vi !! addr with
  | None => Some Oops
  | Some vfd =>
    if negb kz_ok then Some (Done (vi, - ENOMEM, []))
    else
      let ctrl_close := EvMessage VIRTIO_WL_CMD_VFD_CLOSE (vfd_id vfd) 0 0 in
      match vq_queue_out false script with
      | None => None
      | Some (ret, evs) =>
        if negb (ret =? 0) then
          Some (Done (printk vi (MsgCloseQueueFailed (vfd_id vfd) ret), ret,
                      ctrl_close :: evs))
        else
          let '(vi', tevs) := virtwl_vfd_remove vi addr vfd in
          Some (Done (vi', ret, (ctrl_close :: evs) ++ EvCompletion :: tevs))
      end
  end.

(** [virtwl_vfd_release] (virtio_wl.c:664): the file goes away whatever
    [do_vfd_close] returned. *)
Definition virtwl_vfd_release (vi : virtwl_info) (addr : Z) (kz_ok : bool)
    (script : list out_attempt) : option (outcome (virtwl_info * Z * list event)) :=
  match do_vfd_close vi addr kz_ok script with
  | Some (Done (vi', ret, evs)) =>
    let vfd_id_ := match objs vi !! addr with Some v => vfd_id v | None => 0 end in
    Some (Done (if negb (ret =? 0) then printk vi' (MsgReleaseFailed vfd_id_ ret) else vi',
                0, evs))
  | r => r
  end.

(** ** Mapping *)

Record vm_area_struct : Type := {
  vm_start : Z;
  vm_end : Z;
  vm_pgoff : Z;
  vm_flags : Z
}.

Definition PAGE_SIZE `{virtio_wl_h} : Z := Z.shiftl 1 PAGE_SHIFT.

(** [PAGE_ALIGN] at type [uint32_t]: the sum and the mask are 32 bits
    wide. *)
Definition PAGE_ALIGN `{virtio_wl_h} (x : Z) : Z :=
  Z.land (u32 (x + (PAGE_SIZE - 1))) (u32 (Z.lnot (PAGE_SIZE - 1))).

(** [virtwl_vfd_mmap] (virtio_wl.c:607).  [remap_ret] is what
    [io_remap_pfn_range] returns when it is reached. *)
Definition virtwl_vfd_mmap `{virtio_wl_h} (vfd : virtwl_vfd) (vma : vm_area_struct)
    (remap_ret : Z) : Z :=
  let vm_size := u64 (vm_end vma - vm_start vma) in
  if Z.land (vfd_flags vfd) VIRTIO_WL_VFD_MAP =? 0 then - EACCES
  else if negb (Z.land (vm_flags vma) VM_WRITE =? 0)
          && (Z.land (vfd_flags vfd) VIRTIO_WL_VFD_WRITE =? 0) then - EACCES
  else if PAGE_ALIGN (vfd_size vfd) <? u64 (vm_size + u64 (Z.shiftl (vm_pgoff vma) PAGE_SHIFT))
  then - EINVAL
  else remap_ret.

(** ** Receive *)

(** What happens while [virtwl_vfd_recv] sleeps in
    [wait_event_interruptible] with both locks released: a signal
    arrives, or the dispatcher appends entries to the queue of the vfd. *)
Inductive recv_wait : Type :=
| WaitSignal
| WaitAppend (new : list virtwl_vfd_qentry).

Inductive recv_ret : Type :=
| RecvErr (e : Z)
| RecvOk (read_count : Z) (data : list Z) (vfds_out : list Z).

(** [virtwl_vfd_recv] (virtio_wl.c:564) on the vfd at [addr].  One unit
    of [fuel] is one evaluation of the condition of the inner loop: a
    sleep when the queue is empty, otherwise one pass of the two drains.
    [have_vfds] stands for [vfds && vfd_count], [count] for [*vfd_count].
    [None]: the fuel or the script is used up and the call has not
    returned. *)
Fixpoint virtwl_vfd_recv `{virtio_wl_h} (fuel : nat) (vi : virtwl_info) (addr : Z)
    (nonblock : bool) (copy_ok : Z -> Z -> bool) (len_ : Z)
    (have_vfds : bool) (count : Z) (script : list recv_wait)
  : option (outcome (virtwl_info * recv_ret)) :=
  match fuel with
  | O => None
  | S fuel' =>
    match objs vi !! addr with
    | None => Some Oops
    | Some vfd =>
      match in_queue vfd with
      | [] =>
        if nonblock then Some (Done (vi, RecvErr (- EAGAIN)))
        else
          match script with
          | [] => None
          | WaitSignal :: _ => Some (Done (vi, RecvErr (- ERESTARTSYS)))
          | WaitAppend new :: script' =>
            let vfd' := set_in_queue vfd (in_queue vfd ++ new) in
            virtwl_vfd_recv fuel' (set_objs vi (<[addr := vfd']> (objs vi))) addr
              nonblock copy_ok len_ have_vfds count script'
          end
      | _ :: _ =>
        let r := vfd_out_locked copy_ok (in_queue vfd) (vq_in vi) len_ in
        let vi1 := set_vq_in
                     (set_objs vi (<[addr := set_in_queue vfd (out_queue r)]> (objs vi)))
                     (out_vq r) in
        if out_count r <? 0 then Some (Done (vi1, RecvErr (out_count r)))
        else if have_vfds && negb (count =? 0) then
          let v := vfd_out_vfds_locked (vfds vi1) (out_queue r) (out_vq r) count in
          let vi2 := set_vq_in
                       (set_objs vi1 (<[addr := set_in_queue vfd (vr_queue v)]> (objs vi1)))
                       (vr_vq v) in
          if (out_count r =? 0) && (Z.of_nat (length (vr_vfds v)) =? 0) then
            virtwl_vfd_recv fuel' vi2 addr nonblock copy_ok len_ have_vfds count script
          else Some (Done (vi2, RecvOk (out_count r) (out_bytes r) (vr_vfds v)))
        else if out_count r =? 0 then
          virtwl_vfd_recv fuel' vi1 addr nonblock copy_ok len_ have_vfds count script
        else Some (Done (vi1, RecvOk (out_count r) (out_bytes r) []))
      end
    end
  end.

(** ** New *)

Inductive virtwl_ioctl_type : Type :=
| VIRTWL_IOCTL_NEW_CTX
| VIRTWL_IOCTL_NEW_ALLOC
| VIRTWL_IOCTL_NEW_OTHER (n : Z).

(** [struct virtio_wl_ctrl_vfd_new] as [do_new] reads it back after the
    host has written its acknowledgment over the request. *)
Record virtio_wl_ctrl_vfd_new : Type := {
  ack_type : virtio_wl_ctrl_type;
  ack_flags : Z;
  ack_pfn : Z;
  ack_size : Z
}.

(** The message [do_new] builds for a request of the given type
    (virtio_wl.c:819): a context carries the control flag and size 0, an
    allocation the writable and mappable flags and the requested size. *)
Definition ctrl_new_request `{virtio_wl_h} (type : virtwl_ioctl_type) (id size_ : Z)
  : event :=
  match type with
  | VIRTWL_IOCTL_NEW_CTX =>
    EvMessage VIRTIO_WL_CMD_VFD_NEW_CTX id VIRTIO_WL_VFD_CONTROL 0
  | _ =>
    EvMessage VIRTIO_WL_CMD_VFD_NEW id (Z.lor VIRTIO_WL_VFD_WRITE VIRTIO_WL_VFD_MAP) size_
  end.

(** [do_new] (virtio_wl.c:781).  [kz_ctrl]: [kzalloc] of the message
    succeeds; [kz_vfd]: the address [kzalloc] returns for the vfd, [None]
    for NULL, which [virtwl_vfd_alloc] turns into an [ERR_PTR] that the
    test [!vfd] lets through to [mutex_lock].  The result is the address
    of the new vfd or the error in [ERR_PTR]. *)
Definition do_new `{virtio_wl_h} (vi : virtwl_info) (kz_ctrl : bool) (kz_vfd : option Z)
    (type : virtwl_ioctl_type) (size_ : Z) (nonblock : bool)
    (script : list out_attempt) (ack : virtio_wl_ctrl_vfd_new)
  : option (outcome (virtwl_info * (Z + Z) * list event)) :=
  match type with
  | VIRTWL_IOCTL_NEW_OTHER _ => Some (Done (vi, inr (- EINVAL), []))
  | _ =>
    if negb kz_ctrl then Some (Done (vi, inr (- ENOMEM), []))
    else
      match kz_vfd with
      | None => Some Oops
      | Some addr =>
        let vi1 := virtwl_vfd_alloc vi addr in
        let '(t, ret) := idr_alloc (vfds vi1) addr 1 VIRTWL_MAX_ALLOC in
        let vi2 := set_vfds vi1 t in
        if ret <=? 0 then
          Some (Done (virtwl_vfd_free vi2 addr, inr ret, [EvFree addr]))
        else
          let vfd := set_vfd_id vfd_zero ret in
          let vi3 := set_objs vi2 (<[addr := vfd]> (objs vi2)) in
          let remove_vfd (ret : Z) (evs : list event) :=
            Some (Done (virtwl_vfd_free (virtwl_vfd_lock_unlink vi3 vfd) addr, inr ret,
                        evs ++ [EvUnlink (vfd_id vfd); EvFree addr])) in
          let ctrl_new := ctrl_new_request type (vfd_id vfd) size_ in
          match vq_queue_out nonblock script with
          | None => None
          | Some (ret, evs) =>
            let evs := ctrl_new :: evs in
            if negb (ret =? 0) then remove_vfd ret evs
            else
              let ret := virtwl_resp_err (ack_type ack) in
              if negb (ret =? 0) then remove_vfd ret (evs ++ [EvCompletion])
              else
                let vfd' := set_vfd_attrs vfd (ack_size ack) (ack_pfn ack) (ack_flags ack) in
                Some (Done (set_objs vi3 (<[addr := vfd']> (objs vi3)), inl addr,
                            evs ++ [EvCompletion]))
          end
      end
  end.

(** ** The header values of the upstream driver

    Used where a statement is evaluated on a concrete device: the values
    of the upstream [virtio_wl.h] and of an x86-64 kernel. *)

Definition upstream_h : virtio_wl_h :=
  {| sizeof_recv := 16;
     VIRTIO_WL_VFD_WRITE := 1;
     VIRTIO_WL_VFD_MAP := 2;
     VIRTIO_WL_VFD_CONTROL := 4;
     VIRTWL_MAX_ALLOC := 0x800;
     PAGE_SHIFT := 12;
     VM_WRITE := 2 |}.

(** ** Statements that are put to the test

    Readings of sentences of the specification that the code is compared
    with below. *)

(** The reading of the mapping as one-to-one, at two acknowledgment
    types. *)
Definition resp_err_distinct_at (t1 t2 : virtio_wl_ctrl_type) : Prop :=
  host_failure t1 = true -> host_failure t2 = true -> t1 <> t2 ->
  virtwl_resp_err t1 <> virtwl_resp_err t2.

(** The origin test of [vq_handle_new]: the host-origin marker is set and
    the sign bit is not. *)
Definition valid_host_id (id : Z) : Prop :=
  Z.land id VFD_HOST_VFD_ID_BIT <> 0 /\ Z.land id VFD_ILLEGAL_SIGN_BIT = 0.

(** Reading of C6: a pushed new-handle message whose id fails the origin
    test is logged as such, leaves the handle table alone and has its
    buffer returned. *)
Definition rejected_new_is_logged (vi : virtwl_info) (kz : option Z) (len_ : Z)
    (hdr_ : inbuf) : Prop :=
  hdr_type hdr_ = VIRTIO_WL_CMD_VFD_NEW ->
  ~ valid_host_id (msg_vfd_id hdr_) ->
  exists vi',
    vq_dispatch_hdr vi kz len_ hdr_ = Done (vi', true) /\
    vfds vi' = vfds vi /\
    inbufs (vq_in vi') = inbufs (vq_in vi) ++ [hdr_] /\
    In (MsgInvalidId (msg_vfd_id hdr_)) (klog vi').

(** Reading of C10: a pushed new-handle message with id 0 creates
    nothing, has its buffer returned and is not logged as invalid. *)
Definition id_zero_is_returned (vi : virtwl_info) (kz : option Z) (len_ : Z)
    (hdr_ : inbuf) : Prop :=
  hdr_type hdr_ = VIRTIO_WL_CMD_VFD_NEW ->
  msg_vfd_id hdr_ = 0 ->
  exists vi',
    vq_dispatch_hdr vi kz len_ hdr_ = Done (vi', true) /\
    vfds vi' = vfds vi /\ objs vi' = objs vi /\
    inbufs (vq_in vi') = inbufs (vq_in vi) ++ [hdr_] /\
    ~ In (MsgInvalidId 0) (klog vi').

(** The device [vi_empty] on a transport that refuses the next buffer. *)
Definition vi_refusing : virtwl_info :=
  {| vfds := ∅; objs := ∅; vq_in := vq_refusing |}.

(** A device with nothing registered and nothing logged. *)
Definition vi_empty : virtwl_info :=
  {| vfds := ∅; objs := ∅; vq_in := vq_idle |}.

(** A pushed new-handle message with the given id, for a 4096-byte
    mappable region. *)
Definition push_new (id : Z) : inbuf :=
  {| hdr_type := VIRTIO_WL_CMD_VFD_NEW; msg_vfd_id := id; recv_vfd_count := 0;
     body := []; new_flags := 3; new_pfn := 0x1000; new_size := 4096 |}.

(** The number of bounded waits that elapsed without a free slot. *)
Fixpoint timeouts (evs : list event) : nat :=
  match evs with
  | [] => 0
  | EvWait false :: evs' => S (timeouts evs')
  | _ :: evs' => timeouts evs'
  end.

(** Reading of C4: a blocking caller gets [-EBUSY] only after the bounded
    wait has elapsed more than once. *)
Definition busy_only_after_repeated_timeouts (script : list out_attempt) : Prop :=
  forall evs, vq_queue_out false script = Some (- EBUSY, evs) -> (2 <= timeouts evs)%nat.

(** The out-queue has no free slot and no slot frees within the wait. *)
Definition no_slot : out_attempt := {| add_res := - ENOSPC; woken := false |}.

(** The out-queue has no free slot and a slot frees within the wait. *)
Definition slot_frees : out_attempt := {| add_res := - ENOSPC; woken := true |}.

(** The out-queue takes the request. *)
Definition queued : out_attempt := {| add_res := 0; woken := false |}.

(** Events of the submission loop, as opposed to completion and
    teardown. *)
Definition is_queue_event (e : event) : Prop :=
  match e with
  | EvMessage _ _ _ _ | EvAddSgs _ | EvWait _ | EvKick => True
  | _ => False
  end.

(** Reading of C3: every close that returns has notified the host, has
    seen the acknowledgment, and has torn the vfd down locally. *)
Definition close_always_tears_down (vi : virtwl_info) (addr : Z) (kz_ok : bool)
    (script : list out_attempt) : Prop :=
  forall vi' ret evs,
    do_vfd_close vi addr kz_ok script = Some (Done (vi', ret, evs)) ->
    In EvKick evs /\ In EvCompletion evs /\ objs vi' !! addr = None.

(** Events of the local teardown. *)
Definition is_teardown_event (e : event) : Prop :=
  match e with
  | EvUnlink _ | EvReturnInbuf _ | EvFree _ => True
  | _ => False
  end.

(** A receive message for vfd 1 carrying the two payload bytes 104, 105
    and no handles, in a buffer whose remaining bytes are 0. *)
Definition msg_hi : inbuf :=
  {| hdr_type := VIRTIO_WL_CMD_VFD_RECV; msg_vfd_id := 1; recv_vfd_count := 0;
     body := [104; 105; 0; 0]; new_flags := 0; new_pfn := 0; new_size := 0 |}.

Definition qentry_hi : virtwl_vfd_qentry :=
  {| hdr := msg_hi; len := 18; vfd_offset := 0; data_offset := 0 |}.

(** A device with one context vfd, id 1 at address 100, holding one
    pending entry. *)
Definition vi_one : virtwl_info :=
  {| vfds := {[ 1 := 100 ]};
     objs := {[ 100 := {| vfd_id := 1; vfd_flags := 4; vfd_pfn := 0; vfd_size := 0;
                          in_queue := [qentry_hi] |} ]};
     vq_in := vq_idle |}.

(** ** Cursors and queued payload *)

(** Both cursors of an entry have reached the totals its message
    declares: the handle count and the payload length. *)
Definition cursors_done `{virtio_wl_h} (qentry : virtwl_vfd_qentry) : Prop :=
  recv_vfd_count (hdr qentry) <= vfd_offset qentry /\
  data_len qentry <= data_offset qentry.

(** The payload bytes of an entry that no drain has copied yet. *)
Definition pending_bytes `{virtio_wl_h} (qentry : virtwl_vfd_qentry) : list Z :=
  if decide (hdr_type (hdr qentry) = VIRTIO_WL_CMD_VFD_RECV) then
    read_bytes (body (hdr qentry))
      (recv_vfd_count (hdr qentry) * sizeof_le32 + data_offset qentry)
      (data_len qentry - data_offset qentry)
  else [].

(** The payload bytes queued on a vfd, in arrival order. *)
Definition queued_bytes `{virtio_wl_h} (queue : list virtwl_vfd_qentry) : list Z :=
  flat_map pending_bytes queue.

(** What the types and the transport guarantee of an entry: the count and
    the cursor are unsigned, the length the host reported is a 32-bit
    value and lies within the buffer. *)
Definition wf_entry `{virtio_wl_h} (qentry : virtwl_vfd_qentry) : Prop :=
  0 <= recv_vfd_count (hdr qentry) /\
  0 <= data_offset qentry /\
  len qentry < 2 ^ 32 /\
  len qentry - sizeof_recv <= Z.of_nat (length (body (hdr qentry))).

(** How a drain leaves a queue.  [drained q kept rel]: every entry of [q]
    is found, in the order of [q], either in [kept], the entries that are
    still linked, or in [rel], the entries that were unlinked and freed.
    An entry is still linked as it was, or with its buffer and length and
    a cursor short of its total; an entry that was unlinked has its buffer
    and length, is a receive entry and has both cursors done. *)
Inductive drained `{virtio_wl_h}
  : list virtwl_vfd_qentry -> list virtwl_vfd_qentry -> list virtwl_vfd_qentry -> Prop :=
| drained_nil : drained [] [] []
| drained_untouched e q k r :
    drained q k r -> drained (e :: q) (e :: k) r
| drained_keep e e' q k r :
    hdr e' = hdr e -> len e' = len e -> ~ cursors_done e' ->
    drained q k r -> drained (e :: q) (e' :: k) r
| drained_release e e' q k r :
    hdr e' = hdr e -> len e' = len e ->
    hdr_type (hdr e) = VIRTIO_WL_CMD_VFD_RECV -> cursors_done e' ->
    drained q k r -> drained (e :: q) k (e' :: r).

(** Two in-queues that differ in the log at most. *)
Definition same_queue (vq vq' : virtqueue_in) : Prop :=
  inbufs vq' = inbufs vq /\ kicks vq' = kicks vq /\
  add_inbuf_results vq' = add_inbuf_results vq /\ kfreed vq' = kfreed vq.

(** A receive message for vfd 1 that carries neither payload nor
    handles: its length is that of the fixed part. *)
Definition msg_bare : inbuf :=
  {| hdr_type := VIRTIO_WL_CMD_VFD_RECV; msg_vfd_id := 1; recv_vfd_count := 0;
     body := []; new_flags := 0; new_pfn := 0; new_size := 0 |}.

Definition qentry_bare : virtwl_vfd_qentry :=
  {| hdr := msg_bare; len := 16; vfd_offset := 0; data_offset := 0 |}.

(** Reading of C1 at the two drains of a receive call: an entry that is
    still linked afterwards has a cursor short of its total, and the
    buffers of the entries that were unlinked are with the transport
    again. *)
Definition released_iff_done `{virtio_wl_h} (copy_ok : Z -> Z -> bool) (t : gmap Z Z)
    (queue : list virtwl_vfd_qentry) (vq : virtqueue_in) (len_ count : Z) : Prop :=
  let r := vfd_out_locked copy_ok queue vq len_ in
  let v := vfd_out_vfds_locked t (out_queue r) (out_vq r) count in
  Forall (fun e => ~ cursors_done e) (vr_queue v) /\
  inbufs (vr_vq v) = inbufs vq ++ map hdr (out_released r ++ vr_released v).

(** A receive message for vfd 1 carrying the handle id 1 and the three
    payload bytes 97, 98, 99. *)
Definition msg_abc : inbuf :=
  {| hdr_type := VIRTIO_WL_CMD_VFD_RECV; msg_vfd_id := 1; recv_vfd_count := 1;
     body := [1; 0; 0; 0; 97; 98; 99; 0]; new_flags := 0; new_pfn := 0; new_size := 0 |}.

Definition qentry_abc : virtwl_vfd_qentry :=
  {| hdr := msg_abc; len := 23; vfd_offset := 0; data_offset := 0 |}.

(** A user buffer every byte of which can be written. *)
Definition copy_always : Z -> Z -> bool := fun _ _ => true.





(** ** The rest of the driver

    The functions below complete the picture around the ones above: the
    work handler of the in-queue, the initial fill of the in-queue, poll,
    and send. *)

(** The handle table and the vfd memory agree: every id of the table
    points to an allocated vfd that carries this id. *)
Definition table_ok (vi : virtwl_info) : Prop :=
  forall id ptr, vfds vi !! id = Some ptr ->
    exists v, objs vi !! ptr = Some v /\ vfd_id v = id.




(** *** Poll *)

(** Event bits of include/uapi/asm-generic/poll.h. *)
Definition POLLIN : Z := 0x0001.
Definition POLLOUT : Z := 0x0004.
Definition POLLRDNORM : Z := 0x0040.
Definition POLLWRNORM : Z := 0x0100.

(** [virtwl_vfd_poll] (virtio_wl.c:642); [num_free] is
    [vi->vqs[VIRTWL_VQ_OUT]->num_free]. *)
Definition virtwl_vfd_poll (num_free : Z) (vfd : virtwl_vfd) : Z :=
  let mask := 0 in
  let mask := if negb (num_free =? 0) then Z.lor mask (Z.lor POLLOUT POLLWRNORM) else mask in
  let mask := match in_queue vfd with
              | [] => mask
              | _ :: _ => Z.lor mask (Z.lor POLLIN POLLRDNORM)
              end in
  mask.

(** *** The initial fill of the in-queue *)

(** The in-queue during [vq_fill_locked]: its free descriptors, the
    buffers it holds, the buffers that were passed to [kfree], and the
    lines printed. *)
Record fill_state : Type := {
  fill_num_free : nat;
  fill_queued : list Z;
  fill_freed : list Z;
  fill_printed : list printk_msg
}.

(** One turn of the loop as memory and transport decide it: what
    [kmalloc] returns ([None] for NULL) and what [virtqueue_add_inbuf]
    returns for the buffer. *)
Record fill_turn : Type := {
  kmalloc_res : option Z;
  add_inbuf_res : Z
}.

(** The label [clear_queue] of [vq_fill_locked] (virtio_wl.c:185):
    [virtqueue_detach_unused_buf] hands out every queued buffer and each
    is freed. *)
Definition clear_queue (st : fill_state) (ret : Z) : Z * fill_state :=
  (ret, {| fill_num_free := (fill_num_free st + length (fill_queued st))%nat;
           fill_queued := [];
           fill_freed := fill_freed st ++ fill_queued st;
           fill_printed := fill_printed st |}).

(** [vq_fill_locked] (virtio_wl.c:166), by recursion on the turns; a
    buffer that is added takes one descriptor, and a buffer that is
    refused makes [vq_return_inbuf_locked] print its line.  [None]: the
    turns given are used up and descriptors are still free. *)
Fixpoint vq_fill_locked (st : fill_state) (turns : list fill_turn)
  : option (Z * fill_state) :=
  match fill_num_free st with
  | O => Some (0, st)
  | S free' =>
    match turns with
    | [] => None
    | turn :: turns' =>
      match kmalloc_res turn with
      | None => Some (clear_queue st (- ENOMEM))
      | Some buffer =>
        if negb (add_inbuf_res turn =? 0) then
          Some (clear_queue
                  {| fill_num_free := fill_num_free st;
                     fill_queued := fill_queued st;
                     fill_freed := fill_freed st;
                     fill_printed :=
                       fill_printed st ++ [MsgGiveInbufFailed (add_inbuf_res turn)] |}
                  (add_inbuf_res turn))
        else
          vq_fill_locked {| fill_num_free := free';
                            fill_queued := fill_queued st ++ [buffer];
                            fill_freed := fill_freed st;
                            fill_printed := fill_printed st |} turns'
      end
    end
  end.

(** *** Send *)

Definition EBADFD : Z := 77.

(** An open file as [do_send] looks at it: whether [f_op] is
    [virtwl_vfd_fops], and [private_data] (the address of a vfd for such a
    file, [None] for NULL). *)
Record file : Type := {
  f_is_vfd : bool;
  private_data : option Z
}.

(** [struct virtio_wl_ctrl_vfd_send] with the ids and the data that follow
    it, as handed to the out-queue. *)
Record virtio_wl_ctrl_vfd_send : Type := {
  send_vfd_id : Z;
  send_vfd_ids : list Z;
  send_data : list Z
}.

(** The first loop of [do_send] (virtio_wl.c:709) over the entries of
    [vfd_fds] that are left: the error it stops with, or the vfds it
    collected. *)
Fixpoint send_collect (files : gmap Z file) (vi : virtwl_info) (fds : list Z)
  : outcome (Z + list Z) :=
  match fds with
  | [] => Done (inr [])
  | fd :: fds' =>
    if fd <? 0 then Done (inr [])
    else
      match files !! fd with
      | None => Done (inl (- EBADFD))
      | Some f =>
        if negb (f_is_vfd f) then Done (inl (- EINVAL))
        else
          match private_data f with
          | None => Done (inl (- EINVAL))
          | Some ptr =>
            match objs vi !! ptr with
            | None => Oops
            | Some v =>
              if vfd_id v =? 0 then Done (inl (- EINVAL))
              else
                match send_collect files vi fds' with
                | Done (inr vfds_) => Done (inr (ptr :: vfds_))
                | r => r
                end
            end
          end
      end
  end.

(** The ids [vfds[i]->id] stored into the message (virtio_wl.c:750). *)
Definition send_ids (vi : virtwl_info) (vfds_ : list Z) : list Z :=
  map (fun ptr => match objs vi !! ptr with Some v => vfd_id v | None => 0 end) vfds_.

Record send_result : Type := {
  send_ret : Z;
  send_msg : option virtio_wl_ctrl_vfd_send;  (* the message given to vq_queue_out *)
  send_evs : list event
}.

(** [do_send] (virtio_wl.c:690) from the vfd [vfd].  [max_allocs] is
    [VIRTWL_SEND_MAX_ALLOCS], the size of the array [vfd_fds] points to
    ([None] for a NULL pointer); [user] is the memory at [buffer] and
    [copy_ok] tells whether [copy_from_user] succeeds; [kz_ok]: [kzalloc]
    of the message succeeds; [ack] is the type the host has written into
    the header when the completion fires; [uninit] is the value of the
    local [ret], which has no initializer and is returned unassigned when
    [copy_from_user] fails. *)
Definition do_send (max_allocs : Z) (files : gmap Z file) (vi : virtwl_info)
    (vfd : virtwl_vfd) (user : list Z) (copy_ok : bool) (len_ : Z)
    (vfd_fds : option (list Z)) (nonblock : bool) (kz_ok : bool)
    (script : list out_attempt) (ack : virtio_wl_ctrl_type) (uninit : Z)
  : option (outcome send_result) :=
  let collected :=
    match vfd_fds with
    | None => Done (inr [])
    | Some fds => send_collect files vi (take (Z.to_nat max_allocs) fds)
    end in
  match collected with
  | Oops => Some Oops
  | Done (inl ret) => Some (Done {| send_ret := ret; send_msg := None; send_evs := [] |})
  | Done (inr vfds_) =>
    if negb kz_ok then
      Some (Done {| send_ret := - ENOMEM; send_msg := None; send_evs := [] |})
    else
      let ctrl_send := {| send_vfd_id := vfd_id vfd;
                          send_vfd_ids := send_ids vi vfds_;
                          send_data := take (Z.to_nat len_) user |} in
      if negb copy_ok then
        Some (Done {| send_ret := uninit; send_msg := None; send_evs := [] |})
      else
        match vq_queue_out nonblock script with
        | None => None
        | Some (ret, evs) =>
          if negb (ret =? 0) then
            Some (Done {| send_ret := ret; send_msg := Some ctrl_send; send_evs := evs |})
          else
            Some (Done {| send_ret := virtwl_resp_err ack; send_msg := Some ctrl_send;
                          send_evs := evs ++ [EvCompletion] |})
        end
  end.

(** The upstream header values with room for a single guest id. *)
Definition one_id_h : virtio_wl_h :=
  {| sizeof_recv := 16;
     VIRTIO_WL_VFD_WRITE := 1;
     VIRTIO_WL_VFD_MAP := 2;
     VIRTIO_WL_VFD_CONTROL := 4;
     VIRTWL_MAX_ALLOC := 2;
     PAGE_SHIFT := 12;
     VM_WRITE := 2 |}.

(** What an operation on the pending queue of the vfd at [addr] may
    change: the table is the same, the same vfds are allocated with the
    same id, flags, pfn and size, and the pending queues of the other
    vfds are the same. *)
Definition queue_frame (addr : Z) (vi vi' : virtwl_info) : Prop :=
  vfds vi' = vfds vi /\
  forall p,
    match objs vi !! p, objs vi' !! p with
    | Some v, Some v' =>
      vfd_id v' = vfd_id v /\ vfd_flags v' = vfd_flags v /\
      vfd_pfn v' = vfd_pfn v /\ vfd_size v' = vfd_size v /\
      (p <> addr -> in_queue v' = in_queue v)
    | None, None => True
    | _, _ => False
    end.

(** The device [vi_one] with nothing pending on its vfd. *)
Definition vi_idle : virtwl_info :=
  {| vfds := {[ 1 := 100 ]};
     objs := {[ 100 := {| vfd_id := 1; vfd_flags := 4; vfd_pfn := 0; vfd_size := 0;
                          in_queue := [] |} ]};
     vq_in := vq_idle |}.

(** A file descriptor that [do_send] accepts as a reference: it is open,
    its file is a vfd file, and the vfd behind it is allocated and has an
    id other than 0. *)
Definition good_fd (files : gmap Z file) (vi : virtwl_info) (fd : Z) : Prop :=
  0 <= fd /\
  exists f ptr v,
    files !! fd = Some f /\ f_is_vfd f = true /\ private_data f = Some ptr /\
    objs vi !! ptr = Some v /\ vfd_id v <> 0.

(** The id of the vfd behind a file descriptor. *)
Definition fd_vfd_id (files : gmap Z file) (vi : virtwl_info) (fd : Z) : Z :=
  match files !! fd with
  | Some {| private_data := Some ptr |} =>
    match objs vi !! ptr with Some v => vfd_id v | None => 0 end
  | _ => 0
  end.

(** The address of the vfd behind a file descriptor. *)
Definition fd_vfd (files : gmap Z file) (fd : Z) : Z :=
  match files !! fd with
  | Some {| private_data := Some ptr |} => ptr
  | _ => 0
  end.

(** The open files of a process: descriptor 3 is the vfd at address 100,
    descriptor 4 is the device file itself. *)
Definition files_one : gmap Z file :=
  {[ 3 := {| f_is_vfd := true; private_data := Some 100 |};
     4 := {| f_is_vfd := false; private_data := Some 0 |} ]}.

(** A receive message for vfd 1 that carries no payload and the handle id
    1, the id of the vfd of [vi_one] and [vi_idle]. *)
Definition msg_ctx : inbuf :=
  {| hdr_type := VIRTIO_WL_CMD_VFD_RECV; msg_vfd_id := 1; recv_vfd_count := 1;
     body := [1; 0; 0; 0]; new_flags := 0; new_pfn := 0; new_size := 0 |}.

(** What the tail of [vq_dispatch_hdr] (virtio_wl.c:290) makes of the
    in-queue [vq] when it hands the buffer [b] back: the transport takes
    the buffer, or it refuses it with an error, and then the two lines are
    printed and the buffer is freed. *)
Definition handed_back (vq : virtqueue_in) (b : inbuf) (vq' : virtqueue_in) : Prop :=
  let ret := hd 0 (add_inbuf_results vq) in
  add_inbuf_results vq' = tl (add_inbuf_results vq) /\
  kicks vq' = kicks vq /\
  if ret =? 0 then
    inbufs vq' = inbufs vq ++ [b] /\ kfreed vq' = kfreed vq /\ printed vq' = printed vq
  else
    inbufs vq' = inbufs vq /\ kfreed vq' = kfreed vq ++ [b] /\
    printed vq' = printed vq ++ [MsgGiveInbufFailed ret; MsgReturnInbufFailed ret].

(** Of the buffers that go through [vq_return_inbuf_locked] one after the
    other, those the transport takes, given what it answers to the calls
    of [virtqueue_add_inbuf]. *)
Fixpoint accepted (bufs : list inbuf) (results : list Z) : list inbuf :=
  match bufs with
  | [] => []
  | b :: bufs' =>
    (if hd 0 results =? 0 then [b] else []) ++ accepted bufs' (tl results)
  end.

(** The lines [vq_return_inbuf_locked] prints for those it refuses. *)
Fixpoint refusals (bufs : list inbuf) (results : list Z) : list printk_msg :=
  match bufs with
  | [] => []
  | b :: bufs' =>
    (if hd 0 results =? 0 then [] else [MsgGiveInbufFailed (hd 0 results)])
    ++ refusals bufs' (tl results)
  end.

(** What the releases of a drain make of the in-queue [vq], the log
    apart: the buffers of the released entries went through
    [vq_return_inbuf_locked] in order, the transport took those it
    accepted, and each release kicked the host. *)
Definition gave_back (vq : virtqueue_in) (released : list virtwl_vfd_qentry)
    (vq' : virtqueue_in) : Prop :=
  inbufs vq' = inbufs vq ++ accepted (map hdr released) (add_inbuf_results vq) /\
  add_inbuf_results vq' = drop (length released) (add_inbuf_results vq) /\
  kicks vq' = (kicks vq + length released)%nat /\
  kfreed vq' = kfreed vq.

(** An entry that has nothing left to read: the handle cursor is at the
    declared count and the byte cursor at the declared payload length or
    beyond. *)
Definition nothing_to_read `{virtio_wl_h} (e : virtwl_vfd_qentry) : Prop :=
  vfd_offset e = recv_vfd_count (hdr e) /\ data_len e <= data_offset e.

(** Reading of C2: a receive call with the given destination capacity
    returns exactly that many bytes. *)
Definition recv_returns_capacity `{virtio_wl_h} (vi : virtwl_info) (addr : Z)
    (nonblock : bool) (copy_ok : Z -> Z -> bool) (cap : Z) (have_vfds : bool) (count : Z)
    (script : list recv_wait) : Prop :=
  exists fuel vi' data vf,
    virtwl_vfd_recv fuel vi addr nonblock copy_ok cap have_vfds count script
    = Some (Done (vi', RecvOk cap data vf)).


(** * Properties *)

(** ** Machine integers *)

Lemma u32_small z : is_u32 z -> u32 z = z.
Proof. unfold is_u32, u32. intros. apply Z.mod_small. lia. Qed.

Lemma u64_small z : is_u64 z -> u64 z = z.
Proof. unfold is_u64, u64. intros. apply Z.mod_small. lia. Qed.

(** ** Host acknowledgments: [virtwl_resp_err] *)

(** C8, as stated, fails: the unknown-handle and the unknown-type
    acknowledgments are different failure codes of the host and both map
    to [-EINVAL]. *)
Lemma resp_err_invalid_id_type_collide :
  ~ resp_err_distinct_at VIRTIO_WL_RESP_INVALID_ID VIRTIO_WL_RESP_INVALID_TYPE.
Proof.
  unfold resp_err_distinct_at. intros Hc.
  apply Hc; [reflexivity | reflexivity | discriminate | reflexivity].
Qed.

(** C8, amended: a success acknowledgment maps to 0; the device-unreliable
    acknowledgment maps to [-ENODEV], out-of-memory to [-ENOMEM], unknown
    handle and unknown type both to [-EINVAL]; every failure maps to a
    negative value, and two failure acknowledgments map to the same value
    exactly when they are equal or are the unknown-handle/unknown-type
    pair. *)
Theorem virtwl_resp_err_classes (t1 t2 : virtio_wl_ctrl_type) :
  host_failure t1 = true -> host_failure t2 = true ->
  (host_success t1 = false /\ virtwl_resp_err t1 < 0) /\
  virtwl_resp_err VIRTIO_WL_RESP_OK = 0 /\
  virtwl_resp_err VIRTIO_WL_RESP_VFD_NEW = 0 /\
  virtwl_resp_err VIRTIO_WL_RESP_ERR = - ENODEV /\
  virtwl_resp_err VIRTIO_WL_RESP_OUT_OF_MEMORY = - ENOMEM /\
  virtwl_resp_err VIRTIO_WL_RESP_INVALID_ID = - EINVAL /\
  virtwl_resp_err VIRTIO_WL_RESP_INVALID_TYPE = - EINVAL /\
  (virtwl_resp_err t1 = virtwl_resp_err t2 <->
   t1 = t2 \/
   (t1 = VIRTIO_WL_RESP_INVALID_ID /\ t2 = VIRTIO_WL_RESP_INVALID_TYPE) \/
   (t1 = VIRTIO_WL_RESP_INVALID_TYPE /\ t2 = VIRTIO_WL_RESP_INVALID_ID)).
Proof.
  intros H1 H2.
  destruct t1; try discriminate H1; destruct t2; try discriminate H2;
    cbn; unfold ENODEV, ENOMEM, EINVAL;
    (repeat split; try lia; try reflexivity;
     try (intros; discriminate);
     try (intros _; tauto);
     try (intros [E | [[E1 E2] | [E1 E2]]]; discriminate)).
Qed.

Lemma virtwl_resp_err_classes_witness :
  host_failure VIRTIO_WL_RESP_ERR = true /\
  (virtwl_resp_err VIRTIO_WL_RESP_ERR = virtwl_resp_err VIRTIO_WL_RESP_OUT_OF_MEMORY <->
   VIRTIO_WL_RESP_ERR = VIRTIO_WL_RESP_OUT_OF_MEMORY \/
   (VIRTIO_WL_RESP_ERR = VIRTIO_WL_RESP_INVALID_ID /\
    VIRTIO_WL_RESP_OUT_OF_MEMORY = VIRTIO_WL_RESP_INVALID_TYPE) \/
   (VIRTIO_WL_RESP_ERR = VIRTIO_WL_RESP_INVALID_TYPE /\
    VIRTIO_WL_RESP_OUT_OF_MEMORY = VIRTIO_WL_RESP_INVALID_ID)).
Proof.
  split; [reflexivity |].
  apply (virtwl_resp_err_classes VIRTIO_WL_RESP_ERR VIRTIO_WL_RESP_OUT_OF_MEMORY);
    reflexivity.
Defined.

(** ** Mapping: [virtwl_vfd_mmap] *)

Lemma PAGE_ALIGN_upstream_4096 : @PAGE_ALIGN upstream_h 4096 = 4096.
Proof. reflexivity. Qed.




(** ** The handle table *)

Lemma idr_scan_spec (fuel : nat) (t : gmap Z Z) (i max r : Z) :
  idr_scan fuel t i max = Some r -> i <= r <= max /\ t !! r = None.
Proof.
  revert i. induction fuel as [|fuel IH]; intros i; cbn [idr_scan]; [discriminate|].
  destruct (max <? i) eqn:Em; [discriminate|].
  apply Z.ltb_ge in Em.
  destruct (t !! i) eqn:Et.
  - intros Hs. apply IH in Hs. split; [lia | tauto].
  - intros [= <-]. split; [lia | assumption].
Qed.

Lemma idr_alloc_spec (t t' : gmap Z Z) (ptr start end_ ret : Z) :
  idr_alloc t ptr start end_ = (t', ret) ->
  (0 <= start <= ret /\ t' = <[ret := ptr]> t /\ t !! ret = None /\
   ret <= (if 0 <? end_ then end_ - 1 else INT_MAX))
  \/ (ret < 0 /\ t' = t).
Proof.
  unfold idr_alloc.
  destruct (start <? 0) eqn:Es.
  - intros [= <- <-]. right. split; reflexivity.
  - apply Z.ltb_ge in Es.
    destruct (idr_scan _ t start _) as [r|] eqn:Escan.
    + intros [= <- <-]. apply idr_scan_spec in Escan as [Hr Hn].
      left. repeat split; try assumption; lia.
    + intros [= <- <-]. right. split; reflexivity.
Qed.

(** The search of [idr_alloc] looks at the table at and above its
    starting point only. *)
Lemma idr_scan_ext (fuel : nat) (t1 t2 : gmap Z Z) (i max : Z) :
  (forall j, i <= j -> t1 !! j = t2 !! j) ->
  idr_scan fuel t1 i max = idr_scan fuel t2 i max.
Proof.
  revert i. induction fuel as [|fuel IH]; intros i Hagree; cbn [idr_scan]; [reflexivity|].
  destruct (max <? i); [reflexivity|].
  rewrite <- (Hagree i) by lia.
  destruct (t1 !! i); [|reflexivity].
  apply IH. intros j Hj. apply Hagree. lia.
Qed.

(** The probes allotted to the search suffice: it fails only on a range
    that is full. *)
Lemma idr_scan_complete (fuel : nat) (t : gmap Z Z) (i max : Z) :
  (size t < fuel)%nat ->
  idr_scan fuel t i max = None ->
  forall j, i <= j <= max -> t !! j <> None.
Proof.
  revert t i. induction fuel as [|fuel IH]; intros t i Hsz; [lia|].
  cbn [idr_scan]. destruct (max <? i) eqn:Em.
  { apply Z.ltb_lt in Em. intros _ j Hj. lia. }
  destruct (t !! i) as [p|] eqn:Et; [|discriminate].
  intros Hs j Hj.
  destruct (Z.eq_dec j i) as [->|Hne]; [congruence|].
  rewrite (idr_scan_ext fuel t (delete i t)) in Hs.
  2:{ intros k Hk. symmetry. apply lookup_delete_ne. lia. }
  assert (Hsz' : (size (delete i t) < fuel)%nat).
  { rewrite map_size_delete, Et. destruct (size t) eqn:Es; [|lia].
    apply map_size_empty_inv in Es. subst t. rewrite lookup_empty in Et. discriminate. }
  specialize (IH (delete i t) (i + 1) Hsz' Hs j ltac:(lia)).
  rewrite lookup_delete_ne in IH by lia. exact IH.
Qed.

(** [idr_alloc] gives out the smallest free id of the range. *)
Lemma idr_scan_smallest (fuel : nat) (t : gmap Z Z) (i max r : Z) :
  idr_scan fuel t i max = Some r -> forall j, i <= j < r -> t !! j <> None.
Proof.
  revert i. induction fuel as [|fuel IH]; intros i; cbn [idr_scan]; [discriminate|].
  destruct (max <? i); [discriminate|].
  destruct (t !! i) eqn:Et.
  - intros Hs j Hj. destruct (Z.eq_dec j i) as [->|Hne]; [congruence|].
    apply (IH (i + 1) Hs). lia.
  - intros [= <-] j Hj. lia.
Qed.

Lemma idr_alloc_complete (t : gmap Z Z) (ptr start end_ j : Z) :
  0 <= start -> 0 < end_ -> start <= j < end_ -> t !! j = None ->
  exists id, idr_alloc t ptr start end_ = (<[id := ptr]> t, id) /\
             start <= id <= j /\ t !! id = None /\
             forall k, start <= k < id -> t !! k <> None.
Proof.
  intros Hs He Hj Hfree. unfold idr_alloc.
  assert (Es : (start <? 0) = false) by (apply Z.ltb_ge; lia).
  assert (Ee : (0 <? end_) = true) by (apply Z.ltb_lt; lia).
  rewrite Es, Ee.
  destruct (idr_scan (S (size t)) t start (end_ - 1)) as [r|] eqn:Escan.
  - exists r. split; [reflexivity|].
    pose proof (idr_scan_spec _ _ _ _ _ Escan) as [Hr Hn].
    pose proof (idr_scan_smallest _ _ _ _ _ Escan) as Hsm.
    split; [|split; [exact Hn | exact Hsm]].
    split; [lia|]. destruct (Z_le_gt_dec r j) as [|Hgt]; [assumption|].
    exfalso. apply (Hsm j); [lia | exact Hfree].
  - exfalso. apply (idr_scan_complete _ _ _ _ (Nat.lt_succ_diag_r _) Escan j); [lia|].
    exact Hfree.
Qed.

(** ** The inbound dispatcher: host-pushed new handles *)

Lemma valid_host_id_test (id : Z) :
  (Z.land id VFD_HOST_VFD_ID_BIT =? 0) || negb (Z.land id VFD_ILLEGAL_SIGN_BIT =? 0) = false
  <-> valid_host_id id.
Proof.
  unfold valid_host_id. rewrite orb_false_iff, negb_false_iff, Z.eqb_neq, Z.eqb_eq.
  reflexivity.
Qed.

(** What [vq_return_inbuf_locked] does, by what the transport answers. *)
Lemma vq_return_inbuf_locked_spec (vq : virtqueue_in) (b : inbuf) :
  let ret := hd 0 (add_inbuf_results vq) in
  let vq' := fst (vq_return_inbuf_locked vq b) in
  snd (vq_return_inbuf_locked vq b) = ret /\
  add_inbuf_results vq' = tl (add_inbuf_results vq) /\
  kicks vq' = kicks vq /\ kfreed vq' = kfreed vq /\
  inbufs vq' = inbufs vq ++ (if ret =? 0 then [b] else []) /\
  printed vq' = printed vq ++ (if ret =? 0 then [] else [MsgGiveInbufFailed ret]).
Proof.
  unfold vq_return_inbuf_locked, virtqueue_add_inbuf. cbn.
  destruct (hd 0 (add_inbuf_results vq) =? 0) eqn:E; cbn; rewrite ?E; cbn.
  - apply Z.eqb_eq in E. rewrite !app_nil_r. auto 7.
  - rewrite app_nil_r. auto 7.
Qed.

(** The tail of [vq_dispatch_hdr]. *)
Lemma vq_dispatch_tail (v : virtwl_info) (hdr_ : inbuf) :
  exists vq',
    (let '(vq, ret) := vq_return_inbuf_locked (vq_in v) hdr_ in
     if negb (ret =? 0) then
       Done (set_vq_in v (kfree_inbuf (vq_printk vq (MsgReturnInbufFailed ret)) hdr_), true)
     else Done (set_vq_in v vq, true)) = Done (set_vq_in v vq', true) /\
    handed_back (vq_in v) hdr_ vq'.
Proof.
  unfold handed_back, vq_return_inbuf_locked, virtqueue_add_inbuf. cbn.
  destruct (hd 0 (add_inbuf_results (vq_in v)) =? 0) eqn:E; cbn; rewrite ?E; cbn.
  - eexists. split; [reflexivity|]. cbn. auto.
  - eexists. split; [reflexivity|]. cbn. rewrite <- app_assoc. auto 6.
Qed.

(** Replaces the tail of [vq_dispatch_hdr] in the goal by its result. *)
Ltac dispatch_tail :=
  match goal with
  | |- context [vq_return_inbuf_locked (vq_in ?v) ?h] =>
    let vq' := fresh "vq'" in
    destruct (vq_dispatch_tail v h) as (vq' & -> & _)
  end.

(** What the dispatcher does with a new-handle message whose id fails the
    origin test: an id other than 0 is logged; the buffer is handed
    back. *)
Lemma vq_dispatch_new_rejected (vi : virtwl_info) (kz : option Z) (len_ : Z) (hdr_ : inbuf) :
  hdr_type hdr_ = VIRTIO_WL_CMD_VFD_NEW ->
  ~ valid_host_id (msg_vfd_id hdr_) ->
  exists vi',
    vq_dispatch_hdr vi kz len_ hdr_ = Done (vi', true) /\
    vfds vi' = vfds vi /\ objs vi' = objs vi /\
    handed_back
      (if msg_vfd_id hdr_ =? 0 then vq_in vi
       else vq_printk (vq_in vi) (MsgInvalidId (msg_vfd_id hdr_)))
      hdr_ (vq_in vi').
Proof.
  intros Ht Hinv. unfold vq_dispatch_hdr, vq_handle_new. rewrite Ht.
  destruct (msg_vfd_id hdr_ =? 0) eqn:E0.
  - destruct (vq_dispatch_tail vi hdr_) as (vq' & -> & Hb).
    eexists. split; [reflexivity|]. cbn. auto.
  - destruct (_ || _) eqn:Ev.
    + destruct (vq_dispatch_tail (printk vi (MsgInvalidId (msg_vfd_id hdr_))) hdr_)
        as (vq' & -> & Hb).
      eexists. split; [reflexivity|]. cbn. auto.
    + apply valid_host_id_test in Ev. contradiction.
Qed.

(** C10, as stated, fails when the transport refuses the buffer: the
    buffer of the id-0 message is then not returned to the transport. *)
Lemma id_zero_refused_not_returned :
  ~ id_zero_is_returned vi_refusing (Some 7) 32 (push_new 0).
Proof.
  unfold id_zero_is_returned. intros Hc.
  destruct Hc as (vi' & Hd & _ & _ & Hb & _); [reflexivity | reflexivity |].
  vm_compute in Hd. injection Hd as <-. discriminate Hb.
Qed.

(** C10, amended: a pushed new-handle message with id 0 is dropped without
    an invalid-id line: no vfd is allocated or registered, and the buffer
    is handed back to the in-queue, which takes it, or else refuses it,
    and then the refusal is logged twice and the buffer is freed; any
    other id that fails the origin test adds the invalid-id line to the
    log before the buffer is handed back. *)
Theorem vq_handle_new_id_zero_silent (vi : virtwl_info) (kz : option Z) (len_ : Z)
    (hdr_ : inbuf) :
  hdr_type hdr_ = VIRTIO_WL_CMD_VFD_NEW ->
  msg_vfd_id hdr_ = 0 ->
  (exists vi',
     vq_dispatch_hdr vi kz len_ hdr_ = Done (vi', true) /\
     vfds vi' = vfds vi /\ objs vi' = objs vi /\
     handed_back (vq_in vi) hdr_ (vq_in vi') /\
     (forall id, In (MsgInvalidId id) (klog vi') -> In (MsgInvalidId id) (klog vi))) /\
  (forall other : inbuf,
     hdr_type other = VIRTIO_WL_CMD_VFD_NEW ->
     msg_vfd_id other <> 0 -> ~ valid_host_id (msg_vfd_id other) ->
     exists vi',
       vq_dispatch_hdr vi kz len_ other = Done (vi', true) /\
       handed_back (vq_printk (vq_in vi) (MsgInvalidId (msg_vfd_id other)))
         other (vq_in vi') /\
       In (MsgInvalidId (msg_vfd_id other)) (klog vi')).
Proof.
  intros Ht Hz. split.
  - assert (Hinv : ~ valid_host_id (msg_vfd_id hdr_)).
    { rewrite Hz. intros [Hb _]. apply Hb. reflexivity. }
    destruct (vq_dispatch_new_rejected vi kz len_ hdr_ Ht Hinv)
      as (vi' & Hd & Hv & Ho & Hb).
    exists vi'. rewrite Hz in Hb. cbn [Z.eqb] in Hb.
    split; [exact Hd|]. split; [exact Hv|]. split; [exact Ho|]. split; [exact Hb|].
    intros id. unfold klog. destruct Hb as (_ & _ & Hb).
    destruct (_ =? 0).
    + destruct Hb as (_ & _ & ->). auto.
    + destruct Hb as (_ & _ & ->). rewrite in_app_iff. intros [Hi|Hi]; [exact Hi|].
      cbn in Hi. destruct Hi as [Hi|[Hi|[]]]; discriminate Hi.
  - intros other Hto Hnz Hinv.
    destruct (vq_dispatch_new_rejected vi kz len_ other Hto Hinv)
      as (vi' & Hd & _ & _ & Hb).
    exists vi'. apply Z.eqb_neq in Hnz. rewrite Hnz in Hb.
    split; [exact Hd|]. split; [exact Hb|].
    unfold klog. destruct Hb as (_ & _ & Hb). cbn [add_inbuf_results vq_printk] in Hb.
    destruct (hd 0 (add_inbuf_results (vq_in vi)) =? 0);
      destruct Hb as (_ & _ & ->); cbn [printed vq_printk];
      rewrite ?in_app_iff; cbn; auto.
Qed.

Lemma vq_handle_new_id_zero_silent_witness :
  hdr_type (push_new 0) = VIRTIO_WL_CMD_VFD_NEW /\
  msg_vfd_id (push_new 0) = 0 /\
  (exists vi',
     vq_dispatch_hdr vi_empty (Some 7) 32 (push_new 0) = Done (vi', true) /\
     vfds vi' = vfds vi_empty /\ inbufs (vq_in vi') = [push_new 0] /\
     klog vi' = []) /\
  (exists vi',
     vq_dispatch_hdr vi_refusing (Some 7) 32 (push_new 0) = Done (vi', true) /\
     vfds vi' = vfds vi_refusing /\ inbufs (vq_in vi') = [] /\
     kfreed (vq_in vi') = [push_new 0] /\
     klog vi' = [MsgGiveInbufFailed (- EIO); MsgReturnInbufFailed (- EIO)]).
Proof.
  split; [reflexivity|]. split; [reflexivity|]. split.
  - destruct (vq_handle_new_id_zero_silent vi_empty (Some 7) 32 (push_new 0)
                eq_refl eq_refl) as ((vi' & Hd & Hv & _ & Hb & _) & _).
    exists vi'. destruct Hb as (_ & _ & Hi & _ & Hp). auto.
  - destruct (vq_handle_new_id_zero_silent vi_refusing (Some 7) 32 (push_new 0)
                eq_refl eq_refl) as ((vi' & Hd & Hv & _ & Hb & _) & _).
    exists vi'. destruct Hb as (_ & _ & Hi & Hf & Hp). auto 6.
Defined.

(** C6, as stated, fails at id 0: the message fails the origin test and is
    discarded, and it is not logged; on a transport that refuses the
    buffer, the buffer is not returned either. *)
Lemma rejected_new_id_zero_not_logged :
  ~ rejected_new_is_logged vi_empty (Some 7) 32 (push_new 0) /\
  ~ rejected_new_is_logged vi_refusing (Some 7) 32 (push_new 0).
Proof.
  unfold rejected_new_is_logged. split; intros Hc.
  - destruct Hc as (vi' & Hd & _ & _ & Hl).
    + reflexivity.
    + intros [Hb _]. apply Hb. reflexivity.
    + vm_compute in Hd. injection Hd as <-. destruct Hl.
  - destruct Hc as (vi' & Hd & _ & Hb & _).
    + reflexivity.
    + intros [Hb _]. apply Hb. reflexivity.
    + vm_compute in Hd. injection Hd as <-. discriminate Hb.
Qed.

(** Where the buffer is after it was handed back, for a queue that
    differs from [vq0] in the log at most. *)
Lemma handed_back_fields (vq0 vq vq' : virtqueue_in) (b : inbuf) :
  same_queue vq0 vq -> handed_back vq b vq' ->
  let ret := hd 0 (add_inbuf_results vq0) in
  inbufs vq' = inbufs vq0 ++ (if ret =? 0 then [b] else []) /\
  kfreed vq' = kfreed vq0 ++ (if ret =? 0 then [] else [b]) /\
  (ret <> 0 -> In (MsgReturnInbufFailed ret) (printed vq')).
Proof.
  intros (Hi & _ & Hr & Hf) (_ & _ & Hb). rewrite Hr, Hi, Hf in Hb. cbn zeta.
  destruct (hd 0 (add_inbuf_results vq0) =? 0) eqn:E.
  - destruct Hb as (-> & -> & _). rewrite app_nil_r. apply Z.eqb_eq in E.
    split; [reflexivity|]. split; [reflexivity|]. intros Hne. contradiction.
  - destruct Hb as (-> & -> & ->). rewrite app_nil_r.
    split; [reflexivity|]. split; [reflexivity|]. intros _.
    rewrite in_app_iff. right. cbn. auto.
Qed.

Lemma same_queue_refl (vq : virtqueue_in) : same_queue vq vq.
Proof. unfold same_queue. auto. Qed.

Lemma same_queue_printk (vq vq' : virtqueue_in) (m : printk_msg) :
  same_queue vq vq' -> same_queue vq (vq_printk vq' m).
Proof. unfold same_queue. cbn. auto. Qed.

Lemma same_queue_trans (vq1 vq2 vq3 : virtqueue_in) :
  same_queue vq1 vq2 -> same_queue vq2 vq3 -> same_queue vq1 vq3.
Proof.
  unfold same_queue. intros (-> & -> & -> & ->) (-> & -> & -> & ->). auto.
Qed.

(** C6, amended: the dispatcher hands back the buffer of every new-handle
    message it finishes with, and the in-queue takes the buffer, or else
    refuses it, and then the refusal is logged and the buffer is freed;
    when the handle table changes, the id passed the origin test and the
    table gained exactly the binding of that id to the new vfd, which
    carries the id, size, pfn and flags of the message; a message that
    fails the origin test leaves table and vfds alone and is logged as an
    invalid id unless the id is 0. *)
Theorem vq_handle_new_validation (vi : virtwl_info) (kz : option Z) (len_ : Z)
    (hdr_ : inbuf) :
  hdr_type hdr_ = VIRTIO_WL_CMD_VFD_NEW ->
  is_u32 (msg_vfd_id hdr_) ->
  (forall vi' b,
     vq_dispatch_hdr vi kz len_ hdr_ = Done (vi', b) ->
     b = true /\
     (let ret := hd 0 (add_inbuf_results (vq_in vi)) in
      inbufs (vq_in vi') = inbufs (vq_in vi) ++ (if ret =? 0 then [hdr_] else []) /\
      kfreed (vq_in vi') = kfreed (vq_in vi) ++ (if ret =? 0 then [] else [hdr_]) /\
      (ret <> 0 -> In (MsgReturnInbufFailed ret) (klog vi'))) /\
     (vfds vi' <> vfds vi ->
      valid_host_id (msg_vfd_id hdr_) /\
      vfds vi !! msg_vfd_id hdr_ = None /\
      exists addr,
        kz = Some addr /\
        vfds vi' = <[msg_vfd_id hdr_ := addr]> (vfds vi) /\
        objs vi' !! addr =
          Some {| vfd_id := msg_vfd_id hdr_; vfd_flags := new_flags hdr_;
                  vfd_pfn := new_pfn hdr_; vfd_size := new_size hdr_;
                  in_queue := [] |})) /\
  (~ valid_host_id (msg_vfd_id hdr_) ->
   exists vi',
     vq_dispatch_hdr vi kz len_ hdr_ = Done (vi', true) /\
     vfds vi' = vfds vi /\ objs vi' = objs vi /\
     handed_back
       (if msg_vfd_id hdr_ =? 0 then vq_in vi
        else vq_printk (vq_in vi) (MsgInvalidId (msg_vfd_id hdr_)))
       hdr_ (vq_in vi')).
Proof.
  intros Ht Hu. split.
  2:{ intros Hinv. apply (vq_dispatch_new_rejected vi kz len_ hdr_ Ht Hinv). }
  intros vi' b. unfold vq_dispatch_hdr, vq_handle_new. rewrite Ht.
  set (id := msg_vfd_id hdr_). fold id in Hu. unfold is_u32 in Hu.
  destruct (id =? 0) eqn:E0.
  { destruct (vq_dispatch_tail vi hdr_) as (vq' & -> & Hb).
    intros [= <- <-]. cbn [vq_in vfds set_vq_in]. unfold klog.
    split; [reflexivity|].
    split; [exact (handed_back_fields _ _ _ _ (same_queue_refl _) Hb)|].
    intros Hne. now destruct Hne. }
  destruct (_ || _) eqn:Ev.
  { destruct (vq_dispatch_tail (printk vi (MsgInvalidId id)) hdr_) as (vq' & -> & Hb).
    intros [= <- <-]. cbn [vq_in vfds set_vq_in printk]. unfold klog.
    split; [reflexivity|].
    split; [exact (handed_back_fields _ _ _ _
                     (same_queue_printk _ _ _ (same_queue_refl _)) Hb)|].
    intros Hne. now destruct Hne. }
  apply valid_host_id_test in Ev.
  destruct kz as [addr|]; [|discriminate].
  destruct (idr_alloc _ addr _ _) as [t ret] eqn:Ea.
  apply idr_alloc_spec in Ea. cbn [vfds virtwl_vfd_alloc set_objs] in Ea.
  destruct (ret <=? 0) eqn:Er.
  - match goal with
    | |- context [vq_return_inbuf_locked (vq_in ?v) hdr_] =>
      destruct (vq_dispatch_tail v hdr_) as (vq' & -> & Hb)
    end.
    intros [= <- <-]. unfold klog.
    cbn [vq_in vfds objs set_vq_in printk virtwl_vfd_free virtwl_vfd_alloc set_objs set_vfds]
      in Hb |- *.
    split; [reflexivity|].
    split; [exact (handed_back_fields _ _ _ _
                     (same_queue_printk _ _ _ (same_queue_refl _)) Hb)|].
    intros Hne. exfalso. apply Z.leb_le in Er.
    destruct Ea as [(Hs & Ht' & Hn & Hmax) | (_ & Et)]; [|subst t; now apply Hne].
    assert (Ei : int_of_u32 id = 0) by lia.
    apply Z.eqb_neq in E0. unfold int_of_u32 in Ei.
    destruct (id <? 2 ^ 31) eqn:El; [lia|].
    lia.
  - match goal with
    | |- context [vq_return_inbuf_locked (vq_in ?v) hdr_] =>
      destruct (vq_dispatch_tail v hdr_) as (vq' & -> & Hb)
    end.
    intros [= <- <-]. unfold klog.
    cbn [vq_in vfds objs set_vq_in printk virtwl_vfd_free virtwl_vfd_alloc set_objs set_vfds]
      in Hb |- *.
    apply Z.leb_gt in Er.
    split; [reflexivity|].
    split; [exact (handed_back_fields _ _ _ _ (same_queue_refl _) Hb)|].
    intros Hne.
    destruct Ea as [(Hs & Ht' & Hn & Hmax) | (Hneg & _)]; [|lia].
    assert (Hid : ret = id).
    { revert Hs Hmax. unfold int_of_u32, u32, INT_MAX.
      destruct (id <? 2 ^ 31) eqn:El; [|lia].
      apply Z.ltb_lt in El. intros Hs.
      assert (0 <= id) by lia.
      rewrite Z.mod_small by lia.
      destruct (id + 1 <? 2 ^ 31) eqn:El2.
      - apply Z.ltb_lt in El2.
        assert (E1 : (0 <? id + 1) = true) by (apply Z.ltb_lt; lia).
        rewrite E1. lia.
      - apply Z.ltb_ge in El2.
        assert (E1 : (0 <? id + 1 - 2 ^ 32) = false) by (apply Z.ltb_ge; lia).
        rewrite E1. lia. }
    subst ret. split; [exact Ev|]. split; [exact Hn|].
    exists addr. split; [reflexivity|]. split; [exact Ht'|].
    apply lookup_insert_eq.
Qed.

Lemma vq_handle_new_validation_witness :
  let id := 0x40000005 in
  hdr_type (push_new id) = VIRTIO_WL_CMD_VFD_NEW /\
  is_u32 (msg_vfd_id (push_new id)) /\
  exists vi',
    vq_dispatch_hdr vi_empty (Some 7) 32 (push_new id) = Done (vi', true) /\
    vfds vi' = <[id := 7]> (vfds vi_empty) /\
    inbufs (vq_in vi') = [push_new id].
Proof.
  intros id.
  assert (Hu : is_u32 (msg_vfd_id (push_new id))) by (unfold is_u32; cbn; lia).
  split; [reflexivity|]. split; [exact Hu|].
  destruct (vq_handle_new_validation vi_empty (Some 7) 32 (push_new id) eq_refl Hu)
    as [Hreg _].
  eexists. split; [reflexivity|].
  destruct (Hreg _ true eq_refl) as (_ & (Hb & _) & _).
  split; [reflexivity | exact Hb].
Defined.

(** The dispatcher retains a buffer only for a receive message, which it
    appends to the pending queue of the target vfd with both cursors at
    0: every pending entry is a receive entry. *)
Lemma vq_dispatch_retains_recv_only (vi vi' : virtwl_info) (kz : option Z) (len_ : Z)
    (hdr_ : inbuf) :
  vq_dispatch_hdr vi kz len_ hdr_ = Done (vi', false) ->
  hdr_type hdr_ = VIRTIO_WL_CMD_VFD_RECV /\
  exists ptr vfd,
    idr_find (vfds vi) (msg_vfd_id hdr_) = Some ptr /\ objs vi !! ptr = Some vfd /\
    objs vi' !! ptr =
      Some (set_in_queue vfd
              (in_queue vfd ++
               [{| hdr := hdr_; len := len_; vfd_offset := 0; data_offset := 0 |}])) /\
    vq_in vi' = vq_in vi.
Proof.
  unfold vq_dispatch_hdr.
  match goal with
  | |- match ?h with _ => _ end = _ -> _ => destruct h as [[v [|]]|] eqn:Eh
  end;
    [destruct (vq_dispatch_tail v hdr_) as (vq' & -> & _); discriminate | | discriminate].
  intros [= ->]. revert Eh.
  destruct (hdr_type hdr_) eqn:Et; try discriminate.
  - unfold vq_handle_new.
    repeat match goal with
           | |- context [if ?b then _ else _] => destruct b
           | |- context [match ?o with Some _ => _ | None => _ end] => destruct o
           | |- context [let '(_, _) := ?p in _] => destruct p
           end; discriminate.
  - unfold vq_handle_recv.
    destruct (idr_find _ _) as [ptr|]; [|discriminate].
    destruct (objs vi !! ptr) as [vfd|] eqn:Eo; [|discriminate].
    destruct (negb _); [discriminate|].
    intros [= <-]. split; [reflexivity|].
    exists ptr, vfd. cbn. rewrite lookup_insert_eq. auto.
Qed.

(** ** Backpressure: [vq_queue_out] *)

(** The events of a submission are events of the loop; a kick happens
    exactly on success and is the last event; at most one wait elapses,
    and only in a blocking call. *)
Lemma vq_queue_out_events (nonblock : bool) (script : list out_attempt) (ret : Z)
    (evs : list event) :
  vq_queue_out nonblock script = Some (ret, evs) ->
  Forall is_queue_event evs /\
  (ret = 0 -> exists pre, evs = pre ++ [EvAddSgs 0; EvKick]) /\
  (ret <> 0 -> ~ In EvKick evs) /\
  (timeouts evs <= 1)%nat /\
  (timeouts evs = 1%nat -> ret = - EBUSY /\ nonblock = false).
Proof.
  revert ret evs. induction script as [|a rest IH]; intros ret evs; cbn [vq_queue_out];
    [discriminate|].
  destruct (add_res a =? - ENOSPC) eqn:Ea.
  - destruct nonblock.
    + intros [= <- <-]. cbn.
      split; [repeat constructor|]. split; [discriminate|].
      split; [intros _ [E|[]]; discriminate|]. split; [lia | discriminate].
    + destruct (woken a); cbn [negb].
      * destruct (vq_queue_out false rest) as [[r e]|] eqn:Er; [|discriminate].
        intros [= <- <-]. destruct (IH r e eq_refl) as (Hf & H0 & Hk & Ht & Ht1).
        split; [repeat constructor; assumption|].
        split; [intros E; destruct (H0 E) as [pre ->];
                exists (EvAddSgs (add_res a) :: EvWait true :: pre); reflexivity|].
        split; [intros E [E'|[E'|Hin]]; try discriminate; now apply (Hk E)|].
        cbn. split; assumption.
      * intros [= <- <-]. cbn.
        split; [repeat constructor|]. split; [discriminate|].
        split; [intros _ [E|[E|[]]]; discriminate|]. split; [lia | auto].
  - destruct (add_res a =? 0) eqn:Ez.
    + intros [= <- <-]. cbn.
      split; [repeat constructor|]. split; [intros _; exists []; reflexivity|].
      split; [intros E; now destruct E|]. split; [lia | discriminate].
    + intros [= <- <-]. cbn. apply Z.eqb_neq in Ez.
      split; [repeat constructor|]. split; [intros E; now destruct Ez|].
      split; [intros _ [E|[]]; discriminate|]. split; [lia | discriminate].
Qed.

(** A blocking call that finds the queue full [n] times, each time with a
    slot freeing within the wait, and is then served, returns 0 after the
    kick. *)
Lemma vq_queue_out_served (n : nat) (w : bool) (rest : list out_attempt) :
  vq_queue_out false (repeat slot_frees n ++ {| add_res := 0; woken := w |} :: rest) =
  Some (0, concat (repeat [EvAddSgs (- ENOSPC); EvWait true] n) ++ [EvAddSgs 0; EvKick]).
Proof.
  induction n as [|n IH]; [reflexivity|].
  cbn [repeat app]. cbn [vq_queue_out slot_frees add_res woken].
  change (- ENOSPC =? - ENOSPC) with true. cbn [negb]. rewrite IH. reflexivity.
Qed.

(** C4, as stated, fails: one elapsed wait is enough for [-EBUSY]. *)
Lemma busy_after_single_timeout :
  ~ busy_only_after_repeated_timeouts [no_slot].
Proof.
  unfold busy_only_after_repeated_timeouts. intros Hc.
  specialize (Hc _ eq_refl). cbn in Hc. lia.
Qed.

(** C4, amended: when [virtqueue_add_sgs] finds no free slot, a
    non-blocking caller gets [-EAGAIN] at once without waiting; a blocking
    caller waits on the slot-available condition for at most [HZ], gets
    [-EBUSY] as soon as one such wait elapses, and otherwise retries the
    submission, returning 0 after the kick once the queue takes the
    request; no call sees more than one elapsed wait. *)
Theorem vq_queue_out_backpressure (a : out_attempt) (rest : list out_attempt) :
  add_res a = - ENOSPC ->
  vq_queue_out true (a :: rest) = Some (- EAGAIN, [EvAddSgs (- ENOSPC)]) /\
  (woken a = false ->
   vq_queue_out false (a :: rest) = Some (- EBUSY, [EvAddSgs (- ENOSPC); EvWait false])) /\
  (woken a = true ->
   forall n w rest',
     rest = repeat slot_frees n ++ {| add_res := 0; woken := w |} :: rest' ->
     vq_queue_out false (a :: rest) =
     Some (0, concat (repeat [EvAddSgs (- ENOSPC); EvWait true] (S n))
              ++ [EvAddSgs 0; EvKick])) /\
  (forall nonblock ret evs,
     vq_queue_out nonblock (a :: rest) = Some (ret, evs) ->
     (timeouts evs <= 1)%nat /\
     (timeouts evs = 1%nat -> ret = - EBUSY /\ nonblock = false) /\
     (ret = 0 -> exists pre, evs = pre ++ [EvAddSgs 0; EvKick])).
Proof.
  intros Ha. cbn [vq_queue_out]. rewrite Ha.
  change (- ENOSPC =? - ENOSPC) with true. cbn [negb].
  split; [reflexivity|]. split; [intros ->; reflexivity|]. split.
  - intros -> n w rest' ->. rewrite vq_queue_out_served. reflexivity.
  - intros nonblock ret evs Hq.
    assert (Hq' : vq_queue_out nonblock (a :: rest) = Some (ret, evs)).
    { cbn [vq_queue_out]. rewrite Ha. exact Hq. }
    destruct (vq_queue_out_events _ _ _ _ Hq') as (_ & H0 & _ & Ht & Ht1). auto.
Qed.

Lemma vq_queue_out_backpressure_witness :
  add_res slot_frees = - ENOSPC /\
  vq_queue_out true [slot_frees; queued] = Some (- EAGAIN, [EvAddSgs (- ENOSPC)]) /\
  vq_queue_out false [slot_frees; queued] =
    Some (0, [EvAddSgs (- ENOSPC); EvWait true; EvAddSgs 0; EvKick]).
Proof.
  destruct (vq_queue_out_backpressure slot_frees [queued] eq_refl) as (Hnb & _ & Hw & _).
  split; [reflexivity|]. split; [exact Hnb|].
  exact (Hw eq_refl 0%nat false [] eq_refl).
Defined.

(** ** Close: [do_vfd_close] and [virtwl_vfd_remove] *)

Lemma accepted_all (bufs : list inbuf) :
  accepted bufs [] = bufs /\ refusals bufs [] = [].
Proof. induction bufs as [|b bufs [IHa IHr]]; cbn; [auto|]. now rewrite IHa, IHr. Qed.

(** Buffers that go through [vq_return_inbuf_locked] one after the
    other. *)
Lemma fold_return_inbufs (bufs : list inbuf) (vq : virtqueue_in) :
  let vq' := fold_left (fun vq b => fst (vq_return_inbuf_locked vq b)) bufs vq in
  inbufs vq' = inbufs vq ++ accepted bufs (add_inbuf_results vq) /\
  printed vq' = printed vq ++ refusals bufs (add_inbuf_results vq) /\
  add_inbuf_results vq' = drop (length bufs) (add_inbuf_results vq) /\
  kicks vq' = kicks vq /\ kfreed vq' = kfreed vq.
Proof.
  revert vq. induction bufs as [|b bufs IH]; intros vq; cbn [fold_left accepted refusals].
  - cbn. rewrite !app_nil_r. auto.
  - destruct (vq_return_inbuf_locked_spec vq b) as (_ & Hr & Hk & Hf & Hi & Hp).
    destruct (IH (fst (vq_return_inbuf_locked vq b))) as (-> & -> & -> & -> & ->).
    rewrite Hr, Hk, Hf, Hi, Hp, <- !app_assoc.
    split; [reflexivity|]. split; [reflexivity|].
    split; [|auto]. destruct (add_inbuf_results vq); [|reflexivity].
    cbn. now rewrite !drop_nil.
Qed.

(** [virtwl_vfd_remove] unlinks the id, passes every pending buffer to
    [vq_return_inbuf_locked] in queue order and frees the vfd. *)
Lemma virtwl_vfd_remove_spec (vi : virtwl_info) (addr : Z) (vfd : virtwl_vfd) :
  let '(vi', evs) := virtwl_vfd_remove vi addr vfd in
  let bufs := map hdr (in_queue vfd) in
  vfds vi' = delete (vfd_id vfd) (vfds vi) /\
  objs vi' = delete addr (objs vi) /\
  inbufs (vq_in vi') = inbufs (vq_in vi) ++ accepted bufs (add_inbuf_results (vq_in vi)) /\
  klog vi' = klog vi ++ refusals bufs (add_inbuf_results (vq_in vi)) /\
  kicks (vq_in vi') = kicks (vq_in vi) /\ kfreed (vq_in vi') = kfreed (vq_in vi) /\
  evs = EvUnlink (vfd_id vfd) :: map EvReturnInbuf bufs ++ [EvFree addr].
Proof.
  unfold virtwl_vfd_remove, klog. cbn.
  pose proof (fold_return_inbufs (map hdr (in_queue vfd)) (vq_in vi))
    as (Hb & Hp & _ & Hk & Hf).
  auto 8.
Qed.

(** C3, as stated, fails: when the out-queue stays full for the bounded
    wait, close returns [-EBUSY]; the host was not notified and the vfd is
    still allocated and registered. *)
Lemma close_without_teardown :
  ~ close_always_tears_down vi_one 100 true [no_slot].
Proof.
  unfold close_always_tears_down. intros Hc.
  specialize (Hc _ _ _ eq_refl) as (_ & _ & Hobj).
  vm_compute in Hobj. discriminate.
Qed.

(** C3, amended: a close that returns 0 has queued the request and kicked
    the host, then observed the completion, and only then unlinked the id,
    passed every pending buffer to [vq_return_inbuf_locked] in queue order
    and freed the vfd: the in-queue holds again the buffers the transport
    took and the log has a line for each one it refused; a close that
    returns an error (the message could not be allocated or queued) has
    seen no completion and has done no teardown: table and vfds are as
    before and the in-queue differs in the log at most.  The call returns
    0 as soon as the out-queue takes the request. *)
Theorem do_vfd_close_order (vi : virtwl_info) (addr : Z) (vfd : virtwl_vfd) (kz_ok : bool)
    (script : list out_attempt) :
  objs vi !! addr = Some vfd ->
  (forall vi' ret evs,
     do_vfd_close vi addr kz_ok script = Some (Done (vi', ret, evs)) ->
     (ret = 0 ->
      exists qevs,
        evs = (EvMessage VIRTIO_WL_CMD_VFD_CLOSE (vfd_id vfd) 0 0 :: qevs
               ++ [EvAddSgs 0; EvKick]) ++ EvCompletion ::
              EvUnlink (vfd_id vfd) :: map EvReturnInbuf (map hdr (in_queue vfd))
              ++ [EvFree addr] /\
        Forall is_queue_event qevs /\
        vfds vi' = delete (vfd_id vfd) (vfds vi) /\
        objs vi' = delete addr (objs vi) /\
        inbufs (vq_in vi') =
          inbufs (vq_in vi) ++
          accepted (map hdr (in_queue vfd)) (add_inbuf_results (vq_in vi)) /\
        klog vi' =
          klog vi ++ refusals (map hdr (in_queue vfd)) (add_inbuf_results (vq_in vi)) /\
        kfreed (vq_in vi') = kfreed (vq_in vi) /\
        (add_inbuf_results (vq_in vi) = [] ->
         inbufs (vq_in vi') = inbufs (vq_in vi) ++ map hdr (in_queue vfd) /\
         klog vi' = klog vi)) /\
     (ret <> 0 ->
      Forall is_queue_event evs /\ ~ In EvKick evs /\
      vfds vi' = vfds vi /\ objs vi' = objs vi /\ same_queue (vq_in vi) (vq_in vi') /\
      (kz_ok = true -> klog vi' = klog vi ++ [MsgCloseQueueFailed (vfd_id vfd) ret]))) /\
  (forall n w rest,
     kz_ok = true ->
     script = repeat slot_frees n ++ {| add_res := 0; woken := w |} :: rest ->
     exists vi' evs,
       do_vfd_close vi addr kz_ok script = Some (Done (vi', 0, evs)) /\
       objs vi' !! addr = None /\ vfds vi' !! vfd_id vfd = None).
Proof.
  intros Hobj. unfold do_vfd_close. rewrite Hobj. split.
  - intros vi' ret evs.
    destruct kz_ok; cbn [negb].
    2:{ intros [= <- <- <-]. split; [discriminate|]. intros _.
        split; [constructor|]. split; [intros []|].
        split; [reflexivity|]. split; [reflexivity|].
        split; [apply same_queue_refl | discriminate]. }
    destruct (vq_queue_out false script) as [[r qe]|] eqn:Eq; [|discriminate].
    destruct (vq_queue_out_events _ _ _ _ Eq) as (Hf & H0 & Hk & _).
    destruct (r =? 0) eqn:Er; cbn [negb].
    + apply Z.eqb_eq in Er. subst r.
      pose proof (virtwl_vfd_remove_spec vi addr vfd) as Hrm.
      destruct (virtwl_vfd_remove vi addr vfd) as [vi1 tevs].
      destruct Hrm as (Hv & Ho & Hb & Hl & _ & Hfr & ->).
      intros [= <- <- <-]. split; [|intros E; now destruct E].
      intros _. destruct (H0 eq_refl) as [pre ->].
      exists pre. split; [reflexivity|].
      split; [apply Forall_app in Hf; tauto|].
      split; [exact Hv|]. split; [exact Ho|]. split; [exact Hb|]. split; [exact Hl|].
      split; [exact Hfr|]. intros Hall. rewrite Hall in Hb, Hl.
      destruct (accepted_all (map hdr (in_queue vfd))) as [Ea Erf].
      rewrite Ea in Hb. rewrite Erf, app_nil_r in Hl. auto.
    + apply Z.eqb_neq in Er. intros [= <- <- <-].
      split; [intros E; now destruct Er|]. intros _.
      split; [constructor; [exact I | exact Hf]|].
      split; [intros [E|Hin]; [discriminate | exact (Hk Er Hin)]|].
      split; [reflexivity|]. split; [reflexivity|].
      split; [apply same_queue_printk, same_queue_refl | reflexivity].
  - intros n w rest -> ->. cbn [negb]. rewrite vq_queue_out_served.
    change (0 =? 0) with true. cbn [negb].
    pose proof (virtwl_vfd_remove_spec vi addr vfd) as Hrm.
    destruct (virtwl_vfd_remove vi addr vfd) as [vi1 tevs].
    destruct Hrm as (Hv & Ho & _).
    eexists _, _. split; [reflexivity|].
    rewrite Ho, Hv. split; apply lookup_delete_eq.
Qed.

(** The release of the file reports success whatever the close did. *)
Lemma virtwl_vfd_release_returns_zero (vi vi' : virtwl_info) (addr : Z) (kz_ok : bool)
    (script : list out_attempt) (ret : Z) (evs : list event) :
  virtwl_vfd_release vi addr kz_ok script = Some (Done (vi', ret, evs)) -> ret = 0.
Proof.
  unfold virtwl_vfd_release.
  destruct (do_vfd_close vi addr kz_ok script) as [[[[v r] e]|]|]; try discriminate.
  now intros [= _ <- _].
Qed.

Lemma do_vfd_close_order_witness :
  objs vi_one !! 100 = Some {| vfd_id := 1; vfd_flags := 4; vfd_pfn := 0; vfd_size := 0;
                               in_queue := [qentry_hi] |} /\
  (exists vi' evs,
     do_vfd_close vi_one 100 true [slot_frees; queued] = Some (Done (vi', 0, evs)) /\
     objs vi' !! 100 = None /\ vfds vi' !! 1 = None) /\
  (exists vi' evs,
     do_vfd_close (set_vq_in vi_one vq_refusing) 100 true [queued] =
       Some (Done (vi', 0, evs)) /\
     inbufs (vq_in vi') = [] /\ klog vi' = [MsgGiveInbufFailed (- EIO)]).
Proof.
  assert (Hobj : objs vi_one !! 100 =
                 Some {| vfd_id := 1; vfd_flags := 4; vfd_pfn := 0; vfd_size := 0;
                         in_queue := [qentry_hi] |}) by reflexivity.
  split; [exact Hobj|].
  split.
  - destruct (do_vfd_close_order vi_one 100 _ true [slot_frees; queued] Hobj) as [_ Hret].
    exact (Hret 1%nat false [] eq_refl eq_refl).
  - destruct (do_vfd_close_order (set_vq_in vi_one vq_refusing) 100 _ true [queued] Hobj)
      as [Hall _].
    eexists _, _. split; [reflexivity|].
    destruct (Hall _ _ _ eq_refl) as [H0 _].
    destruct (H0 eq_refl) as (qevs & _ & _ & _ & _ & Hb & Hl & _).
    split; [exact Hb | exact Hl].
Defined.

(** ** New: [do_new] *)



(** ** Releasing entries: [vfd_qentry_free_if_empty] *)

Lemma cursors_done_dec `{virtio_wl_h} (qentry : virtwl_vfd_qentry) :
  cursors_done qentry \/ ~ cursors_done qentry.
Proof. unfold cursors_done. lia. Qed.

(** On a receive entry the function releases exactly when both cursors
    are done, and otherwise changes nothing. *)
Lemma vfd_qentry_free_if_empty_recv `{virtio_wl_h} (vq : virtqueue_in)
    (qentry : virtwl_vfd_qentry) :
  hdr_type (hdr qentry) = VIRTIO_WL_CMD_VFD_RECV ->
  (cursors_done qentry ->
   vfd_qentry_free_if_empty vq qentry =
   (virtqueue_kick (fst (vq_return_inbuf_locked vq (hdr qentry))), None)) /\
  (~ cursors_done qentry ->
   vfd_qentry_free_if_empty vq qentry = (vq, Some qentry)).
Proof.
  intros Ht. unfold vfd_qentry_free_if_empty, cursors_done.
  destruct (decide _) as [_|Hn]; [|contradiction].
  destruct (vfd_offset qentry <? _) eqn:Ev;
    [apply Z.ltb_lt in Ev | apply Z.ltb_ge in Ev].
  - split; [lia | reflexivity].
  - destruct (data_offset qentry <? _) eqn:Ed;
      [apply Z.ltb_lt in Ed | apply Z.ltb_ge in Ed].
    + split; [lia | reflexivity].
    + split; [reflexivity | intros Hc; exfalso; apply Hc; lia].
Qed.

(** The two outcomes of the function on a receive entry. *)
Lemma vfd_qentry_free_if_empty_cases `{virtio_wl_h} (vq : virtqueue_in)
    (qentry : virtwl_vfd_qentry) :
  hdr_type (hdr qentry) = VIRTIO_WL_CMD_VFD_RECV ->
  (vfd_qentry_free_if_empty vq qentry = (vq, Some qentry) /\ ~ cursors_done qentry) \/
  (vfd_qentry_free_if_empty vq qentry =
     (virtqueue_kick (fst (vq_return_inbuf_locked vq (hdr qentry))), None) /\
   cursors_done qentry).
Proof.
  intros Ht. destruct (vfd_qentry_free_if_empty_recv vq qentry Ht) as [Hd Hn].
  destruct (cursors_done_dec qentry) as [Hc|Hc]; [right | left]; auto.
Qed.

Lemma drained_refl `{virtio_wl_h} (q : list virtwl_vfd_qentry) : drained q q [].
Proof. induction q; constructor; auto. Qed.

(** After a drain the entries that are still linked and were not done
    before are not done, and the entries that were unlinked are done. *)
Lemma drained_exact `{virtio_wl_h} (q kept rel : list virtwl_vfd_qentry) :
  drained q kept rel ->
  Forall cursors_done rel /\
  (Forall (fun e => ~ cursors_done e) q -> Forall (fun e => ~ cursors_done e) kept).
Proof.
  induction 1 as [|e q k r Hd [IHr IHk]|e e' q k r Hh Hl Hn Hd [IHr IHk]
                  |e e' q k r Hh Hl Ht Hc Hd [IHr IHk]].
  - split; [constructor | auto].
  - split; [exact IHr|]. intros Hq. inversion Hq; subst. constructor; auto.
  - split; [exact IHr|]. intros Hq. inversion Hq; subst. constructor; auto.
  - split; [constructor; assumption|]. intros Hq. inversion Hq; subst. auto.
Qed.

Lemma gave_back_nil (vq : virtqueue_in) : gave_back vq [] vq.
Proof. unfold gave_back. cbn. rewrite app_nil_r, Nat.add_0_r. auto. Qed.

(** One release, possibly after lines were printed, followed by the
    releases of the rest of the drain. *)
Lemma gave_back_step (vq vq0 vq' : virtqueue_in) (e : virtwl_vfd_qentry)
    (rel : list virtwl_vfd_qentry) :
  same_queue vq vq0 ->
  gave_back (virtqueue_kick (fst (vq_return_inbuf_locked vq0 (hdr e)))) rel vq' ->
  gave_back vq (e :: rel) vq'.
Proof.
  intros (Hi & Hk & Hr & Hf) (Gi & Gr & Gk & Gf).
  destruct (vq_return_inbuf_locked_spec vq0 (hdr e)) as (_ & Sr & Sk & Sf & Si & _).
  cbn [inbufs add_inbuf_results kicks kfreed virtqueue_kick] in Gi, Gr, Gk, Gf.
  rewrite Sr in Gi, Gr. rewrite Si in Gi. rewrite Sk in Gk. rewrite Sf in Gf.
  rewrite Hi, Hr in Gi. rewrite Hr in Gr. rewrite Hk in Gk. rewrite Hf in Gf.
  unfold gave_back. cbn [map accepted length].
  rewrite Gi, Gr, Gk, Gf, <- app_assoc.
  split; [reflexivity|]. split; [|split; [lia | reflexivity]].
  destruct (add_inbuf_results vq); [|reflexivity]. cbn. now rewrite !drop_nil.
Qed.

Lemma fold_vq_printk_same (msgs : list printk_msg) (vq : virtqueue_in) :
  same_queue vq (fold_left vq_printk msgs vq) /\
  printed (fold_left vq_printk msgs vq) = printed vq ++ msgs.
Proof.
  revert vq. induction msgs as [|m msgs IH]; intros vq; cbn [fold_left].
  - split; [apply same_queue_refl | now rewrite app_nil_r].
  - destruct (IH (vq_printk vq m)) as [Hs ->]. split.
    + eapply same_queue_trans; [|exact Hs]. apply same_queue_printk, same_queue_refl.
    + cbn. now rewrite <- app_assoc.
Qed.

(** A drain of payload bytes: the entries it unlinks have both cursors
    done, the entries it moved a cursor of and left linked have not, and
    entries with nothing left to read stay linked. *)
Lemma vfd_out_loop_drained `{virtio_wl_h} (copy_ok : Z -> Z -> bool) (len_ : Z)
    (q : list virtwl_vfd_qentry) (rc : Z) (vq : virtqueue_in) :
  let r := vfd_out_loop copy_ok len_ q rc vq in
  drained q (out_queue r) (out_released r) /\
  gave_back vq (out_released r) (out_vq r) /\
  (forall e, In e q -> nothing_to_read e -> In e (out_queue r)).
Proof.
  revert rc vq. induction q as [|e q IH]; intros rc vq.
  - cbn. split; [constructor|]. split; [apply gave_back_nil | auto].
  - cbn [vfd_out_loop].
    assert (Hskip : forall (b : bool),
              let r := vfd_out_loop copy_ok len_ q rc vq in
              (b = false -> nothing_to_read e -> False) ->
              drained (e :: q) (e :: out_queue r) (out_released r) /\
              gave_back vq (out_released r) (out_vq r) /\
              (forall x, In x (e :: q) -> nothing_to_read x -> In x (e :: out_queue r))).
    { intros b r _. destruct (IH rc vq) as (Hd & Hg & Hin).
      split; [now constructor|]. split; [exact Hg|].
      intros x [->|Hx] Hx0; [now left | right; auto]. }
    destruct (len_ <=? rc).
    { cbn. split; [apply drained_refl|]. split; [apply gave_back_nil | auto]. }
    destruct (_ <=? 0) eqn:E0.
    { apply (Hskip true). discriminate. }
    destruct (bool_decide _) eqn:Et; cbn [negb].
    2:{ apply (Hskip true). discriminate. }
    apply bool_decide_eq_true in Et. apply Z.leb_gt in E0.
    destruct (copy_ok _ _); cbn [negb].
    2:{ cbn. split; [apply drained_refl|]. split; [apply gave_back_nil | auto]. }
    match goal with
    | |- context [vfd_qentry_free_if_empty vq ?e'] =>
      destruct (vfd_qentry_free_if_empty_cases vq e' Et) as [[-> Hc] | [-> Hc]];
        match goal with
        | |- context [vfd_out_loop copy_ok len_ q ?rc' ?vq'] =>
          destruct (IH rc' vq') as (Hd & Hg & Hin)
        end
    end.
    + cbn [out_queue out_vq out_released option_list option_rect released_of app].
      split; [apply drained_keep; auto|]. split; [exact Hg|].
      intros x [->|Hx] Hx0; [|right; auto].
      exfalso. destruct Hx0 as [_ Hx0]. unfold data_len in Hx0. lia.
    + cbn [out_queue out_vq out_released option_list option_rect released_of app].
      split; [apply drained_release; auto|].
      split; [exact (gave_back_step vq vq _ _ _ (same_queue_refl vq) Hg)|].
      intros x [->|Hx] Hx0; [|auto].
      exfalso. destruct Hx0 as [_ Hx0]. unfold data_len in Hx0. lia.
Qed.

(** The inner loop over handles moves the handle cursor only. *)
Lemma vfds_for_fields (t : gmap Z Z) (base : Z) (n : nat) (i : Z)
    (e e' : virtwl_vfd_qentry) (found : list Z) (msgs : list printk_msg) :
  vfds_for t base n i e = (e', found, msgs) ->
  hdr e' = hdr e /\ len e' = len e /\ data_offset e' = data_offset e /\
  (length found <= n)%nat.
Proof.
  revert i e e' found msgs. induction n as [|n IH]; intros i e e' found msgs; cbn [vfds_for].
  - intros [= <- <- <-]. cbn. auto.
  - destruct (vfds_for t base n (i + 1) _) as [[q f] m] eqn:Er.
    apply IH in Er. cbn in Er. destruct Er as (Hh & Hl & Hd & Hn).
    destruct (idr_find t _); intros [= <- <- <-]; cbn; repeat split; auto; lia.
Qed.

(** A drain of handles: the entries it unlinks have both cursors done,
    the entries it moved a cursor of and left linked have not, and entries
    with nothing left to read stay linked. *)
Lemma vfd_out_vfds_loop_drained `{virtio_wl_h} (t : gmap Z Z) (count : Z)
    (q : list virtwl_vfd_qentry) (acc : list Z) (vq : virtqueue_in) :
  let v := vfd_out_vfds_loop t count q acc vq in
  drained q (vr_queue v) (vr_released v) /\
  gave_back vq (vr_released v) (vr_vq v) /\
  (forall e, In e q -> nothing_to_read e -> In e (vr_queue v)).
Proof.
  revert acc vq. induction q as [|e q IH]; intros acc vq.
  - cbn. split; [constructor|]. split; [apply gave_back_nil | auto].
  - cbn [vfd_out_vfds_loop].
    assert (Hskip : forall (b : bool),
              let v := vfd_out_vfds_loop t count q acc vq in
              (b = false -> nothing_to_read e -> False) ->
              drained (e :: q) (e :: vr_queue v) (vr_released v) /\
              gave_back vq (vr_released v) (vr_vq v) /\
              (forall x, In x (e :: q) -> nothing_to_read x -> In x (e :: vr_queue v))).
    { intros b v _. destruct (IH acc vq) as (Hd & Hg & Hin).
      split; [now constructor|]. split; [exact Hg|].
      intros x [->|Hx] Hx0; [now left | right; auto]. }
    destruct (count <=? _).
    { cbn. split; [apply drained_refl|]. split; [apply gave_back_nil | auto]. }
    destruct (_ <=? 0) eqn:E0.
    { apply (Hskip true). discriminate. }
    destruct (bool_decide _) eqn:Et; cbn [negb].
    2:{ apply (Hskip true). discriminate. }
    apply bool_decide_eq_true in Et. apply Z.leb_gt in E0.
    destruct (vfds_for t _ _ 0 e) as [[e' found] msgs] eqn:Ef.
    apply vfds_for_fields in Ef as (Hh & Hl & _ & _).
    assert (Et' : hdr_type (hdr e') = VIRTIO_WL_CMD_VFD_RECV) by now rewrite Hh.
    destruct (fold_vq_printk_same msgs vq) as [Hsame _].
    assert (Hnot : nothing_to_read e -> False).
    { intros [Hx _]. rewrite Hx, Z.sub_diag in E0. vm_compute in E0. discriminate E0. }
    destruct (vfd_qentry_free_if_empty_cases (fold_left vq_printk msgs vq) e' Et')
      as [[-> Hc] | [-> Hc]];
      match goal with
      | |- context [vfd_out_vfds_loop t count q ?acc' ?vq'] =>
        destruct (IH acc' vq') as (Hd & Hg & Hin)
      end.
    + cbn [vr_queue vr_vq vr_released option_list option_rect released_of app].
      split; [apply drained_keep; auto|].
      split.
      { destruct Hsame as (Si & Sk & Sr & Sf). destruct Hg as (Gi & Gr & Gk & Gf).
        unfold gave_back. rewrite Gi, Gr, Gk, Gf, Si, Sk, Sr, Sf. auto. }
      intros x [->|Hx] Hx0; [contradiction | right; auto].
    + cbn [vr_queue vr_vq vr_released option_list option_rect released_of app].
      split; [apply drained_release; auto|].
      split; [exact (gave_back_step vq _ _ _ _ Hsame Hg)|].
      intros x [->|Hx] Hx0; [contradiction | auto].
Qed.

(** C1, as stated, fails in two ways.  A receive message that carries
    neither payload nor handles has both cursors at their totals when it
    is queued, and both drains pass it over: it stays linked.  And an
    entry that a drain releases is unlinked also when the transport
    refuses its buffer: the buffer is then not a receive buffer again. *)
Lemma done_entry_stays_linked :
  ~ @released_iff_done upstream_h copy_always (vfds vi_one) [qentry_bare] vq_idle 64 8 /\
  ~ @released_iff_done upstream_h copy_always (vfds vi_one) [qentry_hi] vq_refusing 64 8.
Proof.
  unfold released_iff_done. split; intros [Hf Hb].
  - assert (Hq : vr_queue
                   (@vfd_out_vfds_locked upstream_h (vfds vi_one)
                      (out_queue (@vfd_out_locked upstream_h copy_always [qentry_bare]
                                    vq_idle 64))
                      (out_vq (@vfd_out_locked upstream_h copy_always [qentry_bare]
                                 vq_idle 64)) 8)
                 = [qentry_bare]) by (vm_compute; reflexivity).
    rewrite Hq in Hf. inversion Hf as [|? ? Hn _]; subst.
    apply Hn. split; vm_compute; discriminate.
  - vm_compute in Hb. discriminate Hb.
Qed.

(** C1, amended: called on a receive entry, [vfd_qentry_free_if_empty]
    unlinks the entry, passes its buffer to [vq_return_inbuf_locked] and
    kicks the host exactly when the handle cursor has reached the declared
    handle count and the byte cursor has reached the declared payload
    length; otherwise entry and in-queue are unchanged.  After a drain of
    bytes or of handles, every entry of the pending queue is still linked
    as it was, or still linked with a cursor short of its total, or was
    unlinked with both cursors done; the in-queue holds the buffers of the
    unlinked entries that the transport took back, in queue order, and was
    kicked once for each unlinked entry; an entry with nothing left to
    read is passed over and stays linked; and when no entry was done
    before the drain, the entries that are linked afterwards are exactly
    those that are not done. *)
Theorem vfd_qentry_release_iff_cursors_done `{virtio_wl_h} (vq : virtqueue_in)
    (qentry : virtwl_vfd_qentry) :
  hdr_type (hdr qentry) = VIRTIO_WL_CMD_VFD_RECV ->
  (cursors_done qentry <->
   vfd_qentry_free_if_empty vq qentry =
   (virtqueue_kick (fst (vq_return_inbuf_locked vq (hdr qentry))), None)) /\
  (~ cursors_done qentry <-> vfd_qentry_free_if_empty vq qentry = (vq, Some qentry)) /\
  (forall copy_ok queue len_,
     let r := vfd_out_locked copy_ok queue vq len_ in
     drained queue (out_queue r) (out_released r) /\
     gave_back vq (out_released r) (out_vq r) /\
     Forall cursors_done (out_released r) /\
     (forall e, In e queue -> nothing_to_read e -> In e (out_queue r)) /\
     (Forall (fun e => ~ cursors_done e) queue ->
      Forall (fun e => ~ cursors_done e) (out_queue r))) /\
  (forall t queue count,
     let v := vfd_out_vfds_locked t queue vq count in
     drained queue (vr_queue v) (vr_released v) /\
     gave_back vq (vr_released v) (vr_vq v) /\
     Forall cursors_done (vr_released v) /\
     (forall e, In e queue -> nothing_to_read e -> In e (vr_queue v)) /\
     (Forall (fun e => ~ cursors_done e) queue ->
      Forall (fun e => ~ cursors_done e) (vr_queue v))).
Proof.
  intros Ht. destruct (vfd_qentry_free_if_empty_recv vq qentry Ht) as [Hd Hn].
  split; [|split; [|split]].
  - split; [exact Hd|]. intros E.
    destruct (cursors_done_dec qentry) as [Hc|Hc]; [exact Hc|].
    rewrite (Hn Hc) in E. discriminate.
  - split; [exact Hn|]. intros E Hc. rewrite (Hd Hc) in E. discriminate.
  - intros copy_ok queue len_ r.
    destruct (vfd_out_loop_drained copy_ok len_ queue 0 vq) as (Hdr & Hg & Hin).
    destruct (drained_exact _ _ _ Hdr) as [Hr Hk]. auto 6.
  - intros t queue count v.
    destruct (vfd_out_vfds_loop_drained t count queue [] vq) as (Hdr & Hg & Hin).
    destruct (drained_exact _ _ _ Hdr) as [Hr Hk]. auto 6.
Qed.

Lemma vfd_qentry_release_iff_cursors_done_witness :
  let done := set_data_offset qentry_hi 2 in
  hdr_type (hdr done) = VIRTIO_WL_CMD_VFD_RECV /\
  @vfd_qentry_free_if_empty upstream_h vq_idle done =
    (virtqueue_kick (fst (vq_return_inbuf_locked vq_idle msg_hi)), None) /\
  @vfd_qentry_free_if_empty upstream_h vq_idle qentry_hi = (vq_idle, Some qentry_hi) /\
  inbufs (out_vq (@vfd_out_locked upstream_h copy_always [qentry_hi] vq_idle 64))
    = [msg_hi] /\
  inbufs (out_vq (@vfd_out_locked upstream_h copy_always [qentry_hi] vq_refusing 64))
    = [].
Proof.
  intros done.
  destruct (@vfd_qentry_release_iff_cursors_done upstream_h vq_idle done eq_refl)
    as ([Hd _] & _ & Hdrain & _).
  destruct (@vfd_qentry_release_iff_cursors_done upstream_h vq_idle qentry_hi eq_refl)
    as (_ & [Hn _] & _).
  destruct (@vfd_qentry_release_iff_cursors_done upstream_h vq_refusing done eq_refl)
    as (_ & _ & Hrefuse & _).
  split; [reflexivity|]. split; [|split; [|split]].
  - apply Hd. split; vm_compute; discriminate.
  - apply Hn. intros [_ Hc]. vm_compute in Hc. now apply Hc.
  - destruct (Hdrain copy_always [qentry_hi] 64) as (_ & (Hi & _) & _). exact Hi.
  - destruct (Hrefuse copy_always [qentry_hi] 64) as (_ & (Hi & _) & _). exact Hi.
Defined.

(** ** Partial reads: [vfd_out_locked] *)

Lemma read_bytes_split (b : list Z) (off n m : Z) :
  0 <= off -> 0 <= n <= m ->
  read_bytes b off n = take (Z.to_nat n) (read_bytes b off m) /\
  read_bytes b (off + n) (m - n) = drop (Z.to_nat n) (read_bytes b off m).
Proof.
  intros Hoff Hn. unfold read_bytes. split.
  - rewrite take_take. f_equal. lia.
  - replace (Z.to_nat (off + n)) with (Z.to_nat off + Z.to_nat n)%nat by lia.
    rewrite <- drop_drop, take_drop_commute.
    replace (Z.to_nat n + Z.to_nat (m - n))%nat with (Z.to_nat m) by lia.
    reflexivity.
Qed.

Lemma read_bytes_length (b : list Z) (off n : Z) :
  0 <= off -> off + n <= Z.of_nat (length b) ->
  length (read_bytes b off n) = Z.to_nat n.
Proof.
  intros Hoff Hn. unfold read_bytes. rewrite length_take, length_drop. lia.
Qed.

Lemma pending_bytes_length `{virtio_wl_h} (e : virtwl_vfd_qentry) :
  0 <= sizeof_recv -> wf_entry e ->
  hdr_type (hdr e) = VIRTIO_WL_CMD_VFD_RECV ->
  length (pending_bytes e) = Z.to_nat (data_len e - data_offset e).
Proof.
  intros Hs (Hc & Hd & Hl & Hb) Ht. unfold pending_bytes.
  destruct (decide _) as [_|Hn]; [|contradiction].
  apply read_bytes_length; unfold data_len, sizeof_le32 in *; lia.
Qed.

Lemma pending_bytes_not_recv `{virtio_wl_h} (e : virtwl_vfd_qentry) :
  hdr_type (hdr e) <> VIRTIO_WL_CMD_VFD_RECV -> pending_bytes e = [].
Proof.
  intros Hn. unfold pending_bytes. destruct (decide _); [contradiction | reflexivity].
Qed.

Lemma pending_bytes_exhausted `{virtio_wl_h} (e : virtwl_vfd_qentry) :
  data_len e - data_offset e <= 0 -> pending_bytes e = [].
Proof.
  intros Hle. unfold pending_bytes, read_bytes. destruct (decide _); [|reflexivity].
  replace (Z.to_nat (data_len e - data_offset e)) with 0%nat by lia. reflexivity.
Qed.

(** Copying [n] of the pending bytes of an entry and advancing its byte
    cursor by [n]. *)
Lemma pending_bytes_advance `{virtio_wl_h} (e : virtwl_vfd_qentry) (n : Z) :
  0 <= sizeof_recv -> wf_entry e ->
  hdr_type (hdr e) = VIRTIO_WL_CMD_VFD_RECV ->
  0 <= n <= data_len e - data_offset e ->
  let e' := set_data_offset e (u32 (data_offset e + n)) in
  read_bytes (body (hdr e))
    (sizeof_recv + recv_vfd_count (hdr e) * sizeof_le32 + data_offset e - sizeof_recv) n
  = take (Z.to_nat n) (pending_bytes e) /\
  pending_bytes e' = drop (Z.to_nat n) (pending_bytes e) /\
  wf_entry e' /\
  data_len e' - data_offset e' = data_len e - data_offset e - n.
Proof.
  intros Hs (Hc & Hd & Hl & Hb) Ht Hn e'.
  assert (Hu : u32 (data_offset e + n) = data_offset e + n).
  { apply u32_small. unfold is_u32, data_len, sizeof_le32 in *. lia. }
  set (off := recv_vfd_count (hdr e) * sizeof_le32 + data_offset e).
  assert (Hoff : 0 <= off) by (unfold off, sizeof_le32; lia).
  destruct (read_bytes_split (body (hdr e)) off n (data_len e - data_offset e) Hoff Hn)
    as [Ht1 Ht2].
  unfold pending_bytes. subst e'. cbn [hdr set_data_offset data_offset].
  destruct (decide _) as [_|Hne]; [|contradiction].
  rewrite Hu. unfold data_len in *. cbn [hdr len set_data_offset].
  split; [|split; [|split]].
  - etransitivity; [|exact Ht1]. f_equal. unfold off. lia.
  - etransitivity; [|exact Ht2]. f_equal; unfold off; lia.
  - unfold wf_entry. cbn. lia.
  - lia.
Qed.

Lemma queued_bytes_cons `{virtio_wl_h} (e : virtwl_vfd_qentry) (q : list virtwl_vfd_qentry) :
  queued_bytes (e :: q) = pending_bytes e ++ queued_bytes q.
Proof. reflexivity. Qed.

(** One drain of bytes copies a prefix of the queued payload, as long as
    the destination allows, and leaves the rest queued in order. *)
Lemma vfd_out_loop_bytes `{virtio_wl_h} (copy_ok : Z -> Z -> bool) (len_ : Z) :
  0 <= sizeof_recv ->
  (forall o n, copy_ok o n = true) ->
  forall (q : list virtwl_vfd_qentry) (rc : Z) (vq : virtqueue_in),
    Forall wf_entry q -> 0 <= rc <= len_ ->
    let r := vfd_out_loop copy_ok len_ q rc vq in
    out_bytes r = take (Z.to_nat (len_ - rc)) (queued_bytes q) /\
    out_count r = rc + Z.of_nat (length (out_bytes r)) /\
    queued_bytes (out_queue r) = drop (Z.to_nat (len_ - rc)) (queued_bytes q) /\
    Forall wf_entry (out_queue r).
Proof.
  intros Hs Hok. induction q as [|e q IH]; intros rc vq Hwf Hrc.
  - cbn. rewrite take_nil, drop_nil. repeat split; try lia. constructor.
  - inversion Hwf as [|? ? He Hq]; subst. cbn [vfd_out_loop].
    assert (Eto : len e - (sizeof_recv + recv_vfd_count (hdr e) * sizeof_le32 + data_offset e)
                  = data_len e - data_offset e) by (unfold data_len; lia).
    rewrite Eto. rewrite queued_bytes_cons.
    destruct (len_ <=? rc) eqn:El.
    { apply Z.leb_le in El. replace (len_ - rc) with 0 by lia.
      cbn [out_bytes out_count out_queue Z.to_nat take drop length Z.of_nat].
      rewrite queued_bytes_cons. repeat split; try lia. exact Hwf. }
    apply Z.leb_gt in El.
    destruct (data_len e - data_offset e <=? 0) eqn:E0.
    { apply Z.leb_le in E0. rewrite (pending_bytes_exhausted e E0).
      destruct (IH rc vq Hq Hrc) as (Hb & Hc & Hr & Hw).
      cbn [out_bytes out_count out_queue app]. rewrite queued_bytes_cons.
      rewrite (pending_bytes_exhausted e E0). cbn [app].
      repeat split; try assumption. constructor; assumption. }
    apply Z.leb_gt in E0.
    destruct (bool_decide _) eqn:Et; cbn [negb].
    2:{ apply bool_decide_eq_false in Et. rewrite (pending_bytes_not_recv e Et).
        destruct (IH rc vq Hq Hrc) as (Hb & Hc & Hr & Hw).
        cbn [out_bytes out_count out_queue app]. rewrite queued_bytes_cons.
        rewrite (pending_bytes_not_recv e Et). cbn [app].
        repeat split; try assumption. constructor; assumption. }
    apply bool_decide_eq_true in Et.
    rewrite Hok. cbn [negb].
    set (to_read := data_len e - data_offset e) in *.
    set (n := if len_ <? to_read + rc then len_ - rc else to_read).
    assert (Hn : 0 <= n <= to_read /\ n <= len_ - rc /\ (n = to_read \/ n = len_ - rc)).
    { subst n. destruct (len_ <? to_read + rc) eqn:Ec;
        [apply Z.ltb_lt in Ec | apply Z.ltb_ge in Ec]; lia. }
    destruct (pending_bytes_advance e n Hs He Et ltac:(fold to_read; lia))
      as (Ebuf & Epend & Hwf' & Erest).
    rewrite Ebuf.
    pose proof (pending_bytes_length e Hs He Et) as Hlen. fold to_read in Hlen.
    set (e' := set_data_offset e (u32 (data_offset e + n))) in *.
    assert (Et' : hdr_type (hdr e') = VIRTIO_WL_CMD_VFD_RECV) by exact Et.
    assert (Hkept : forall vq' kept,
              vfd_qentry_free_if_empty vq e' = (vq', kept) ->
              queued_bytes (option_list kept ++ out_queue (vfd_out_loop copy_ok len_ q (rc + n) vq'))
              = drop (Z.to_nat n) (pending_bytes e)
                ++ queued_bytes (out_queue (vfd_out_loop copy_ok len_ q (rc + n) vq')) /\
              Forall wf_entry
                (option_list kept ++ out_queue (vfd_out_loop copy_ok len_ q (rc + n) vq'))).
    { intros vq' kept Ef.
      destruct (IH (rc + n) vq' Hq ltac:(lia)) as (_ & _ & _ & Hw).
      destruct (vfd_qentry_free_if_empty_cases vq e' Et') as [[Ef' _] | [Ef' Hdone]];
        rewrite Ef' in Ef; injection Ef as <- <-; cbn [option_list option_rect app].
      - rewrite queued_bytes_cons, Epend. split; [reflexivity | constructor; assumption].
      - split; [|exact Hw].
        rewrite <- Epend, pending_bytes_exhausted; [reflexivity|].
        destruct Hdone as [_ Hd]. lia. }
    destruct (vfd_qentry_free_if_empty vq e') as [vq' kept] eqn:Ef.
    destruct (Hkept vq' kept eq_refl) as [Hqb Hwf''].
    destruct (IH (rc + n) vq' Hq ltac:(lia)) as (Hb & Hc & Hr & _).
    cbn [out_bytes out_count out_queue].
    rewrite Hqb, Hb, Hr, Hc, Hb.
    replace (len_ - (rc + n)) with (len_ - rc - n) by lia.
    assert (Hlt : length (take (Z.to_nat n) (pending_bytes e)) = Z.to_nat n).
    { rewrite length_take, Hlen. lia. }
    split; [|split; [|split; [|exact Hwf'']]].
    + destruct Hn as (Hn0 & Hn1 & [Hn2 | Hn2]).
      * rewrite take_app_ge by lia. rewrite Hlen.
        rewrite (take_ge (pending_bytes e)) by lia.
        do 2 f_equal. lia.
      * rewrite take_app_le by lia.
        replace (Z.to_nat (len_ - rc - n)) with 0%nat by lia.
        rewrite take_0, app_nil_r. f_equal. lia.
    + rewrite length_app, Hlt. lia.
    + destruct Hn as (Hn0 & Hn1 & [Hn2 | Hn2]).
      * rewrite drop_app_ge by lia. rewrite Hlen.
        rewrite (drop_ge (pending_bytes e)) by lia. cbn [app].
        f_equal. lia.
      * rewrite drop_app_le by lia.
        replace (Z.to_nat (len_ - rc - n)) with 0%nat by lia.
        rewrite drop_0. do 2 f_equal. lia.
Qed.

Lemma pending_bytes_same `{virtio_wl_h} (e e' : virtwl_vfd_qentry) :
  hdr e' = hdr e -> len e' = len e -> data_offset e' = data_offset e ->
  pending_bytes e' = pending_bytes e /\ data_len e' = data_len e /\
  (wf_entry e -> wf_entry e').
Proof.
  intros Hh Hl Hd. unfold pending_bytes, wf_entry, data_len.
  rewrite Hh, Hl, Hd. auto.
Qed.

(** A drain of handles leaves the queued payload as it is. *)
Lemma vfd_out_vfds_loop_bytes `{virtio_wl_h} (t : gmap Z Z) (count : Z)
    (q : list virtwl_vfd_qentry) (acc : list Z) (vq : virtqueue_in) :
  queued_bytes (vr_queue (vfd_out_vfds_loop t count q acc vq)) = queued_bytes q /\
  (Forall wf_entry q -> Forall wf_entry (vr_queue (vfd_out_vfds_loop t count q acc vq))).
Proof.
  revert acc vq. induction q as [|e q IH]; intros acc vq.
  - cbn. auto.
  - cbn [vfd_out_vfds_loop].
    destruct (count <=? _); [cbn; auto|].
    assert (Hskip : forall acc' vq',
      queued_bytes (e :: vr_queue (vfd_out_vfds_loop t count q acc' vq'))
      = queued_bytes (e :: q) /\
      (Forall wf_entry (e :: q) ->
       Forall wf_entry (e :: vr_queue (vfd_out_vfds_loop t count q acc' vq')))).
    { intros acc' vq'. destruct (IH acc' vq') as [Hb Hw].
      rewrite !queued_bytes_cons, Hb. split; [reflexivity|].
      intros Hwf. inversion Hwf; subst. constructor; auto. }
    destruct (_ <=? 0); [apply Hskip|].
    destruct (bool_decide _) eqn:Et; cbn [negb]; [|apply Hskip].
    apply bool_decide_eq_true in Et.
    destruct (vfds_for t _ _ 0 e) as [[e' found] msgs] eqn:Ef.
    apply vfds_for_fields in Ef as (Hh & Hl & Hd & _).
    destruct (pending_bytes_same e e' Hh Hl Hd) as (Hp & Hdl & Hwe).
    assert (Et' : hdr_type (hdr e') = VIRTIO_WL_CMD_VFD_RECV) by now rewrite Hh.
    destruct (vfd_qentry_free_if_empty_cases (fold_left vq_printk msgs vq) e' Et')
      as [[-> Hc] | [-> Hc]];
      cbn [vr_queue option_list option_rect app];
      match goal with
      | |- context [vfd_out_vfds_loop t count q ?acc' ?vq'] =>
        destruct (IH acc' vq') as [Hb Hw]
      end.
    + rewrite !queued_bytes_cons, Hb, Hp. split; [reflexivity|].
      intros Hwf. inversion Hwf; subst. constructor; auto.
    + rewrite queued_bytes_cons, Hb, <- Hp.
      rewrite (pending_bytes_exhausted e'); [|destruct Hc; lia].
      split; [reflexivity|]. intros Hwf. inversion Hwf; subst. auto.
Qed.

(** ** Receive: [virtwl_vfd_recv] *)

(** A receive call with room for at least one byte on a vfd that has
    payload queued returns after one pass of the drains: it delivers the
    first bytes of the queued payload, as many as the destination takes,
    and leaves the rest queued in order. *)
Lemma virtwl_vfd_recv_bytes `{virtio_wl_h} (fuel : nat) (vi : virtwl_info) (addr : Z)
    (vfd : virtwl_vfd) (nonblock : bool) (copy_ok : Z -> Z -> bool) (cap : Z)
    (have_vfds : bool) (count : Z) (script : list recv_wait) :
  0 <= sizeof_recv ->
  (forall o n, copy_ok o n = true) ->
  objs vi !! addr = Some vfd ->
  Forall wf_entry (in_queue vfd) ->
  0 < cap -> queued_bytes (in_queue vfd) <> [] ->
  exists vi' vfd' vf,
    virtwl_vfd_recv (S fuel) vi addr nonblock copy_ok cap have_vfds count script =
      Some (Done (vi', RecvOk (Z.min cap (Z.of_nat (length (queued_bytes (in_queue vfd)))))
                         (take (Z.to_nat cap) (queued_bytes (in_queue vfd))) vf)) /\
    objs vi' !! addr = Some vfd' /\
    queued_bytes (in_queue vfd') = drop (Z.to_nat cap) (queued_bytes (in_queue vfd)) /\
    Forall wf_entry (in_queue vfd').
Proof.
  intros Hs Hok Hobj Hwf Hcap Hne. cbn [virtwl_vfd_recv]. rewrite Hobj.
  destruct (vfd_out_loop_bytes copy_ok cap Hs Hok (in_queue vfd) 0 (vq_in vi) Hwf
              ltac:(lia)) as (Hb & Hc & Hq & Hw).
  fold (vfd_out_locked copy_ok (in_queue vfd) (vq_in vi) cap) in Hb, Hc, Hq, Hw.
  rewrite Z.sub_0_r in Hb, Hq.
  destruct (in_queue vfd) as [|e q] eqn:Eq; [now destruct Hne|].
  set (r := vfd_out_locked copy_ok (e :: q) (vq_in vi) cap) in *.
  set (B := queued_bytes (e :: q)) in *.
  assert (HB : (0 < length B)%nat) by (destruct B; [now destruct Hne | cbn; lia]).
  assert (Hcount : out_count r = Z.min cap (Z.of_nat (length B))).
  { rewrite Hc, Hb, length_take. lia. }
  assert (E1 : (out_count r <? 0) = false) by (apply Z.ltb_ge; lia).
  assert (E2 : (out_count r =? 0) = false) by (apply Z.eqb_neq; lia).
  rewrite E1, E2. cbn [andb]. rewrite <- Hcount, <- Hb.
  destruct (have_vfds && negb (count =? 0)).
  - match goal with
    | |- context [vfd_out_vfds_locked ?t ?q' ?vq' count] =>
      destruct (vfd_out_vfds_loop_bytes t count q' [] vq') as [Hvb Hvw];
        fold (vfd_out_vfds_locked t q' vq' count) in Hvb, Hvw
    end.
    eexists _, _, _. split; [reflexivity|]. cbn [objs set_vq_in set_objs].
    rewrite lookup_insert_eq. split; [reflexivity|]. cbn [in_queue set_in_queue].
    split; [congruence | auto].
  - eexists _, _, _. split; [reflexivity|]. cbn [objs set_vq_in set_objs].
    rewrite lookup_insert_eq. split; [reflexivity|]. cbn [in_queue set_in_queue].
    split; [exact Hq | exact Hw].
Qed.

(** When a pass of the two drains yields nothing and leaves the pending
    queue and the in-queue as they are, the receive call does not return:
    it repeats the pass. *)
Lemma virtwl_vfd_recv_spins `{virtio_wl_h} (vi : virtwl_info) (addr : Z)
    (vfd : virtwl_vfd) (nonblock : bool) (copy_ok : Z -> Z -> bool) (len_ count : Z)
    (script : list recv_wait) :
  objs vi !! addr = Some vfd -> in_queue vfd <> [] -> count <> 0 ->
  let r := vfd_out_locked copy_ok (in_queue vfd) (vq_in vi) len_ in
  let v := vfd_out_vfds_locked (vfds vi) (out_queue r) (out_vq r) count in
  out_count r = 0 -> vr_vfds v = [] ->
  vr_queue v = in_queue vfd -> vr_vq v = vq_in vi ->
  forall fuel,
    virtwl_vfd_recv fuel vi addr nonblock copy_ok len_ true count script = None.
Proof.
  intros Hobj Hne Hcount r v Hc Hv Hq Hvq fuel.
  induction fuel as [|fuel IH]; [reflexivity|].
  cbn [virtwl_vfd_recv]. rewrite Hobj.
  destruct (in_queue vfd) as [|e q] eqn:Eq; [now destruct Hne|].
  fold r. rewrite Hc. change (0 <? 0) with false. cbn [andb set_vq_in set_objs vfds objs].
  apply Z.eqb_neq in Hcount. rewrite Hcount. cbn [negb].
  fold v. rewrite Hv, Hq, Hvq. cbn [length].
  change (Z.of_nat 0 =? 0) with true. cbn [andb].
  rewrite insert_insert_eq.
  replace (set_in_queue vfd (e :: q)) with vfd by (rewrite <- Eq; destruct vfd; reflexivity).
  rewrite (insert_id (objs vi) addr vfd Hobj).
  change (0 =? 0) with true. cbn [andb].
  match goal with
  | |- virtwl_vfd_recv fuel ?vi' _ _ _ _ _ _ _ = _ =>
    replace vi' with vi by (destruct vi; reflexivity)
  end.
  exact IH.
Qed.

(** C2, as stated, fails for a destination without room: two bytes are
    queued, more than the capacity 0, and the receive call does not return
    0 bytes: it does not return at all. *)
Lemma recv_without_room_never_returns :
  ~ @recv_returns_capacity upstream_h vi_one 100 true copy_always 0 true 8 [].
Proof.
  intros (fuel & vi' & data & vf & Hr).
  rewrite (@virtwl_vfd_recv_spins upstream_h vi_one 100
             {| vfd_id := 1; vfd_flags := 4; vfd_pfn := 0; vfd_size := 0;
                in_queue := [qentry_hi] |}) in Hr;
    [discriminate Hr | reflexivity | discriminate | discriminate | reflexivity..].
Qed.

(** C2, amended: when the pending queue of a vfd holds more payload bytes
    than the destination of a receive call takes, and the destination has
    room for at least one byte, the call returns after one pass with
    exactly the destination capacity, the first bytes of the queued
    payload in arrival order; a later receive call on the vfd with room
    for the rest returns the remaining bytes in order, so that the two
    calls together deliver the queued payload once, without loss or
    duplication, and nothing of it stays queued. *)
Theorem virtwl_vfd_recv_partial_read `{virtio_wl_h} (fuel1 fuel2 : nat)
    (vi : virtwl_info) (addr : Z) (vfd : virtwl_vfd) (copy_ok : Z -> Z -> bool)
    (cap1 cap2 : Z) (nonblock1 nonblock2 have_vfds1 have_vfds2 : bool) (count1 count2 : Z)
    (script1 script2 : list recv_wait) :
  0 <= sizeof_recv ->
  (forall o n, copy_ok o n = true) ->
  objs vi !! addr = Some vfd ->
  Forall wf_entry (in_queue vfd) ->
  let queued := queued_bytes (in_queue vfd) in
  0 < cap1 < Z.of_nat (length queued) ->
  Z.of_nat (length queued) - cap1 <= cap2 ->
  exists vi1 vf1 vi2 vf2 vfd2,
    virtwl_vfd_recv (S fuel1) vi addr nonblock1 copy_ok cap1 have_vfds1 count1 script1 =
      Some (Done (vi1, RecvOk cap1 (take (Z.to_nat cap1) queued) vf1)) /\
    virtwl_vfd_recv (S fuel2) vi1 addr nonblock2 copy_ok cap2 have_vfds2 count2 script2 =
      Some (Done (vi2, RecvOk (Z.of_nat (length queued) - cap1)
                         (drop (Z.to_nat cap1) queued) vf2)) /\
    Z.of_nat (length (take (Z.to_nat cap1) queued)) = cap1 /\
    take (Z.to_nat cap1) queued ++ drop (Z.to_nat cap1) queued = queued /\
    objs vi2 !! addr = Some vfd2 /\
    queued_bytes (in_queue vfd2) = [].
Proof.
  intros Hs Hok Hobj Hwf queued Hc1 Hc2.
  assert (Hne : queued_bytes (in_queue vfd) <> []).
  { fold queued. destruct queued; [cbn in Hc1; lia | discriminate]. }
  destruct (virtwl_vfd_recv_bytes fuel1 vi addr vfd nonblock1 copy_ok cap1 have_vfds1
              count1 script1 Hs Hok Hobj Hwf ltac:(lia) Hne)
    as (vi1 & vfd1 & vf1 & Hr1 & Hobj1 & Hq1 & Hwf1).
  fold queued in Hr1, Hq1.
  assert (Hdrop : length (drop (Z.to_nat cap1) queued)
                  = (length queued - Z.to_nat cap1)%nat) by apply length_drop.
  assert (Hne1 : queued_bytes (in_queue vfd1) <> []).
  { rewrite Hq1. intros E. rewrite E in Hdrop. cbn in Hdrop. lia. }
  destruct (virtwl_vfd_recv_bytes fuel2 vi1 addr vfd1 nonblock2 copy_ok cap2 have_vfds2
              count2 script2 Hs Hok Hobj1 Hwf1 ltac:(lia) Hne1)
    as (vi2 & vfd2 & vf2 & Hr2 & Hobj2 & Hq2 & _).
  rewrite Hq1 in Hr2, Hq2.
  rewrite take_ge in Hr2 by lia. rewrite drop_ge in Hq2 by lia.
  replace (Z.min cap1 (Z.of_nat (length queued))) with cap1 in Hr1 by lia.
  replace (Z.min cap2 (Z.of_nat (length (drop (Z.to_nat cap1) queued))))
    with (Z.of_nat (length queued) - cap1) in Hr2 by lia.
  exists vi1, vf1, vi2, vf2, vfd2.
  split; [exact Hr1|]. split; [exact Hr2|].
  split; [rewrite length_take; lia|].
  split; [apply take_drop|]. split; [exact Hobj2 | exact Hq2].
Qed.

Lemma virtwl_vfd_recv_partial_read_witness :
  let vfd := {| vfd_id := 1; vfd_flags := 4; vfd_pfn := 0; vfd_size := 0;
                in_queue := [qentry_hi; qentry_abc] |} in
  let vi := set_objs vi_one {[ 100 := vfd ]} in
  (0 <= @sizeof_recv upstream_h /\
   Forall (@wf_entry upstream_h) (in_queue vfd) /\
   0 < 3 < Z.of_nat (length (@queued_bytes upstream_h (in_queue vfd))) /\
   Z.of_nat (length (@queued_bytes upstream_h (in_queue vfd))) - 3 <= 64) /\
  exists vi1 vf1 vi2 vf2,
    @virtwl_vfd_recv upstream_h 1 vi 100 true copy_always 3 true 8 [] =
      Some (Done (vi1, RecvOk 3 [104; 105; 97] vf1)) /\
    @virtwl_vfd_recv upstream_h 1 vi1 100 true copy_always 64 true 8 [] =
      Some (Done (vi2, RecvOk 2 [98; 99] vf2)).
Proof.
  intros vfd vi.
  assert (H0 : 0 <= @sizeof_recv upstream_h) by (cbn; lia).
  assert (Hwf : Forall (@wf_entry upstream_h) (in_queue vfd)).
  { repeat constructor; cbn; lia. }
  assert (H1 : 0 < 3 < Z.of_nat (length (@queued_bytes upstream_h (in_queue vfd))))
    by (vm_compute; split; reflexivity).
  assert (H2 : Z.of_nat (length (@queued_bytes upstream_h (in_queue vfd))) - 3 <= 64)
    by (vm_compute; discriminate).
  split; [auto|].
  destruct (@virtwl_vfd_recv_partial_read upstream_h 0 0 vi 100 vfd copy_always 3 64
              true true true true 8 8 [] [] H0 (fun _ _ => eq_refl) eq_refl Hwf H1 H2)
    as (vi1 & vf1 & vi2 & vf2 & vfd2 & Hr1 & Hr2 & _).
  exists vi1, vf1, vi2, vf2. split; [exact Hr1 | exact Hr2].
Defined.





(** ** The handle table and the vfd memory stay in agreement *)

Lemma table_ok_ext (vi vi' : virtwl_info) :
  vfds vi' = vfds vi -> objs vi' = objs vi -> table_ok vi -> table_ok vi'.
Proof. unfold table_ok. intros -> ->. auto. Qed.

(** Changing a vfd in place without touching its id. *)
Lemma table_ok_update (vi : virtwl_info) (ptr : Z) (v v' : virtwl_vfd) :
  objs vi !! ptr = Some v -> vfd_id v' = vfd_id v ->
  table_ok vi -> table_ok (set_objs vi (<[ptr := v']> (objs vi))).
Proof.
  intros Hv Hid Hok id p Hp. cbn in *.
  destruct (Hok id p Hp) as (w & Hw & Hwid).
  destruct (decide (p = ptr)) as [->|Hne].
  - exists v'. rewrite lookup_insert_eq. split; [reflexivity|]. congruence.
  - exists w. rewrite lookup_insert_ne by congruence. auto.
Qed.

(** Registering a vfd at a fresh address under the id it carries. *)
Lemma table_ok_register (vi : virtwl_info) (id addr : Z) (v : virtwl_vfd) :
  objs vi !! addr = None -> vfd_id v = id ->
  table_ok vi ->
  table_ok (set_objs (set_vfds vi (<[id := addr]> (vfds vi))) (<[addr := v]> (objs vi))).
Proof.
  intros Hfresh Hid Hok id' p Hp. cbn in *.
  destruct (decide (id' = id)) as [->|Hne].
  - rewrite lookup_insert_eq in Hp. injection Hp as <-.
    exists v. rewrite lookup_insert_eq. auto.
  - rewrite lookup_insert_ne in Hp by congruence.
    destruct (Hok id' p Hp) as (w & Hw & Hwid).
    exists w. rewrite lookup_insert_ne by congruence. auto.
Qed.

(** Unlinking the id a vfd carries and freeing the vfd. *)
Lemma table_ok_unregister (vi : virtwl_info) (addr : Z) (v : virtwl_vfd) :
  objs vi !! addr = Some v ->
  table_ok vi ->
  table_ok (set_objs (set_vfds vi (delete (vfd_id v) (vfds vi))) (delete addr (objs vi))).
Proof.
  intros Hv Hok id p Hp. cbn in *.
  destruct (decide (id = vfd_id v)) as [->|Hne].
  - rewrite lookup_delete_eq in Hp. discriminate.
  - rewrite lookup_delete_ne in Hp by congruence.
    destruct (Hok id p Hp) as (w & Hw & Hwid).
    exists w. rewrite lookup_delete_ne; [auto|].
    intros ->. congruence.
Qed.

(** X1: the dispatcher keeps table and memory in agreement, whatever the
    message.  It goes through an invalid pointer in one case only: a
    new-handle message with an acceptable id for which [kzalloc] fails,
    because [virtwl_vfd_alloc] then returns an [ERR_PTR] and
    [vq_handle_new] tests for NULL. *)
Theorem vq_dispatch_hdr_keeps_table_ok (vi : virtwl_info) (kz : option Z) (len_ : Z)
    (hdr_ : inbuf) :
  table_ok vi ->
  is_u32 (msg_vfd_id hdr_) ->
  (forall addr, kz = Some addr -> objs vi !! addr = None) ->
  (forall vi' b, vq_dispatch_hdr vi kz len_ hdr_ = Done (vi', b) -> table_ok vi') /\
  (vq_dispatch_hdr vi kz len_ hdr_ = Oops <->
   hdr_type hdr_ = VIRTIO_WL_CMD_VFD_NEW /\ msg_vfd_id hdr_ <> 0 /\
   valid_host_id (msg_vfd_id hdr_) /\ kz = None).
Proof.
  intros Hok Hu Hfresh.
  assert (Hother : forall t, hdr_type hdr_ = t ->
            t <> VIRTIO_WL_CMD_VFD_NEW -> t <> VIRTIO_WL_CMD_VFD_RECV ->
            let tail :=
              let '(vq, ret) :=
                vq_return_inbuf_locked (vq_in (printk vi (MsgUnhandledCtrl t))) hdr_ in
              if negb (ret =? 0) then
                Done (set_vq_in (printk vi (MsgUnhandledCtrl t))
                        (kfree_inbuf (vq_printk vq (MsgReturnInbufFailed ret)) hdr_), true)
              else Done (set_vq_in (printk vi (MsgUnhandledCtrl t)) vq, true) in
            (forall vi' b, tail = Done (vi', b) -> table_ok vi') /\
            (tail = @Oops (virtwl_info * bool) <->
             hdr_type hdr_ = VIRTIO_WL_CMD_VFD_NEW /\ msg_vfd_id hdr_ <> 0 /\
             valid_host_id (msg_vfd_id hdr_) /\ kz = None)).
  { intros t Ht Hn Hr. cbv zeta.
    destruct (vq_dispatch_tail (printk vi (MsgUnhandledCtrl t)) hdr_) as (vq' & -> & _).
    split.
    - intros vi' b [= <- <-]. revert Hok. apply table_ok_ext; reflexivity.
    - split; [discriminate|]. intros (E & _). congruence. }
  unfold vq_dispatch_hdr.
  destruct (hdr_type hdr_) eqn:Et;
    try (apply (Hother _ eq_refl); discriminate).
  - (* a new handle pushed by the host *)
    clear Hother. unfold vq_handle_new. set (id := msg_vfd_id hdr_) in *.
    destruct (id =? 0) eqn:E0.
    { apply Z.eqb_eq in E0. dispatch_tail. split.
      - intros vi' b [= <- <-]. revert Hok. apply table_ok_ext; reflexivity.
      - split; [discriminate|]. intros (_ & Hnz & _). contradiction. }
    apply Z.eqb_neq in E0.
    destruct (_ || _) eqn:Ev.
    { dispatch_tail. split.
      - intros vi' b [= <- <-]. revert Hok. apply table_ok_ext; reflexivity.
      - split; [discriminate|]. intros (_ & _ & Hval & _).
        apply valid_host_id_test in Hval. congruence. }
    apply valid_host_id_test in Ev.
    destruct kz as [addr|].
    2:{ split; [discriminate|]. split; auto. }
    specialize (Hfresh addr eq_refl).
    destruct (idr_alloc _ addr _ _) as [t ret] eqn:Ea.
    apply idr_alloc_spec in Ea. cbn [vfds virtwl_vfd_alloc set_objs] in Ea.
    assert (Hret : (0 <= int_of_u32 id <= ret /\ t = <[ret := addr]> (vfds vi) /\
                    0 < ret /\ ret = id) \/ (ret < 0 /\ t = vfds vi)).
    { destruct Ea as [(Hs & Ht' & Hn & Hmax) | Hneg]; [left | right; exact Hneg].
      unfold is_u32 in Hu. revert Hs Hmax. unfold int_of_u32, u32, INT_MAX.
      destruct (id <? 2 ^ 31) eqn:El; [|lia].
      apply Z.ltb_lt in El. rewrite Z.mod_small by lia.
      destruct (id + 1 <? 2 ^ 31) eqn:El2.
      - apply Z.ltb_lt in El2.
        assert (E1 : (0 <? id + 1) = true) by (apply Z.ltb_lt; lia).
        rewrite E1. intros. repeat split; try assumption; lia.
      - apply Z.ltb_ge in El2.
        assert (E1 : (0 <? id + 1 - 2 ^ 32) = false) by (apply Z.ltb_ge; lia).
        rewrite E1. intros. repeat split; try assumption; lia. }
    destruct (ret <=? 0) eqn:Er.
    + apply Z.leb_le in Er. destruct Hret as [(_ & _ & Hpos & _) | (_ & ->)]; [lia|].
      dispatch_tail. split.
      * intros vi' b [= <- <-]. revert Hok. apply table_ok_ext; [reflexivity|].
        cbn. now rewrite delete_insert_id.
      * split; [discriminate|]. intros (_ & _ & _ & E). discriminate.
    + apply Z.leb_gt in Er. destruct Hret as [(_ & -> & _ & ->) | (Hneg & _)]; [|lia].
      dispatch_tail. split.
      * intros vi' b [= <- <-].
        pose proof (table_ok_register vi id addr
                      {| vfd_id := id; vfd_flags := new_flags hdr_; vfd_pfn := new_pfn hdr_;
                         vfd_size := new_size hdr_; in_queue := [] |}
                      Hfresh eq_refl Hok) as Hreg.
        revert Hreg. apply table_ok_ext; [reflexivity|].
        cbn. now rewrite insert_insert_eq.
      * split; [discriminate|]. intros (_ & _ & _ & E). discriminate.
  - (* data for a vfd *)
    clear Hother. unfold vq_handle_recv, idr_find.
    destruct (vfds vi !! msg_vfd_id hdr_) as [ptr|] eqn:Ef.
    2:{ dispatch_tail. split.
        - intros vi' b [= <- <-]. revert Hok. apply table_ok_ext; reflexivity.
        - split; [discriminate|]. intros (E & _). discriminate. }
    destruct (Hok _ _ Ef) as (v & Hv & Hid). rewrite Hv.
    destruct (negb _).
    { dispatch_tail. split.
      - intros vi' b [= <- <-]. revert Hok. apply table_ok_ext; reflexivity.
      - split; [discriminate|]. intros (E & _). discriminate. }
    split.
    + intros vi' b [= <- <-]. now apply (table_ok_update vi ptr v).
    + split; [discriminate|]. intros (E & _). discriminate.
Qed.

Lemma table_ok_vi_empty : table_ok vi_empty.
Proof. intros id ptr Hp. cbn in Hp. rewrite lookup_empty in Hp. discriminate. Qed.

Lemma table_ok_vi_one : table_ok vi_one.
Proof.
  intros id ptr Hp. cbn in Hp. apply lookup_singleton_Some in Hp as [<- <-].
  eexists. split; [apply lookup_singleton_eq | reflexivity].
Qed.

Lemma vq_dispatch_hdr_keeps_table_ok_witness :
  let hdr_ := push_new 0x40000005 in
  (table_ok vi_one /\ is_u32 (msg_vfd_id hdr_) /\
   forall addr, Some 7 = Some addr -> objs vi_one !! addr = None) /\
  exists vi',
    vq_dispatch_hdr vi_one (Some 7) 32 hdr_ = Done (vi', true) /\
    vfds vi' !! 0x40000005 = Some 7 /\ table_ok vi'.
Proof.
  intros hdr_.
  assert (Hu : is_u32 (msg_vfd_id hdr_)) by (unfold is_u32; cbn; lia).
  assert (Hf : forall addr, Some 7 = Some addr -> objs vi_one !! addr = None).
  { intros addr [= <-]. reflexivity. }
  split; [auto using table_ok_vi_one|].
  eexists. split; [reflexivity|]. split; [reflexivity|].
  exact (proj1 (vq_dispatch_hdr_keeps_table_ok vi_one (Some 7) 32 hdr_
                  table_ok_vi_one Hu Hf) _ true eq_refl).
Defined.

(** ** New: the other outcomes of [do_new] *)

(** The table has no free id in the range of guest ids. *)
Lemma idr_alloc_full (t : gmap Z Z) (ptr start end_ : Z) :
  0 <= start -> 0 < end_ ->
  (forall k, start <= k < end_ -> t !! k <> None) ->
  idr_alloc t ptr start end_ = (t, - ENOSPC).
Proof.
  intros Hs He Hfull. unfold idr_alloc.
  assert (Es : (start <? 0) = false) by (apply Z.ltb_ge; lia).
  assert (Ee : (0 <? end_) = true) by (apply Z.ltb_lt; lia).
  rewrite Es, Ee.
  destruct (idr_scan _ t start (end_ - 1)) as [r|] eqn:Escan; [|reflexivity].
  apply idr_scan_spec in Escan as [Hr Hn]. exfalso. apply (Hfull r); [lia | exact Hn].
Qed.

(** The state and the result of [do_new] when the host takes the request
    and acknowledges it with success. *)
Lemma do_new_served `{virtio_wl_h} (vi : virtwl_info) (addr : Z)
    (type : virtwl_ioctl_type) (size_ : Z) (nonblock : bool)
    (script : list out_attempt) (ack : virtio_wl_ctrl_vfd_new)
    (qevs : list event) (j : Z) :
  type = VIRTWL_IOCTL_NEW_CTX \/ type = VIRTWL_IOCTL_NEW_ALLOC ->
  objs vi !! addr = None ->
  1 <= j < VIRTWL_MAX_ALLOC -> vfds vi !! j = None ->
  vq_queue_out nonblock script = Some (0, qevs) ->
  host_success (ack_type ack) = true ->
  exists id,
    do_new vi true (Some addr) type size_ nonblock script ack =
      Some (Done (set_objs (set_vfds vi (<[id := addr]> (vfds vi)))
                    (<[addr := {| vfd_id := id; vfd_flags := ack_flags ack;
                                  vfd_pfn := ack_pfn ack; vfd_size := ack_size ack;
                                  in_queue := [] |}]> (objs vi)),
                  inl addr,
                  (ctrl_new_request type id size_ :: qevs) ++ [EvCompletion])) /\
    1 <= id <= j /\ vfds vi !! id = None /\
    (forall k, 1 <= k < id -> vfds vi !! k <> None).
Proof.
  intros Ht Hfresh Hj Hfree Hq Hsucc.
  destruct (idr_alloc_complete (vfds vi) addr 1 VIRTWL_MAX_ALLOC j)
    as (id & Ealloc & Hid & Hnone & Hsmall); [lia | lia | lia | exact Hfree |].
  assert (Herr : virtwl_resp_err (ack_type ack) = 0).
  { destruct (ack_type ack); try discriminate Hsucc; reflexivity. }
  assert (Er : (id <=? 0) = false) by (apply Z.leb_gt; lia).
  exists id. split; [|split; [lia|split; [exact Hnone|exact Hsmall]]].
  unfold do_new.
  destruct Ht as [-> | ->];
    (cbn [negb virtwl_vfd_alloc vfds set_objs];
     rewrite Ealloc, Er, Hq; change (0 =? 0) with true; cbn [negb];
     rewrite Herr; change (0 =? 0) with true; cbn [negb];
     do 3 f_equal;
     unfold set_vfds, set_objs, set_vfd_attrs, set_vfd_id, vfd_zero;
     cbn; rewrite !insert_insert_eq; reflexivity).
Qed.

(** X2: a request the host acknowledges with success leaves a new vfd
    registered under the smallest free guest id, with the size, pfn and
    flags of the acknowledgment and an empty pending queue; the host saw
    the request, carrying that id, before the completion; nothing else of
    the device changes and table and memory still agree. *)
Theorem do_new_success `{virtio_wl_h} (vi : virtwl_info) (addr : Z)
    (type : virtwl_ioctl_type) (size_ : Z) (nonblock : bool)
    (script : list out_attempt) (ack : virtio_wl_ctrl_vfd_new)
    (qevs : list event) (j : Z) :
  type = VIRTWL_IOCTL_NEW_CTX \/ type = VIRTWL_IOCTL_NEW_ALLOC ->
  objs vi !! addr = None ->
  1 <= j < VIRTWL_MAX_ALLOC -> vfds vi !! j = None ->
  vq_queue_out nonblock script = Some (0, qevs) ->
  host_success (ack_type ack) = true ->
  exists id,
    do_new vi true (Some addr) type size_ nonblock script ack =
      Some (Done (set_objs (set_vfds vi (<[id := addr]> (vfds vi)))
                    (<[addr := {| vfd_id := id; vfd_flags := ack_flags ack;
                                  vfd_pfn := ack_pfn ack; vfd_size := ack_size ack;
                                  in_queue := [] |}]> (objs vi)),
                  inl addr,
                  (ctrl_new_request type id size_ :: qevs) ++ [EvCompletion])) /\
    1 <= id <= j /\ vfds vi !! id = None /\
    (forall k, 1 <= k < id -> vfds vi !! k <> None) /\
    (table_ok vi ->
     table_ok (set_objs (set_vfds vi (<[id := addr]> (vfds vi)))
                 (<[addr := {| vfd_id := id; vfd_flags := ack_flags ack;
                               vfd_pfn := ack_pfn ack; vfd_size := ack_size ack;
                               in_queue := [] |}]> (objs vi)))).
Proof.
  intros Ht Hfresh Hj Hfree Hq Hsucc.
  destruct (do_new_served vi addr type size_ nonblock script ack qevs j
              Ht Hfresh Hj Hfree Hq Hsucc) as (id & Hd & Hid & Hnone & Hsmall).
  exists id. repeat (split; [assumption|]).
  intros Hok. now apply table_ok_register.
Qed.

Lemma do_new_success_witness :
  let ack := {| ack_type := VIRTIO_WL_RESP_VFD_NEW; ack_flags := 3; ack_pfn := 0x1000;
                ack_size := 4096 |} in
  (objs vi_one !! 200 = None /\ 1 <= 2 < @VIRTWL_MAX_ALLOC upstream_h /\
   vfds vi_one !! 2 = None /\ vq_queue_out false [queued] = Some (0, [EvAddSgs 0; EvKick]) /\
   host_success (ack_type ack) = true) /\
  exists id vi',
    @do_new upstream_h vi_one true (Some 200) VIRTWL_IOCTL_NEW_ALLOC 10 false [queued] ack =
      Some (Done (vi', inl 200,
                  (EvMessage VIRTIO_WL_CMD_VFD_NEW id 3 10 :: [EvAddSgs 0; EvKick])
                  ++ [EvCompletion])) /\
    1 <= id <= 2 /\ vfds vi' !! id = Some 200.
Proof.
  intros ack.
  assert (H1 : objs vi_one !! 200 = None) by reflexivity.
  assert (H2 : 1 <= 2 < @VIRTWL_MAX_ALLOC upstream_h) by (cbn; lia).
  assert (H3 : vfds vi_one !! 2 = None) by reflexivity.
  assert (H4 : vq_queue_out false [queued] = Some (0, [EvAddSgs 0; EvKick])) by reflexivity.
  split; [auto|].
  destruct (@do_new_success upstream_h vi_one 200 VIRTWL_IOCTL_NEW_ALLOC 10 false
              [queued] ack _ 2 (or_intror eq_refl) H1 H2 H3 H4 eq_refl)
    as (id & Hd & Hid & _).
  exists id. eexists. split; [exact Hd|]. split; [exact Hid|].
  cbn. apply lookup_insert_eq.
Defined.

(** X3: every error return of [do_new] leaves the device as it found it: no
    id stays taken and no vfd stays allocated, whether the type was
    unknown, memory or ids ran out, the request could not be queued or the
    host refused it.  The call goes through an invalid pointer exactly
    when [kzalloc] fails for the vfd, because [virtwl_vfd_alloc] then
    returns an [ERR_PTR] and [do_new] tests for NULL. *)
Theorem do_new_error_leaves_device `{virtio_wl_h} (vi : virtwl_info) (kz_ctrl : bool)
    (kz_vfd : option Z) (type : virtwl_ioctl_type) (size_ : Z) (nonblock : bool)
    (script : list out_attempt) (ack : virtio_wl_ctrl_vfd_new) :
  (forall addr, kz_vfd = Some addr -> objs vi !! addr = None) ->
  (forall vi' e evs,
     do_new vi kz_ctrl kz_vfd type size_ nonblock script ack = Some (Done (vi', inr e, evs)) ->
     vi' = vi /\ e <> 0) /\
  (do_new vi kz_ctrl kz_vfd type size_ nonblock script ack = Some Oops <->
   (type = VIRTWL_IOCTL_NEW_CTX \/ type = VIRTWL_IOCTL_NEW_ALLOC) /\
   kz_ctrl = true /\ kz_vfd = None).
Proof.
  intros Hfresh.
  assert (Hbody : forall type',
    type' = VIRTWL_IOCTL_NEW_CTX \/ type' = VIRTWL_IOCTL_NEW_ALLOC ->
    let body :=
      if negb kz_ctrl then Some (Done (vi, inr (- ENOMEM), []))
      else
        match kz_vfd with
        | None => Some Oops
        | Some addr =>
          let vi1 := virtwl_vfd_alloc vi addr in
          let '(t, ret) := idr_alloc (vfds vi1) addr 1 VIRTWL_MAX_ALLOC in
          let vi2 := set_vfds vi1 t in
          if ret <=? 0 then Some (Done (virtwl_vfd_free vi2 addr, inr ret, [EvFree addr]))
          else
            let vfd := set_vfd_id vfd_zero ret in
            let vi3 := set_objs vi2 (<[addr := vfd]> (objs vi2)) in
            let remove_vfd (ret : Z) (evs : list event) :=
              Some (Done (virtwl_vfd_free (virtwl_vfd_lock_unlink vi3 vfd) addr, inr ret,
                          evs ++ [EvUnlink (vfd_id vfd); EvFree addr])) in
            let ctrl_new := ctrl_new_request type' (vfd_id vfd) size_ in
            match vq_queue_out nonblock script with
            | None => None
            | Some (ret, evs) =>
              let evs := ctrl_new :: evs in
              if negb (ret =? 0) then remove_vfd ret evs
              else
                let ret := virtwl_resp_err (ack_type ack) in
                if negb (ret =? 0) then remove_vfd ret (evs ++ [EvCompletion])
                else
                  let vfd' := set_vfd_attrs vfd (ack_size ack) (ack_pfn ack) (ack_flags ack) in
                  Some (Done (set_objs vi3 (<[addr := vfd']> (objs vi3)), inl addr,
                              evs ++ [EvCompletion]))
            end
        end in
    (forall vi' e evs, body = Some (Done (vi', inr e, evs)) -> vi' = vi /\ e <> 0) /\
    (body = Some Oops <-> kz_ctrl = true /\ kz_vfd = None)).
  { intros type' _ body. subst body.
    destruct kz_ctrl; cbn [negb].
    2:{ split; [intros vi' e evs [= <- <- _]; split; [reflexivity | discriminate]|].
        split; [discriminate | intros [E _]; discriminate]. }
    destruct kz_vfd as [addr|].
    2:{ split; [discriminate | tauto]. }
    specialize (Hfresh addr eq_refl).
    split; [|split; [|intros [_ E]; discriminate]].
    2:{ destruct (idr_alloc _ addr 1 _) as [t ret].
        destruct (ret <=? 0); [discriminate|].
        destruct (vq_queue_out nonblock script) as [[r e]|]; [|discriminate].
        destruct (negb (r =? 0)); [discriminate|].
        destruct (negb (_ =? 0)); discriminate. }
    destruct (idr_alloc _ addr 1 _) as [t ret] eqn:Ea.
    apply idr_alloc_spec in Ea. cbn [vfds virtwl_vfd_alloc set_objs] in Ea.
    assert (Hrestore : forall v,
      virtwl_vfd_free
        (virtwl_vfd_lock_unlink
           (set_objs (set_vfds (virtwl_vfd_alloc vi addr) (<[ret := addr]> (vfds vi)))
              (<[addr := v]> (objs (set_vfds (virtwl_vfd_alloc vi addr)
                                      (<[ret := addr]> (vfds vi))))))
           (set_vfd_id vfd_zero ret)) addr = vi \/ vfds vi !! ret <> None).
    { intros v. destruct (vfds vi !! ret) eqn:En; [right; discriminate | left].
      unfold virtwl_vfd_free, virtwl_vfd_lock_unlink, idr_remove, set_vfds, set_objs,
        virtwl_vfd_alloc.
      cbn. rewrite insert_insert_eq, !delete_insert_id by assumption.
      destruct vi; reflexivity. }
    destruct (ret <=? 0) eqn:Er.
    - apply Z.leb_le in Er.
      destruct Ea as [(Hs & _) | (Hneg & ->)]; [lia|].
      intros vi' e evs [= <- <- _]. split; [|lia].
      unfold virtwl_vfd_free, set_vfds, set_objs, virtwl_vfd_alloc. cbn.
      rewrite delete_insert_id by assumption. destruct vi; reflexivity.
    - apply Z.leb_gt in Er.
      destruct Ea as [(_ & -> & Hn & _) | (Hneg & _)]; [|lia].
      destruct (vq_queue_out nonblock script) as [[r e0]|]; [|discriminate].
      destruct (r =? 0) eqn:Ez; cbn [negb].
      + destruct (virtwl_resp_err (ack_type ack) =? 0) eqn:Ee; cbn [negb]; [discriminate|].
        intros vi' e evs [= <- <- _].
        destruct (Hrestore (set_vfd_id vfd_zero ret)) as [E | Hc]; [|contradiction].
        split; [exact E | now apply Z.eqb_neq].
      + intros vi' e evs [= <- <- _].
        destruct (Hrestore (set_vfd_id vfd_zero ret)) as [E | Hc]; [|contradiction].
        split; [exact E | now apply Z.eqb_neq]. }
  unfold do_new. destruct type as [| |n].
  - destruct (Hbody VIRTWL_IOCTL_NEW_CTX (or_introl eq_refl)) as [Hb1 Hb2].
    split; [exact Hb1|]. rewrite Hb2. tauto.
  - destruct (Hbody VIRTWL_IOCTL_NEW_ALLOC (or_intror eq_refl)) as [Hb1 Hb2].
    split; [exact Hb1|]. rewrite Hb2. tauto.
  - split.
    + intros vi' e evs [= <- <- _]. split; [reflexivity | discriminate].
    + split; [discriminate|]. intros [[E|E] _]; discriminate.
Qed.

Lemma do_new_error_leaves_device_witness :
  let ack := {| ack_type := VIRTIO_WL_RESP_VFD_NEW; ack_flags := 3; ack_pfn := 0;
                ack_size := 4096 |} in
  (forall addr, Some 200 = Some addr -> objs vi_one !! addr = None) /\
  exists evs,
    @do_new upstream_h vi_one true (Some 200) VIRTWL_IOCTL_NEW_ALLOC 4096 false [no_slot] ack
    = Some (Done (vi_one, inr (- EBUSY), evs)).
Proof.
  intros ack.
  assert (Hf : forall addr, Some 200 = Some addr -> objs vi_one !! addr = None).
  { intros addr [= <-]. reflexivity. }
  split; [exact Hf|].
  destruct (@do_new_error_leaves_device upstream_h vi_one true (Some 200)
              VIRTWL_IOCTL_NEW_ALLOC 4096 false [no_slot] ack Hf) as [Herr _].
  assert (Ed : exists vi' evs,
             @do_new upstream_h vi_one true (Some 200) VIRTWL_IOCTL_NEW_ALLOC 4096 false
               [no_slot] ack = Some (Done (vi', inr (- EBUSY), evs)))
    by (vm_compute; eauto).
  destruct Ed as (vi' & evs & Ed).
  destruct (Herr vi' _ evs Ed) as [-> _].
  exists evs. exact Ed.
Defined.

(** X4: with every guest id taken, [do_new] fails with [-ENOSPC] before any
    message is built: the host is not contacted, the vfd just allocated
    is freed and the device is as before. *)
Theorem do_new_table_full `{virtio_wl_h} (vi : virtwl_info) (addr : Z)
    (type : virtwl_ioctl_type) (size_ : Z) (nonblock : bool)
    (script : list out_attempt) (ack : virtio_wl_ctrl_vfd_new) :
  type = VIRTWL_IOCTL_NEW_CTX \/ type = VIRTWL_IOCTL_NEW_ALLOC ->
  0 < VIRTWL_MAX_ALLOC ->
  (forall k, 1 <= k < VIRTWL_MAX_ALLOC -> vfds vi !! k <> None) ->
  objs vi !! addr = None ->
  do_new vi true (Some addr) type size_ nonblock script ack =
  Some (Done (vi, inr (- ENOSPC), [EvFree addr])).
Proof.
  intros Ht Hmax Hfull Hfresh.
  assert (Ea : idr_alloc (vfds vi) addr 1 VIRTWL_MAX_ALLOC = (vfds vi, - ENOSPC))
    by (apply idr_alloc_full; [lia | lia | exact Hfull]).
  unfold do_new.
  destruct Ht as [-> | ->];
    (cbn [negb virtwl_vfd_alloc vfds set_objs]; rewrite Ea;
     change (- ENOSPC <=? 0) with true; cbn iota;
     do 3 f_equal;
     unfold virtwl_vfd_free, set_vfds, set_objs; cbn;
     rewrite delete_insert_id by assumption; destruct vi; reflexivity).
Qed.

Lemma do_new_table_full_witness :
  let ack := {| ack_type := VIRTIO_WL_RESP_VFD_NEW; ack_flags := 3; ack_pfn := 0;
                ack_size := 4096 |} in
  (0 < @VIRTWL_MAX_ALLOC one_id_h /\
   (forall k, 1 <= k < @VIRTWL_MAX_ALLOC one_id_h -> vfds vi_one !! k <> None) /\
   objs vi_one !! 200 = None) /\
  @do_new one_id_h vi_one true (Some 200) VIRTWL_IOCTL_NEW_CTX 0 false [queued] ack =
  Some (Done (vi_one, inr (- ENOSPC), [EvFree 200])).
Proof.
  intros ack.
  assert (H1 : 0 < @VIRTWL_MAX_ALLOC one_id_h) by (cbn; lia).
  assert (H2 : forall k, 1 <= k < @VIRTWL_MAX_ALLOC one_id_h -> vfds vi_one !! k <> None).
  { intros k Hk. cbn in Hk. assert (k = 1) as -> by lia. discriminate. }
  assert (H3 : objs vi_one !! 200 = None) by reflexivity.
  split; [auto|].
  exact (@do_new_table_full one_id_h vi_one 200 VIRTWL_IOCTL_NEW_CTX 0 false [queued] ack
           (or_introl eq_refl) H1 H2 H3).
Defined.

(** ** Close: what is left behind *)

(** X5: whatever [do_vfd_close] returns, table and memory still agree
    afterwards; after a close that returned 0 no id of the table refers to
    the freed vfd any more.  The call goes through an invalid pointer only
    when it is handed a vfd that is not allocated. *)
Theorem do_vfd_close_keeps_table_ok (vi : virtwl_info) (addr : Z) (kz_ok : bool)
    (script : list out_attempt) :
  table_ok vi ->
  (forall vi' ret evs,
     do_vfd_close vi addr kz_ok script = Some (Done (vi', ret, evs)) ->
     table_ok vi' /\
     (ret = 0 -> objs vi' !! addr = None /\ forall id, vfds vi' !! id <> Some addr)) /\
  (do_vfd_close vi addr kz_ok script = Some Oops <-> objs vi !! addr = None).
Proof.
  intros Hok. unfold do_vfd_close.
  destruct (objs vi !! addr) as [vfd|] eqn:Hobj.
  2:{ split; [discriminate | tauto]. }
  split.
  2:{ split; [|discriminate].
      destruct kz_ok; cbn [negb]; [|discriminate].
      destruct (vq_queue_out false script) as [[r e]|]; [|discriminate].
      destruct (negb (r =? 0)); [discriminate|].
      destruct (virtwl_vfd_remove vi addr vfd). discriminate. }
  intros vi' ret evs.
  destruct kz_ok; cbn [negb].
  2:{ intros [= <- <- _]. split; [exact Hok | discriminate]. }
  destruct (vq_queue_out false script) as [[r e]|]; [|discriminate].
  destruct (r =? 0) eqn:Er; cbn [negb].
  - pose proof (virtwl_vfd_remove_spec vi addr vfd) as Hrm.
    destruct (virtwl_vfd_remove vi addr vfd) as [vi1 tevs].
    destruct Hrm as (Hv & Ho & _).
    intros [= <- <- _].
    assert (Hok1 : table_ok vi1).
    { pose proof (table_ok_unregister vi addr vfd Hobj Hok) as Hun.
      revert Hun. apply table_ok_ext; [exact Hv | exact Ho]. }
    split; [exact Hok1|]. intros _.
    assert (Hnone : objs vi1 !! addr = None) by (rewrite Ho; apply lookup_delete_eq).
    split; [exact Hnone|].
    intros id Hid. destruct (Hok1 id addr Hid) as (w & Hw & _). congruence.
  - intros [= <- <- _]. apply Z.eqb_neq in Er.
    split; [|intros E; now destruct Er].
    revert Hok. apply table_ok_ext; reflexivity.
Qed.

Lemma do_vfd_close_keeps_table_ok_witness :
  table_ok vi_one /\
  exists vi' evs,
    do_vfd_close vi_one 100 true [queued] = Some (Done (vi', 0, evs)) /\
    table_ok vi' /\ objs vi' !! 100 = None /\ vfds vi' !! 1 <> Some 100.
Proof.
  split; [exact table_ok_vi_one|].
  eexists _, _. split; [reflexivity|].
  destruct (proj1 (do_vfd_close_keeps_table_ok vi_one 100 true [queued] table_ok_vi_one)
              _ 0 _ eq_refl) as [Hok Hgone].
  destruct (Hgone eq_refl) as [Hn Hno].
  split; [exact Hok|]. split; [exact Hn | exact (Hno 1)].
Defined.

(** X6: create and close undo each other: closing a vfd that [do_new] has just
    created, once the host has taken both requests, gives back the device
    as it was before the creation; the id is free again. *)
Theorem do_new_then_close `{virtio_wl_h} (vi : virtwl_info) (addr : Z)
    (type : virtwl_ioctl_type) (size_ : Z) (nonblock : bool)
    (script cscript : list out_attempt) (ack : virtio_wl_ctrl_vfd_new)
    (qevs cevs : list event) (j : Z) :
  type = VIRTWL_IOCTL_NEW_CTX \/ type = VIRTWL_IOCTL_NEW_ALLOC ->
  objs vi !! addr = None ->
  1 <= j < VIRTWL_MAX_ALLOC -> vfds vi !! j = None ->
  vq_queue_out nonblock script = Some (0, qevs) ->
  host_success (ack_type ack) = true ->
  vq_queue_out false cscript = Some (0, cevs) ->
  exists vi1 id evs,
    do_new vi true (Some addr) type size_ nonblock script ack
      = Some (Done (vi1, inl addr, evs)) /\
    vfds vi1 !! id = Some addr /\
    do_vfd_close vi1 addr true cscript =
      Some (Done (vi, 0,
                  (EvMessage VIRTIO_WL_CMD_VFD_CLOSE id 0 0 :: cevs)
                  ++ [EvCompletion; EvUnlink id; EvFree addr])).
Proof.
  intros Ht Hfresh Hj Hfree Hq Hsucc Hcq.
  destruct (do_new_served vi addr type size_ nonblock script ack qevs j
              Ht Hfresh Hj Hfree Hq Hsucc) as (id & Hd & Hid & Hnone & _).
  eexists _, id, _. split; [exact Hd|].
  split; [cbn; apply lookup_insert_eq|].
  unfold do_vfd_close. cbn [objs set_objs]. rewrite lookup_insert_eq.
  cbn [negb]. rewrite Hcq. change (0 =? 0) with true. cbn [negb].
  unfold virtwl_vfd_remove. cbn.
  do 3 f_equal.
  unfold virtwl_vfd_free, virtwl_vfd_lock_unlink, idr_remove, set_vq_in, set_vfds, set_objs.
  cbn. rewrite !delete_insert_id by assumption.
  destruct vi as [t o vq]; reflexivity.
Qed.

Lemma do_new_then_close_witness :
  let ack := {| ack_type := VIRTIO_WL_RESP_VFD_NEW; ack_flags := 3; ack_pfn := 0x1000;
                ack_size := 4096 |} in
  (objs vi_one !! 200 = None /\ 1 <= 2 < @VIRTWL_MAX_ALLOC upstream_h /\
   vfds vi_one !! 2 = None /\ vq_queue_out false [queued] = Some (0, [EvAddSgs 0; EvKick]) /\
   host_success (ack_type ack) = true) /\
  exists vi1 evs cevs,
    @do_new upstream_h vi_one true (Some 200) VIRTWL_IOCTL_NEW_ALLOC 10 false [queued] ack
      = Some (Done (vi1, inl 200, evs)) /\
    do_vfd_close vi1 200 true [queued] = Some (Done (vi_one, 0, cevs)).
Proof.
  intros ack.
  assert (H1 : objs vi_one !! 200 = None) by reflexivity.
  assert (H2 : 1 <= 2 < @VIRTWL_MAX_ALLOC upstream_h) by (cbn; lia).
  assert (H3 : vfds vi_one !! 2 = None) by reflexivity.
  assert (H4 : vq_queue_out false [queued] = Some (0, [EvAddSgs 0; EvKick])) by reflexivity.
  split; [auto|].
  pose proof (@do_new_then_close upstream_h vi_one 200 VIRTWL_IOCTL_NEW_ALLOC 10 false
                [queued] [queued] ack [EvAddSgs 0; EvKick] [EvAddSgs 0; EvKick] 2
                (or_intror eq_refl) H1 H2 H3 H4 eq_refl H4) as Hrt.
  destruct Hrt as (vi1 & id & evs & Hd & _ & Hc).
  exists vi1, evs. eexists. split; [exact Hd | exact Hc].
Defined.

(** ** Receive: what it leaves alone *)

Lemma queue_frame_refl (addr : Z) (vi : virtwl_info) : queue_frame addr vi vi.
Proof. split; [reflexivity|]. intros p. destruct (objs vi !! p); auto. Qed.

Lemma queue_frame_trans (addr : Z) (vi1 vi2 vi3 : virtwl_info) :
  queue_frame addr vi1 vi2 -> queue_frame addr vi2 vi3 -> queue_frame addr vi1 vi3.
Proof.
  intros [Hv1 Ho1] [Hv2 Ho2]. split; [congruence|].
  intros p. specialize (Ho1 p). specialize (Ho2 p).
  destruct (objs vi1 !! p), (objs vi2 !! p), (objs vi3 !! p); try tauto.
  destruct Ho1 as (? & ? & ? & ? & ?), Ho2 as (? & ? & ? & ? & ?).
  repeat split; try congruence. intros Hp. rewrite H8, H3 by assumption. reflexivity.
Qed.

Lemma queue_frame_ext (addr : Z) (vi vi1 vi2 : virtwl_info) :
  vfds vi2 = vfds vi1 -> objs vi2 = objs vi1 ->
  queue_frame addr vi vi1 -> queue_frame addr vi vi2.
Proof. unfold queue_frame. intros -> ->. auto. Qed.

Lemma queue_frame_set_queue (addr : Z) (vi : virtwl_info) (vfd : virtwl_vfd)
    (q : list virtwl_vfd_qentry) :
  objs vi !! addr = Some vfd ->
  queue_frame addr vi (set_objs vi (<[addr := set_in_queue vfd q]> (objs vi))).
Proof.
  intros Hv. split; [reflexivity|]. intros p. cbn.
  destruct (decide (p = addr)) as [->|Hne].
  - rewrite Hv, lookup_insert_eq. cbn. tauto.
  - rewrite lookup_insert_ne by congruence. destruct (objs vi !! p); auto.
Qed.

Lemma queue_frame_table_ok (addr : Z) (vi vi' : virtwl_info) :
  queue_frame addr vi vi' -> table_ok vi -> table_ok vi'.
Proof.
  intros [Hv Ho] Hok id ptr Hp. rewrite Hv in Hp.
  destruct (Hok id ptr Hp) as (v & Hvp & Hid).
  specialize (Ho ptr). rewrite Hvp in Ho.
  destruct (objs vi' !! ptr) as [v'|]; [|contradiction].
  exists v'. split; [reflexivity|]. destruct Ho as [-> _]. exact Hid.
Qed.

Lemma virtwl_vfd_recv_queue_frame `{virtio_wl_h} (fuel : nat) (addr : Z) (nonblock : bool)
    (copy_ok : Z -> Z -> bool) (len_ : Z) (have_vfds : bool) (count : Z) :
  forall (vi : virtwl_info) (script : list recv_wait) vi' r,
    virtwl_vfd_recv fuel vi addr nonblock copy_ok len_ have_vfds count script
    = Some (Done (vi', r)) ->
    queue_frame addr vi vi'.
Proof.
  induction fuel as [|fuel IH]; intros vi script vi' r; cbn [virtwl_vfd_recv];
    [discriminate|].
  destruct (objs vi !! addr) as [vfd|] eqn:Hobj; [|discriminate].
  destruct (in_queue vfd) as [|e q] eqn:Eq.
  - destruct nonblock; [intros [= <- _]; apply queue_frame_refl|].
    destruct script as [|[|new] script']; try discriminate.
    + intros [= <- _]. apply queue_frame_refl.
    + intros Hr. apply IH in Hr.
      eapply queue_frame_trans; [|exact Hr]. now apply queue_frame_set_queue.
  - set (r1 := vfd_out_locked copy_ok (e :: q) (vq_in vi) len_).
    set (vi1 := set_vq_in (set_objs vi (<[addr := set_in_queue vfd (out_queue r1)]> (objs vi)))
                  (out_vq r1)).
    assert (H1 : queue_frame addr vi vi1).
    { eapply queue_frame_ext; [| |apply (queue_frame_set_queue addr vi vfd (out_queue r1) Hobj)];
        reflexivity. }
    destruct (out_count r1 <? 0); [intros [= <- _]; exact H1|].
    destruct (have_vfds && negb (count =? 0)).
    + match goal with
      | |- context [vfd_out_vfds_locked ?t ?q' ?vq' count] =>
        set (v := vfd_out_vfds_locked t q' vq' count)
      end.
      set (vi2 := set_vq_in (set_objs vi1 (<[addr := set_in_queue vfd (vr_queue v)]> (objs vi1)))
                    (vr_vq v)).
      assert (H2 : queue_frame addr vi vi2).
      { eapply queue_frame_ext;
          [| |apply (queue_frame_set_queue addr vi vfd (vr_queue v) Hobj)]; [reflexivity|].
        cbn. now rewrite insert_insert_eq. }
      destruct (_ && _).
      * intros Hr. apply IH in Hr. eapply queue_frame_trans; [exact H2 | exact Hr].
      * intros [= <- _]. exact H2.
    + destruct (out_count r1 =? 0).
      * intros Hr. apply IH in Hr. eapply queue_frame_trans; [exact H1 | exact Hr].
      * intros [= <- _]. exact H1.
Qed.

(** X7: a receive call changes nothing but the pending queue of its own vfd,
    the in-queue and the log: the handle table is the same, every vfd keeps
    its id, flags, pfn and size, the pending queues of the other vfds are
    untouched, and table and memory still agree. *)
Theorem virtwl_vfd_recv_frame `{virtio_wl_h} (fuel : nat) (vi vi' : virtwl_info)
    (addr : Z) (nonblock : bool) (copy_ok : Z -> Z -> bool) (len_ : Z)
    (have_vfds : bool) (count : Z) (script : list recv_wait) (r : recv_ret) :
  virtwl_vfd_recv fuel vi addr nonblock copy_ok len_ have_vfds count script
  = Some (Done (vi', r)) ->
  queue_frame addr vi vi' /\ (table_ok vi -> table_ok vi').
Proof.
  intros Hr. apply virtwl_vfd_recv_queue_frame in Hr.
  split; [exact Hr | now apply queue_frame_table_ok with addr].
Qed.

Lemma virtwl_vfd_recv_frame_witness :
  exists vi' r,
    @virtwl_vfd_recv upstream_h 1 vi_one 100 true copy_always 1 true 8 []
    = Some (Done (vi', r)) /\
    queue_frame 100 vi_one vi'.
Proof.
  assert (Ed : exists vi' r,
             @virtwl_vfd_recv upstream_h 1 vi_one 100 true copy_always 1 true 8 []
             = Some (Done (vi', r))) by (vm_compute; eauto).
  destruct Ed as (vi' & r & Ed). exists vi', r. split; [exact Ed|].
  exact (proj1 (@virtwl_vfd_recv_frame upstream_h _ _ _ _ _ _ _ _ _ _ _ Ed)).
Defined.

(** ** From the dispatcher to the reader *)


(** The in-queue after one release. *)
Lemma release_fields (vq : virtqueue_in) (b : inbuf) :
  let ret := hd 0 (add_inbuf_results vq) in
  let vq' := virtqueue_kick (fst (vq_return_inbuf_locked vq b)) in
  inbufs vq' = inbufs vq ++ (if ret =? 0 then [b] else []) /\
  kicks vq' = S (kicks vq) /\
  printed vq' = printed vq ++ (if ret =? 0 then [] else [MsgGiveInbufFailed ret]) /\
  kfreed vq' = kfreed vq.
Proof.
  destruct (vq_return_inbuf_locked_spec vq b) as (_ & _ & Hk & Hf & Hi & Hp).
  cbn [inbufs kicks printed kfreed virtqueue_kick]. rewrite Hk. auto.
Qed.



(** ** The drains stay within the destination *)

(** The loop of the drain of bytes, entered with [rc] bytes copied. *)
Lemma vfd_out_loop_bounds `{virtio_wl_h} (copy_ok : Z -> Z -> bool) (len_ : Z) :
  forall (q : list virtwl_vfd_qentry) (rc : Z) (vq : virtqueue_in),
    0 <= rc <= len_ ->
    let r := vfd_out_loop copy_ok len_ q rc vq in
    (out_count r = - EFAULT /\ rc = 0 /\ out_bytes r = [] /\ out_queue r = q /\ out_vq r = vq)
    \/ (rc <= out_count r <= len_ /\ Z.of_nat (length (out_bytes r)) <= len_ - rc).
Proof.
  induction q as [|e q IH]; intros rc vq Hrc.
  - right. cbn. lia.
  - cbn [vfd_out_loop].
    destruct (len_ <=? rc) eqn:El; [right; cbn; lia|]. apply Z.leb_gt in El.
    assert (Hskip :
      let r := vfd_out_loop copy_ok len_ q rc vq in
      let r' := {| out_count := out_count r; out_bytes := out_bytes r;
                   out_queue := e :: out_queue r; out_vq := out_vq r;
                   out_released := out_released r |} in
      (out_count r' = - EFAULT /\ rc = 0 /\ out_bytes r' = [] /\
       out_queue r' = e :: q /\ out_vq r' = vq)
      \/ (rc <= out_count r' <= len_ /\ Z.of_nat (length (out_bytes r')) <= len_ - rc)).
    { destruct (IH rc vq Hrc) as [(Hc & Hz & Hb & Hq & Hv) | Hb]; [left | right]; cbn.
      - rewrite Hq. auto.
      - exact Hb. }
    destruct (_ <=? 0) eqn:E0; [exact Hskip|]. apply Z.leb_gt in E0.
    destruct (bool_decide _); cbn [negb]; [|exact Hskip].
    match goal with
    | |- context [copy_ok rc ?n] => set (n_ := n)
    end.
    assert (Hn : 0 < n_ <= len_ - rc).
    { subst n_. destruct (len_ <? _) eqn:Ec;
        [apply Z.ltb_lt in Ec | apply Z.ltb_ge in Ec]; lia. }
    destruct (copy_ok rc n_); cbn [negb].
    2:{ destruct (rc =? 0) eqn:Ez.
        - apply Z.eqb_eq in Ez. left. cbn. auto.
        - right. cbn. lia. }
    destruct (vfd_qentry_free_if_empty vq _) as [vq' kept].
    destruct (IH (rc + n_) vq' ltac:(lia)) as [(_ & Hz & _) | [Hc Hb]]; [lia|].
    right. cbn [out_count out_bytes]. split; [lia|].
    rewrite length_app. unfold read_bytes at 1. rewrite length_take. lia.
Qed.

(** The loop entered with the destination full. *)
Lemma vfd_out_loop_full `{virtio_wl_h} (copy_ok : Z -> Z -> bool) (len_ : Z)
    (q : list virtwl_vfd_qentry) (vq : virtqueue_in) :
  out_bytes (vfd_out_loop copy_ok len_ q len_ vq) = [] /\
  out_queue (vfd_out_loop copy_ok len_ q len_ vq) = q /\
  out_count (vfd_out_loop copy_ok len_ q len_ vq) = len_.
Proof.
  destruct q as [|e q]; cbn [vfd_out_loop]; [auto|].
  rewrite Z.leb_refl. auto.
Qed.

(** Whatever copies fault, a drain of bytes loses nothing: the bytes it
    stored followed by the bytes still queued are the bytes that were
    queued, and unless it fails with [-EFAULT], having stored nothing, the
    count it returns is the number of bytes it stored. *)
Lemma vfd_out_loop_faults `{virtio_wl_h} (copy_ok : Z -> Z -> bool) (len_ : Z) :
  0 <= sizeof_recv ->
  forall (q : list virtwl_vfd_qentry) (rc : Z) (vq : virtqueue_in),
    Forall wf_entry q -> 0 <= rc <= len_ ->
    let r := vfd_out_loop copy_ok len_ q rc vq in
    out_bytes r ++ queued_bytes (out_queue r) = queued_bytes q /\
    ((out_count r = - EFAULT /\ rc = 0 /\ out_bytes r = []) \/
     out_count r = rc + Z.of_nat (length (out_bytes r))).
Proof.
  intros Hs. induction q as [|e q IH]; intros rc vq Hwf Hrc.
  - cbn. split; [reflexivity | right; lia].
  - inversion Hwf as [|? ? He Hq]; subst. cbn [vfd_out_loop].
    assert (Eto : len e - (sizeof_recv + recv_vfd_count (hdr e) * sizeof_le32 + data_offset e)
                  = data_len e - data_offset e) by (unfold data_len; lia).
    rewrite Eto.
    destruct (len_ <=? rc) eqn:El.
    { cbn. split; [reflexivity | right; lia]. }
    apply Z.leb_gt in El.
    assert (Hskip :
      let r := vfd_out_loop copy_ok len_ q rc vq in
      pending_bytes e = [] ->
      out_bytes r ++ queued_bytes (e :: out_queue r) = queued_bytes (e :: q) /\
      ((out_count r = - EFAULT /\ rc = 0 /\ out_bytes r = []) \/
       out_count r = rc + Z.of_nat (length (out_bytes r)))).
    { intros r Hp. destruct (IH rc vq Hq Hrc) as [Hb Hc].
      rewrite !queued_bytes_cons, Hp. cbn [app]. auto. }
    destruct (data_len e - data_offset e <=? 0) eqn:E0.
    { apply Z.leb_le in E0. apply Hskip. now apply pending_bytes_exhausted. }
    apply Z.leb_gt in E0.
    destruct (bool_decide _) eqn:Et; cbn [negb].
    2:{ apply bool_decide_eq_false in Et. apply Hskip. now apply pending_bytes_not_recv. }
    apply bool_decide_eq_true in Et. clear Hskip.
    set (to_read := data_len e - data_offset e) in *.
    set (n := if len_ <? to_read + rc then len_ - rc else to_read).
    assert (Hn : 0 < n <= to_read /\ n <= len_ - rc /\ (n = to_read \/ n = len_ - rc)).
    { subst n. destruct (len_ <? to_read + rc) eqn:Ec;
        [apply Z.ltb_lt in Ec | apply Z.ltb_ge in Ec]; lia. }
    destruct (copy_ok rc n); cbn [negb].
    2:{ cbn [out_bytes out_queue out_count app]. split; [reflexivity|].
        destruct (rc =? 0) eqn:Ez; [apply Z.eqb_eq in Ez; left; auto | right; cbn; lia]. }
    destruct (pending_bytes_advance e n Hs He Et ltac:(fold to_read; lia))
      as (Ebuf & Epend & Hwf' & Erest).
    rewrite Ebuf.
    pose proof (pending_bytes_length e Hs He Et) as Hlen. fold to_read in Hlen.
    set (e' := set_data_offset e (u32 (data_offset e + n))) in *.
    assert (Et' : hdr_type (hdr e') = VIRTIO_WL_CMD_VFD_RECV) by exact Et.
    assert (Hlt : length (take (Z.to_nat n) (pending_bytes e)) = Z.to_nat n).
    { rewrite length_take, Hlen. lia. }
    assert (Hkept : forall vq' kept,
              vfd_qentry_free_if_empty vq e' = (vq', kept) ->
              queued_bytes (option_list kept) = drop (Z.to_nat n) (pending_bytes e)).
    { intros vq' kept Ef.
      destruct (vfd_qentry_free_if_empty_cases vq e' Et') as [[Ef' _] | [Ef' Hdone]];
        rewrite Ef' in Ef; injection Ef as <- <-; cbn [option_list option_rect].
      - rewrite queued_bytes_cons. cbn. rewrite app_nil_r. exact Epend.
      - cbn. rewrite <- Epend. symmetry. apply pending_bytes_exhausted.
        destruct Hdone as [_ Hd]. lia. }
    destruct (vfd_qentry_free_if_empty vq e') as [vq' kept] eqn:Ef.
    specialize (Hkept vq' kept eq_refl).
    cbn [out_bytes out_queue out_count].
    rewrite queued_bytes_cons.
    unfold queued_bytes at 1. rewrite flat_map_app. fold (queued_bytes (option_list kept)).
    fold (queued_bytes (out_queue (vfd_out_loop copy_ok len_ q (rc + n) vq'))).
    rewrite Hkept. split.
    + destruct Hn as (Hn0 & Hn1 & [Hn2 | Hn2]).
      * destruct (IH (rc + n) vq' Hq ltac:(lia)) as [Hb _].
        rewrite (take_ge (pending_bytes e)) by lia.
        rewrite (drop_ge (pending_bytes e)) by lia. cbn [app].
        rewrite <- app_assoc, Hb. reflexivity.
      * replace (rc + n) with len_ by lia.
        destruct (vfd_out_loop_full copy_ok len_ q vq') as (-> & -> & _).
        rewrite app_nil_r, app_assoc, take_drop. reflexivity.
    + destruct (IH (rc + n) vq' Hq ltac:(lia)) as [_ [(_ & Hz & _) | Hc]]; [lia|].
      right. rewrite Hc, length_app, Hlt. lia.
Qed.

(** X10: a drain of bytes either stops on a fault of the very first copy,
    with [-EFAULT] and nothing consumed, or returns a count between 0 and
    the capacity, having stored no more bytes than the capacity.  On
    entries as the transport delivers them, whatever copies fault, the
    bytes stored followed by the bytes still queued are the bytes that
    were queued, in order, and the count returned is the number of bytes
    stored: a fault after the first copy returns the bytes copied so far
    and leaves the others queued. *)
Theorem vfd_out_locked_bounds `{virtio_wl_h} (copy_ok : Z -> Z -> bool)
    (queue : list virtwl_vfd_qentry) (vq : virtqueue_in) (len_ : Z) :
  0 <= len_ ->
  let r := vfd_out_locked copy_ok queue vq len_ in
  ((out_count r = - EFAULT /\ out_bytes r = [] /\ out_queue r = queue /\ out_vq r = vq)
   \/ (0 <= out_count r <= len_ /\ Z.of_nat (length (out_bytes r)) <= len_)) /\
  (0 <= sizeof_recv -> Forall wf_entry queue ->
   out_bytes r ++ queued_bytes (out_queue r) = queued_bytes queue /\
   (out_count r <> - EFAULT -> out_count r = Z.of_nat (length (out_bytes r)))).
Proof.
  intros Hl r. subst r. unfold vfd_out_locked. split.
  - destruct (vfd_out_loop_bounds copy_ok len_ queue 0 vq ltac:(lia))
      as [(Hc & _ & Hb & Hq & Hv) | [Hc Hb]]; [left; auto | right].
    split; [exact Hc | lia].
  - intros Hs Hwf.
    destruct (vfd_out_loop_faults copy_ok len_ Hs queue 0 vq Hwf ltac:(lia)) as [Hb Hc].
    split; [exact Hb|]. intros Hne. destruct Hc as [(Hc & _) | Hc]; [contradiction | lia].
Qed.

Lemma vfd_out_locked_bounds_witness :
  (0 <= 64 /\ 0 <= @sizeof_recv upstream_h /\
   Forall (@wf_entry upstream_h) [qentry_hi; qentry_abc]) /\
  (let r := @vfd_out_locked upstream_h (fun _ _ => false) [qentry_hi; qentry_abc]
              vq_idle 64 in
   out_count r = - EFAULT /\ out_queue r = [qentry_hi; qentry_abc]) /\
  (let r := @vfd_out_locked upstream_h (fun o _ => o =? 0) [qentry_hi; qentry_abc]
              vq_idle 64 in
   out_count r = 2 /\ out_bytes r = [104; 105] /\
   @queued_bytes upstream_h (out_queue r) = [97; 98; 99]).
Proof.
  assert (Hs : 0 <= @sizeof_recv upstream_h) by (cbn; lia).
  assert (Hwf : Forall (@wf_entry upstream_h) [qentry_hi; qentry_abc]).
  { repeat constructor; cbn; lia. }
  split; [split; [lia | auto]|]. split.
  - intros r.
    destruct (@vfd_out_locked_bounds upstream_h (fun _ _ => false) [qentry_hi; qentry_abc]
                vq_idle 64 ltac:(lia))
      as [[(Hc & _ & Hq & _) | [Hc _]] _].
    + split; [exact Hc | exact Hq].
    + exfalso. vm_compute in Hc. destruct Hc as [Hc _]. now apply Hc.
  - intros r.
    destruct (@vfd_out_locked_bounds upstream_h (fun o _ => o =? 0) [qentry_hi; qentry_abc]
                vq_idle 64 ltac:(lia)) as [_ Hcons].
    destruct (Hcons Hs Hwf) as [Hb Hc]. fold r in Hb, Hc.
    assert (Hbytes : out_bytes r = [104; 105]) by (vm_compute; reflexivity).
    assert (Hne : out_count r <> - EFAULT) by (vm_compute; discriminate).
    split; [rewrite (Hc Hne), Hbytes; reflexivity|]. split; [exact Hbytes|].
    rewrite Hbytes in Hb. apply (app_inv_head [104; 105]).
    etransitivity; [exact Hb|]. vm_compute. reflexivity.
Defined.






(** ** Send: [do_send] *)

Lemma send_collect_good (files : gmap Z file) (vi : virtwl_info) (pre post : list Z) :
  Forall (good_fd files vi) pre ->
  (post = [] \/ exists fd rest, post = fd :: rest /\ fd < 0) ->
  send_collect files vi (pre ++ post) = Done (inr (map (fd_vfd files) pre)) /\
  send_ids vi (map (fd_vfd files) pre) = map (fd_vfd_id files vi) pre.
Proof.
  intros Hgood Hpost. induction Hgood as [|fd pre Hfd _ IH]; cbn [app map].
  - split; [|reflexivity].
    destruct Hpost as [-> | (fd & rest & -> & Hneg)]; [reflexivity|].
    cbn [send_collect]. apply Z.ltb_lt in Hneg. now rewrite Hneg.
  - destruct Hfd as (Hpos & f & ptr & v & Hf & Hv & Hp & Ho & Hid).
    destruct IH as [IH1 IH2]. cbn [send_collect].
    assert (E : (fd <? 0) = false) by (apply Z.ltb_ge; lia).
    apply Z.eqb_neq in Hid.
    assert (Eptr : fd_vfd files fd = ptr).
    { unfold fd_vfd. rewrite Hf. destruct f as [b pd]. cbn in Hp. now subst pd. }
    assert (Eid : fd_vfd_id files vi fd = vfd_id v).
    { unfold fd_vfd_id. rewrite Hf. destruct f as [b pd]. cbn in Hp. subst pd.
      now rewrite Ho. }
    rewrite E, Hf, Hv, Hp, Ho, Hid, IH1, Eptr, Eid. cbn [negb].
    split; [reflexivity|].
    unfold send_ids in *. cbn [map]. rewrite IH2, Ho. reflexivity.
Qed.

Lemma send_collect_bad (files : gmap Z file) (vi : virtwl_info) (pre post : list Z)
    (fd e : Z) :
  Forall (good_fd files vi) pre ->
  0 <= fd ->
  (files !! fd = None /\ e = - EBADFD) \/
  (exists f, files !! fd = Some f /\ e = - EINVAL /\
     (f_is_vfd f = false \/
      (f_is_vfd f = true /\ private_data f = None) \/
      (f_is_vfd f = true /\
       exists ptr v, private_data f = Some ptr /\ objs vi !! ptr = Some v /\ vfd_id v = 0))) ->
  send_collect files vi (pre ++ fd :: post) = Done (inl e).
Proof.
  intros Hgood Hpos Hbad. induction Hgood as [|fd' pre Hfd _ IH]; cbn [app].
  - cbn [send_collect].
    assert (E : (fd <? 0) = false) by (apply Z.ltb_ge; lia). rewrite E.
    destruct Hbad as [[-> ->] | (f & -> & -> & [Hv | [[Hv Hp] | (Hv & ptr & v & Hp & Ho & Hid)]])];
      [reflexivity | | |]; rewrite Hv; cbn [negb]; [reflexivity | | ].
    + now rewrite Hp.
    + rewrite Hp, Ho, Hid. reflexivity.
  - destruct Hfd as (Hpos' & f & ptr & v & Hf & Hv & Hp & Ho & Hid).
    cbn [send_collect].
    assert (E : (fd' <? 0) = false) by (apply Z.ltb_ge; lia).
    apply Z.eqb_neq in Hid.
    rewrite E, Hf, Hv, Hp, Ho, Hid, IH. reflexivity.
Qed.

(** X12: a send that refers to a descriptor which is not open, is not a vfd
    file, or whose vfd is missing or has id 0, fails before a message is
    built: [-EBADFD] for a closed descriptor and [-EINVAL] otherwise,
    whatever the state of the out-queue, and nothing is given to the
    transport.  The entries before it in the array are acceptable
    references and the entry lies within the array. *)
Theorem do_send_invalid_reference (max_allocs : Z) (files : gmap Z file) (vi : virtwl_info)
    (vfd : virtwl_vfd) (user : list Z) (copy_ok : bool) (len_ : Z)
    (pre post : list Z) (fd e : Z) (nonblock kz_ok : bool)
    (script : list out_attempt) (ack : virtio_wl_ctrl_type) (uninit : Z) :
  Forall (good_fd files vi) pre ->
  Z.of_nat (length pre) < max_allocs ->
  0 <= fd ->
  (files !! fd = None /\ e = - EBADFD) \/
  (exists f, files !! fd = Some f /\ e = - EINVAL /\
     (f_is_vfd f = false \/
      (f_is_vfd f = true /\ private_data f = None) \/
      (f_is_vfd f = true /\
       exists ptr v, private_data f = Some ptr /\ objs vi !! ptr = Some v /\ vfd_id v = 0))) ->
  do_send max_allocs files vi vfd user copy_ok len_ (Some (pre ++ fd :: post))
    nonblock kz_ok script ack uninit =
  Some (Done {| send_ret := e; send_msg := None; send_evs := [] |}).
Proof.
  intros Hgood Hlen Hpos Hbad. unfold do_send.
  rewrite take_app_ge by lia.
  replace (Z.to_nat max_allocs - length pre)%nat
    with (S (Z.to_nat max_allocs - length pre - 1)) by lia.
  cbn [take firstn].
  rewrite (send_collect_bad files vi pre _ fd e Hgood Hpos Hbad). reflexivity.
Qed.

Lemma good_fd_3 : good_fd files_one vi_one 3.
Proof.
  split; [lia|]. eexists _, _, _.
  split; [reflexivity|]. split; [reflexivity|]. split; [reflexivity|].
  split; [reflexivity | discriminate].
Qed.

Lemma do_send_invalid_reference_witness :
  (Forall (good_fd files_one vi_one) [3] /\ Z.of_nat (length [3]) < 8 /\ 0 <= 4) /\
  forall script,
    do_send 8 files_one vi_one vfd_zero [1; 2] true 2 (Some ([3] ++ 4 :: [-1; -1]))
      false true script VIRTIO_WL_RESP_OK 0 =
    Some (Done {| send_ret := - EINVAL; send_msg := None; send_evs := [] |}).
Proof.
  assert (Hg : Forall (good_fd files_one vi_one) [3]) by (repeat constructor; apply good_fd_3).
  split; [split; [exact Hg | split; [cbn; lia | lia]]|].
  intros script.
  apply (do_send_invalid_reference 8 files_one vi_one vfd_zero [1; 2] true 2 [3] [-1; -1]
           4 (- EINVAL) false true script VIRTIO_WL_RESP_OK 0 Hg);
    [cbn; lia | lia |].
  right. eexists. split; [reflexivity|]. split; [reflexivity|]. left. reflexivity.
Defined.

(** X13: a send whose references are all acceptable builds one message that
    names the sending vfd, carries the ids of the referenced vfds in the
    order of the array up to the first negative entry and the first [len]
    bytes of the user buffer; once the out-queue has taken it the call
    waits for the completion and returns what [virtwl_resp_err] makes of
    the acknowledgment; when the out-queue refuses it the call returns
    that error without waiting. *)
Theorem do_send_delivers (max_allocs : Z) (files : gmap Z file) (vi : virtwl_info)
    (vfd : virtwl_vfd) (user : list Z) (len_ : Z) (fds pre post : list Z)
    (nonblock : bool) (script : list out_attempt) (ack : virtio_wl_ctrl_type)
    (uninit r : Z) (qevs : list event) :
  take (Z.to_nat max_allocs) fds = pre ++ post ->
  Forall (good_fd files vi) pre ->
  (post = [] \/ exists fd rest, post = fd :: rest /\ fd < 0) ->
  vq_queue_out nonblock script = Some (r, qevs) ->
  let msg := {| send_vfd_id := vfd_id vfd;
                send_vfd_ids := map (fd_vfd_id files vi) pre;
                send_data := take (Z.to_nat len_) user |} in
  do_send max_allocs files vi vfd user true len_ (Some fds) nonblock true script ack uninit =
  Some (Done (if r =? 0
              then {| send_ret := virtwl_resp_err ack; send_msg := Some msg;
                      send_evs := qevs ++ [EvCompletion] |}
              else {| send_ret := r; send_msg := Some msg; send_evs := qevs |})) /\
  (length pre <= Z.to_nat max_allocs)%nat.
Proof.
  intros Htake Hgood Hpost Hq msg. split.
  - unfold do_send. rewrite Htake.
    destruct (send_collect_good files vi pre post Hgood Hpost) as [-> Hids].
    cbn [negb]. rewrite Hq, Hids. subst msg. destruct (r =? 0); reflexivity.
  - assert (Hl : length (pre ++ post) = length (take (Z.to_nat max_allocs) fds))
      by now rewrite Htake.
    rewrite length_app, length_take in Hl. lia.
Qed.

Lemma do_send_delivers_witness :
  (take (Z.to_nat 8) [3; -1; 3] = [3] ++ [-1; 3] /\
   Forall (good_fd files_one vi_one) [3] /\
   vq_queue_out false [queued] = Some (0, [EvAddSgs 0; EvKick])) /\
  do_send 8 files_one vi_one vfd_zero [104; 105; 106] true 2 (Some [3; -1; 3])
    false true [queued] VIRTIO_WL_RESP_OK 0 =
  Some (Done {| send_ret := 0;
                send_msg := Some {| send_vfd_id := 0; send_vfd_ids := [1];
                                    send_data := [104; 105] |};
                send_evs := [EvAddSgs 0; EvKick; EvCompletion] |}).
Proof.
  assert (Hg : Forall (good_fd files_one vi_one) [3]) by (repeat constructor; apply good_fd_3).
  split; [split; [reflexivity | split; [exact Hg | reflexivity]]|].
  assert (Hp : [-1; 3] = [] \/ exists fd rest, [-1; 3] = fd :: rest /\ fd < 0).
  { right. exists (-1), [3]. split; [reflexivity | lia]. }
  exact (proj1 (do_send_delivers 8 files_one vi_one vfd_zero [104; 105; 106] 2 [3; -1; 3]
                  [3] [-1; 3] false [queued] VIRTIO_WL_RESP_OK 0 0 [EvAddSgs 0; EvKick]
                  eq_refl Hg Hp eq_refl)).
Defined.

Lemma send_collect_vfds (files : gmap Z file) (vi : virtwl_info) (fds vfds_ : list Z) :
  send_collect files vi fds = Done (inr vfds_) ->
  (length vfds_ <= length fds)%nat /\
  Forall (fun ptr => exists v, objs vi !! ptr = Some v /\ vfd_id v <> 0) vfds_.
Proof.
  revert vfds_. induction fds as [|fd fds IH]; intros vfds_; cbn [send_collect].
  - intros [= <-]. split; [cbn; lia | constructor].
  - destruct (fd <? 0); [intros [= <-]; split; [cbn; lia | constructor]|].
    destruct (files !! fd) as [f|]; [|discriminate].
    destruct (negb (f_is_vfd f)); [discriminate|].
    destruct (private_data f) as [ptr|]; [|discriminate].
    destruct (objs vi !! ptr) as [v|] eqn:Ho; [|discriminate].
    destruct (vfd_id v =? 0) eqn:Ez; [discriminate|]. apply Z.eqb_neq in Ez.
    destruct (send_collect files vi fds) as [[e|l]|]; try discriminate.
    intros [= <-]. destruct (IH l eq_refl) as [Hl Hf].
    split; [cbn; lia | constructor; eauto].
Qed.

(** X14: whatever the arguments, a message that [do_send] hands to the
    out-queue names the sending vfd, carries at most
    [VIRTWL_SEND_MAX_ALLOCS] ids, none of them 0, and at most [len] bytes
    of data. *)
Theorem do_send_message_shape (max_allocs : Z) (files : gmap Z file) (vi : virtwl_info)
    (vfd : virtwl_vfd) (user : list Z) (copy_ok : bool) (len_ : Z)
    (vfd_fds : option (list Z)) (nonblock kz_ok : bool)
    (script : list out_attempt) (ack : virtio_wl_ctrl_type) (uninit : Z)
    (res : send_result) (m : virtio_wl_ctrl_vfd_send) :
  do_send max_allocs files vi vfd user copy_ok len_ vfd_fds nonblock kz_ok script ack uninit
  = Some (Done res) ->
  send_msg res = Some m ->
  send_vfd_id m = vfd_id vfd /\
  (length (send_vfd_ids m) <= Z.to_nat max_allocs)%nat /\
  Forall (fun id => id <> 0) (send_vfd_ids m) /\
  (length (send_data m) <= Z.to_nat len_)%nat /\
  kz_ok = true /\ copy_ok = true.
Proof.
  unfold do_send.
  set (collected := match vfd_fds with
                    | None => Done (inr [])
                    | Some fds => send_collect files vi (take (Z.to_nat max_allocs) fds)
                    end).
  assert (Hcol : forall l, collected = Done (inr l) ->
            (length l <= Z.to_nat max_allocs)%nat /\
            Forall (fun ptr => exists v, objs vi !! ptr = Some v /\ vfd_id v <> 0) l).
  { intros l. subst collected. destruct vfd_fds as [fds|].
    - intros Hc. apply send_collect_vfds in Hc as [Hl Hf].
      rewrite length_take in Hl. split; [lia | exact Hf].
    - intros [= <-]. split; [cbn; lia | constructor]. }
  destruct collected as [[e|l]|]; [intros [= <-]; discriminate | | discriminate].
  destruct (Hcol l eq_refl) as [Hl Hf].
  destruct kz_ok; cbn [negb]; [|intros [= <-]; discriminate].
  destruct copy_ok; cbn [negb]; [|intros [= <-]; discriminate].
  assert (Hshape : forall m',
            m' = {| send_vfd_id := vfd_id vfd; send_vfd_ids := send_ids vi l;
                    send_data := take (Z.to_nat len_) user |} ->
            send_vfd_id m' = vfd_id vfd /\
            (length (send_vfd_ids m') <= Z.to_nat max_allocs)%nat /\
            Forall (fun id => id <> 0) (send_vfd_ids m') /\
            (length (send_data m') <= Z.to_nat len_)%nat /\ true = true /\ true = true).
  { intros m' ->. cbn. split; [reflexivity|].
    split; [unfold send_ids; rewrite length_map; exact Hl|].
    split; [|rewrite length_take; split; [lia | auto]].
    unfold send_ids. apply Forall_map. eapply Forall_impl; [exact Hf|].
    intros ptr (v & -> & Hid). exact Hid. }
  destruct (vq_queue_out nonblock script) as [[r evs]|]; [|discriminate].
  destruct (negb (r =? 0)); intros [= <-]; cbn; intros [= <-]; now apply Hshape.
Qed.

Lemma do_send_message_shape_witness :
  exists res m,
    do_send 8 files_one vi_one vfd_zero [104; 105; 106] true 2 (Some [3; -1; 3])
      false true [queued] VIRTIO_WL_RESP_OK 0 = Some (Done res) /\
    send_msg res = Some m /\
    (length (send_vfd_ids m) <= Z.to_nat 8)%nat /\ Forall (fun id => id <> 0) (send_vfd_ids m).
Proof.
  eexists _, _.
  assert (Hd : do_send 8 files_one vi_one vfd_zero [104; 105; 106] true 2 (Some [3; -1; 3])
                 false true [queued] VIRTIO_WL_RESP_OK 0 =
               Some (Done {| send_ret := 0;
                             send_msg := Some {| send_vfd_id := 0; send_vfd_ids := [1];
                                                 send_data := [104; 105] |};
                             send_evs := [EvAddSgs 0; EvKick; EvCompletion] |}))
    by reflexivity.
  split; [exact Hd|]. split; [reflexivity|].
  destruct (do_send_message_shape _ _ _ _ _ _ _ _ _ _ _ _ _ _ _ Hd eq_refl)
    as (_ & Hl & Hf & _).
  split; [exact Hl | exact Hf].
Defined.

(** ** The work handler of the in-queue *)





(** ** The initial fill of the in-queue: [vq_fill_locked] *)

(** X16: the fill either gives the queue a buffer for every free descriptor
    and returns 0, or fails at the first turn that goes wrong and leaves
    the queue empty: every buffer that had been added is detached and
    freed; the error is [-ENOMEM] when [kmalloc] failed in that turn, and
    otherwise it is the error with which the transport refused the
    buffer, which is then logged.  With a turn for every free descriptor
    the call returns. *)
Theorem vq_fill_locked_outcome (turns : list fill_turn) :
  forall (st : fill_state),
    (forall ret st',
       vq_fill_locked st turns = Some (ret, st') ->
       (ret = 0 /\ fill_num_free st' = 0%nat /\ fill_freed st' = fill_freed st /\
        fill_printed st' = fill_printed st /\
        exists added, fill_queued st' = fill_queued st ++ added /\
                      length added = fill_num_free st)
       \/
       (ret <> 0 /\ fill_queued st' = [] /\
        fill_num_free st' = (fill_num_free st + length (fill_queued st))%nat /\
        exists added turn,
          fill_freed st' = fill_freed st ++ fill_queued st ++ added /\
          (length added < fill_num_free st)%nat /\
          turns !! length added = Some turn /\
          ((kmalloc_res turn = None /\ ret = - ENOMEM /\
            fill_printed st' = fill_printed st) \/
           (kmalloc_res turn <> None /\ ret = add_inbuf_res turn /\
            fill_printed st' = fill_printed st ++ [MsgGiveInbufFailed ret])))) /\
    ((fill_num_free st <= length turns)%nat ->
     exists r, vq_fill_locked st turns = Some r).
Proof.
  induction turns as [|turn turns IH]; intros st.
  - split.
    + intros ret st'. destruct st as [[|n] q f p]; cbn; [|discriminate].
      intros [= <- <-]. left. cbn. repeat split. exists []. now rewrite app_nil_r.
    + destruct st as [[|n] q f p]; cbn; [eauto | lia].
  - destruct st as [[|n] q f p];
      cbn [vq_fill_locked fill_num_free fill_queued fill_freed fill_printed].
    { split; [|eauto]. intros ret st' [= <- <-]. left. cbn. repeat split.
      exists []. now rewrite app_nil_r. }
    destruct (kmalloc_res turn) as [buffer|] eqn:Ek.
    2:{ split; [|eauto]. intros ret st' [= <- <-]. right. cbn.
        split; [discriminate|]. split; [reflexivity|]. split; [lia|].
        exists [], turn. rewrite app_nil_r. split; [reflexivity|]. split; [cbn; lia|].
        split; [reflexivity|]. left. auto. }
    destruct (add_inbuf_res turn =? 0) eqn:Ea; cbn [negb].
    2:{ apply Z.eqb_neq in Ea. split; [|eauto]. intros ret st' [= <- <-]. right. cbn.
        split; [exact Ea|]. split; [reflexivity|]. split; [lia|].
        exists [], turn. rewrite app_nil_r. split; [reflexivity|]. split; [cbn; lia|].
        split; [reflexivity|]. right. rewrite Ek. split; [discriminate | auto]. }
    destruct (IH {| fill_num_free := n; fill_queued := q ++ [buffer]; fill_freed := f;
                    fill_printed := p |})
      as [IH1 IH2].
    split.
    + intros ret st' Hr.
      destruct (IH1 ret st' Hr)
        as [(H0 & Hn & Hf & Hp & added & Hq & Hl)
           | (H0 & Hq & Hn & added & bad & Hf & Hl & Hbad & Hwhy)];
        cbn [fill_num_free fill_queued fill_freed fill_printed] in *.
      * left. split; [exact H0|]. split; [exact Hn|]. split; [exact Hf|]. split; [exact Hp|].
        exists (buffer :: added). rewrite Hq, <- app_assoc. cbn. split; [reflexivity | lia].
      * right. split; [exact H0|]. split; [exact Hq|].
        split; [rewrite Hn, length_app; cbn; lia|].
        exists (buffer :: added), bad. rewrite Hf, <- !app_assoc. cbn.
        split; [reflexivity|]. split; [lia|]. split; [exact Hbad | exact Hwhy].
    + intros Hl. apply IH2. cbn in *. lia.
Qed.

Lemma vq_fill_locked_outcome_witness :
  let st := {| fill_num_free := 2; fill_queued := []; fill_freed := [];
               fill_printed := [] |} in
  vq_fill_locked st [{| kmalloc_res := Some 4096; add_inbuf_res := 0 |};
                     {| kmalloc_res := None; add_inbuf_res := 0 |}] =
    Some (- ENOMEM, {| fill_num_free := 2; fill_queued := []; fill_freed := [4096];
                       fill_printed := [] |}) /\
  vq_fill_locked st [{| kmalloc_res := Some 4096; add_inbuf_res := 0 |};
                     {| kmalloc_res := Some 8192; add_inbuf_res := - EIO |}] =
    Some (- EIO, {| fill_num_free := 2; fill_queued := []; fill_freed := [4096];
                    fill_printed := [MsgGiveInbufFailed (- EIO)] |}).
Proof.
  intros st. split.
  - destruct (vq_fill_locked_outcome
                [{| kmalloc_res := Some 4096; add_inbuf_res := 0 |};
                 {| kmalloc_res := None; add_inbuf_res := 0 |}] st) as [_ Hret].
    destruct (Hret ltac:(cbn; lia)) as [[ret st'] Hr].
    rewrite Hr. vm_compute in Hr. symmetry. exact Hr.
  - destruct (vq_fill_locked_outcome
                [{| kmalloc_res := Some 4096; add_inbuf_res := 0 |};
                 {| kmalloc_res := Some 8192; add_inbuf_res := - EIO |}] st) as [_ Hret].
    destruct (Hret ltac:(cbn; lia)) as [[ret st'] Hr].
    rewrite Hr. vm_compute in Hr. symmetry. exact Hr.
Defined.

(** ** Poll *)

(** X17: poll reports input exactly when the pending queue is non-empty and
    output exactly when the out-queue has a free descriptor, each with
    its normal-priority bit; when poll reports no input, a non-blocking
    receive returns [-EAGAIN] and leaves the device as it is. *)
Theorem virtwl_vfd_poll_ready `{virtio_wl_h} (vi : virtwl_info) (addr : Z)
    (vfd : virtwl_vfd) (num_free : Z) :
  objs vi !! addr = Some vfd ->
  let mask := virtwl_vfd_poll num_free vfd in
  (Z.land mask POLLIN <> 0 <-> in_queue vfd <> []) /\
  (Z.land mask POLLRDNORM <> 0 <-> in_queue vfd <> []) /\
  (Z.land mask POLLOUT <> 0 <-> num_free <> 0) /\
  (Z.land mask POLLWRNORM <> 0 <-> num_free <> 0) /\
  (Z.land mask POLLIN = 0 ->
   forall fuel copy_ok len_ have_vfds count script,
     virtwl_vfd_recv (S fuel) vi addr true copy_ok len_ have_vfds count script =
     Some (Done (vi, RecvErr (- EAGAIN)))).
Proof.
  intros Hobj mask. subst mask. unfold virtwl_vfd_poll.
  destruct (num_free =? 0) eqn:En; [apply Z.eqb_eq in En | apply Z.eqb_neq in En];
    destruct (in_queue vfd) as [|e q] eqn:Eq; cbn [negb];
    (split; [|split; [|split; [|split]]]);
    try (split; [intros Hc; try (exfalso; apply Hc; reflexivity); congruence
                | intros Hc; try congruence; try discriminate]);
    try (intros Hz; try (exfalso; discriminate Hz);
         intros fuel copy_ok len_ have_vfds count script;
         cbn [virtwl_vfd_recv]; rewrite Hobj, Eq; reflexivity).
Qed.

Lemma virtwl_vfd_poll_ready_witness :
  objs vi_idle !! 100 = Some {| vfd_id := 1; vfd_flags := 4; vfd_pfn := 0; vfd_size := 0;
                                in_queue := [] |} /\
  virtwl_vfd_poll 3 {| vfd_id := 1; vfd_flags := 4; vfd_pfn := 0; vfd_size := 0;
                       in_queue := [] |} = Z.lor POLLOUT POLLWRNORM /\
  @virtwl_vfd_recv upstream_h 1 vi_idle 100 true copy_always 64 true 8 [] =
  Some (Done (vi_idle, RecvErr (- EAGAIN))).
Proof.
  split; [reflexivity|]. split; [reflexivity|].
  destruct (@virtwl_vfd_poll_ready upstream_h vi_idle 100 _ 3 eq_refl)
    as (_ & _ & _ & _ & Hrecv).
  apply Hrecv. reflexivity.
Defined.

(** ** The page-aligned size *)

Lemma PAGE_SIZE_pow2 `{virtio_wl_h} : 0 <= PAGE_SHIFT -> PAGE_SIZE = 2 ^ PAGE_SHIFT.
Proof. intros Hk. unfold PAGE_SIZE. now rewrite Z.shiftl_1_l. Qed.

(** [PAGE_ALIGN] clears the low bits of the 32-bit sum. *)
Lemma PAGE_ALIGN_div `{virtio_wl_h} (x : Z) :
  0 <= PAGE_SHIFT < 32 ->
  PAGE_ALIGN x = u32 (x + (PAGE_SIZE - 1)) / 2 ^ PAGE_SHIFT * 2 ^ PAGE_SHIFT.
Proof.
  intros Hk. unfold PAGE_ALIGN. rewrite PAGE_SIZE_pow2 by lia.
  set (y := u32 (x + (2 ^ PAGE_SHIFT - 1))).
  assert (Hy : y mod 2 ^ 32 = y).
  { subst y. unfold u32. apply Z.mod_mod. lia. }
  replace (2 ^ PAGE_SHIFT - 1) with (Z.ones PAGE_SHIFT)
    by (rewrite Z.ones_equiv; lia).
  unfold u32 at 1. rewrite <- (Z.land_ones _ 32) by lia.
  rewrite Z.land_assoc, (Z.land_comm y), <- Z.land_assoc.
  rewrite (Z.land_ones y 32) by lia. rewrite Hy.
  rewrite Z.land_comm, <- Z.ldiff_land, Z.ldiff_ones_r by lia.
  rewrite Z.shiftr_div_pow2, Z.shiftl_mul_pow2 by lia. reflexivity.
Qed.

(** X18: the range test of [virtwl_vfd_mmap] in terms of the byte size of the
    vfd: the aligned size is a multiple of the page size; when the size
    plus a page fits in 32 bits it is the size rounded up, so a request
    within the size passes and a request that reaches a page beyond it is
    rejected; when it does not fit, the sum wraps, the aligned size is 0,
    and every request of positive extent is rejected with [-EINVAL]. *)
Theorem virtwl_vfd_mmap_aligned_size `{virtio_wl_h} (vfd : virtwl_vfd)
    (vma : vm_area_struct) (remap_ret : Z) :
  let off := Z.shiftl (vm_pgoff vma) PAGE_SHIFT in
  let length := vm_end vma - vm_start vma in
  0 <= PAGE_SHIFT < 32 -> is_u32 (vfd_size vfd) ->
  0 <= off -> 0 <= length -> off + length < 2 ^ 64 ->
  Z.land (vfd_flags vfd) VIRTIO_WL_VFD_MAP <> 0 ->
  Z.land (vfd_flags vfd) VIRTIO_WL_VFD_WRITE <> 0 ->
  PAGE_ALIGN (vfd_size vfd) mod PAGE_SIZE = 0 /\
  (vfd_size vfd + PAGE_SIZE - 1 < 2 ^ 32 ->
   vfd_size vfd <= PAGE_ALIGN (vfd_size vfd) < vfd_size vfd + PAGE_SIZE /\
   (off + length <= vfd_size vfd -> virtwl_vfd_mmap vfd vma remap_ret = remap_ret) /\
   (vfd_size vfd + PAGE_SIZE <= off + length ->
    virtwl_vfd_mmap vfd vma remap_ret = - EINVAL)) /\
  (2 ^ 32 <= vfd_size vfd + PAGE_SIZE - 1 ->
   PAGE_ALIGN (vfd_size vfd) = 0 /\
   (0 < off + length -> virtwl_vfd_mmap vfd vma remap_ret = - EINVAL)).
Proof.
  intros off length Hk Hsz Hoff Hlen Hsum Hmap Hwr.
  assert (Hps : PAGE_SIZE = 2 ^ PAGE_SHIFT) by (apply PAGE_SIZE_pow2; lia).
  assert (Hpos : 0 < 2 ^ PAGE_SHIFT) by (apply Z.pow_pos_nonneg; lia).
  assert (Hle : 2 ^ PAGE_SHIFT <= 2 ^ 32) by (apply Z.pow_le_mono_r; lia).
  pose proof (PAGE_ALIGN_div (vfd_size vfd) Hk) as Hdiv.
  assert (Esum : u64 (u64 length + u64 off) = off + length).
  { clearbody off length.
    rewrite (u64_small length), (u64_small off) by (unfold is_u64; lia).
    rewrite u64_small by (unfold is_u64; lia). lia. }
  assert (Hmm : virtwl_vfd_mmap vfd vma remap_ret =
                if PAGE_ALIGN (vfd_size vfd) <? off + length then - EINVAL else remap_ret).
  { unfold virtwl_vfd_mmap. fold off. fold length. rewrite Esum.
    apply Z.eqb_neq in Hmap, Hwr. rewrite Hmap, Hwr, andb_false_r. reflexivity. }
  clearbody off length. unfold is_u32 in Hsz.
  set (a := PAGE_ALIGN (vfd_size vfd)) in *.
  split; [|split].
  - rewrite Hdiv, Hps. apply Z.mod_mul. lia.
  - intros Hfit. rewrite Hps in *.
    assert (Hy : u32 (vfd_size vfd + (2 ^ PAGE_SHIFT - 1)) = vfd_size vfd + (2 ^ PAGE_SHIFT - 1))
      by (apply u32_small; unfold is_u32; lia).
    rewrite Hy in Hdiv.
    assert (Hnz : 2 ^ PAGE_SHIFT <> 0) by lia.
    pose proof (Z.div_mod (vfd_size vfd + (2 ^ PAGE_SHIFT - 1)) (2 ^ PAGE_SHIFT) Hnz) as Hdm.
    pose proof (Z.mod_pos_bound (vfd_size vfd + (2 ^ PAGE_SHIFT - 1)) (2 ^ PAGE_SHIFT) Hpos) as Hmb.
    assert (Ha : vfd_size vfd <= a < vfd_size vfd + 2 ^ PAGE_SHIFT) by lia.
    split; [exact Ha|]. rewrite Hmm. split; intros Hreq.
    + assert (E : (a <? off + length) = false) by (apply Z.ltb_ge; lia). now rewrite E.
    + assert (E : (a <? off + length) = true) by (apply Z.ltb_lt; lia). now rewrite E.
  - intros Hwrap. rewrite Hps in *.
    assert (Hy : u32 (vfd_size vfd + (2 ^ PAGE_SHIFT - 1))
                 = vfd_size vfd + (2 ^ PAGE_SHIFT - 1) - 2 ^ 32).
    { unfold u32. symmetry. apply Z.mod_unique_pos with 1; lia. }
    rewrite Hy in Hdiv.
    assert (Ha : a = 0).
    { rewrite Hdiv, Z.div_small by lia. reflexivity. }
    split; [exact Ha|]. intros Hreq. rewrite Hmm, Ha.
    assert (E : (0 <? off + length) = true) by (apply Z.ltb_lt; lia). now rewrite E.
Qed.

Lemma virtwl_vfd_mmap_aligned_size_witness :
  let vfd := {| vfd_id := 1; vfd_flags := 3; vfd_pfn := 0x100; vfd_size := 0xfffff001;
                in_queue := [] |} in
  let vma := {| vm_start := 0x10000; vm_end := 0x11000; vm_pgoff := 0; vm_flags := 2 |} in
  (0 <= @PAGE_SHIFT upstream_h < 32 /\ is_u32 (vfd_size vfd) /\
   2 ^ 32 <= vfd_size vfd + @PAGE_SIZE upstream_h - 1) /\
  @PAGE_ALIGN upstream_h (vfd_size vfd) = 0 /\
  @virtwl_vfd_mmap upstream_h vfd vma 0 = - EINVAL.
Proof.
  intros vfd vma.
  assert (H1 : 0 <= @PAGE_SHIFT upstream_h < 32) by (cbn; lia).
  assert (H2 : is_u32 (vfd_size vfd)) by (unfold is_u32; cbn; lia).
  assert (H3 : 2 ^ 32 <= vfd_size vfd + @PAGE_SIZE upstream_h - 1) by (vm_compute; discriminate).
  split; [auto|].
  destruct (@virtwl_vfd_mmap_aligned_size upstream_h vfd vma 0 H1 H2)
    as (_ & _ & Hwrap); try (vm_compute; congruence).
  destruct (Hwrap H3) as [Ha Hrej]. split; [exact Ha|].
  apply Hrej. vm_compute. reflexivity.
Defined.

(** ** A handle on its way to the reader *)

(** One drain of bytes over a fresh entry that carries one handle id and
    no payload copies nothing and leaves the entry linked. *)
Lemma vfd_out_locked_no_payload `{virtio_wl_h} (copy_ok : Z -> Z -> bool) (hdr_ : inbuf)
    (cap : Z) (vq : virtqueue_in) :
  recv_vfd_count hdr_ = 1 ->
  let e := {| hdr := hdr_; len := sizeof_recv + sizeof_le32;
              vfd_offset := 0; data_offset := 0 |} in
  vfd_out_locked copy_ok [e] vq cap =
  {| out_count := 0; out_bytes := []; out_queue := [e]; out_vq := vq;
     out_released := [] |}.
Proof.
  intros Hc e. unfold vfd_out_locked. subst e.
  cbn [vfd_out_loop hdr len vfd_offset data_offset]. rewrite Hc.
  assert (E2 : (sizeof_recv + sizeof_le32 - (sizeof_recv + 1 * sizeof_le32 + 0) <=? 0) = true)
    by (apply Z.leb_le; lia).
  rewrite E2. destruct (cap <=? 0); reflexivity.
Qed.

(** One drain of handles over the same entry, when the table knows the
    id: the vfd registered under the id is stored and the entry is
    released. *)
Lemma vfd_out_vfds_locked_single `{virtio_wl_h} (t : gmap Z Z) (hdr_ : inbuf)
    (count id target : Z) (vq : virtqueue_in) :
  hdr_type hdr_ = VIRTIO_WL_CMD_VFD_RECV -> recv_vfd_count hdr_ = 1 ->
  le32_at (body hdr_) 0 = id -> t !! id = Some target -> 0 < count ->
  vfd_out_vfds_locked t
    [{| hdr := hdr_; len := sizeof_recv + sizeof_le32; vfd_offset := 0; data_offset := 0 |}]
    vq count =
  {| vr_vfds := [target]; vr_queue := [];
     vr_vq := virtqueue_kick (fst (vq_return_inbuf_locked vq hdr_)); vr_msgs := [];
     vr_released := [{| hdr := hdr_; len := sizeof_recv + sizeof_le32; vfd_offset := 1;
                        data_offset := 0 |}] |}.
Proof.
  intros Ht Hc Hle Htarget Hcount. unfold vfd_out_vfds_locked.
  cbn [vfd_out_vfds_loop hdr len vfd_offset data_offset].
  change (Z.of_nat (length (@nil Z))) with 0. rewrite Hc, Ht.
  assert (E4 : (count <=? 0) = false) by (apply Z.leb_gt; lia).
  assert (E5 : (count <? u32 (1 - 0) + 0) = false).
  { apply Z.ltb_ge. change (u32 (1 - 0)) with 1. lia. }
  rewrite E4. change (u32 (1 - 0) <=? 0) with false. cbn iota.
  rewrite bool_decide_eq_true_2 by reflexivity. cbn [negb]. rewrite E5.
  change (Z.to_nat (u32 (1 - 0))) with 1%nat.
  cbn [vfds_for hdr body set_vfd_offset vfd_offset].
  replace (0 * sizeof_le32 + 0 * sizeof_le32) with 0 by lia.
  rewrite Hle. unfold idr_find. rewrite Htarget.
  unfold vfd_qentry_free_if_empty, set_vfd_offset. cbn [hdr len vfd_offset data_offset].
  rewrite Ht, Hc. destruct (decide _) as [_|Hne]; [|contradiction].
  change (u32 (0 + 1)) with 1. change (1 <? 1) with false. cbn iota.
  unfold data_len. cbn [hdr len]. rewrite Hc.
  assert (E6 : (0 <? sizeof_recv + sizeof_le32 - sizeof_recv - 1 * sizeof_le32) = false)
    by (apply Z.ltb_ge; lia).
  rewrite E6. reflexivity.
Qed.

(** X9: a handle the host refers to in a message reaches the reader: after
    the dispatcher has queued, on a vfd with an empty pending queue, a
    receive message that carries no payload and one handle id which the
    table knows, a receive call with room for a handle returns no bytes
    and the vfd registered under that id, and table and vfds are as they
    were.  The buffer is passed to [vq_return_inbuf_locked] and the host
    is kicked: the in-queue holds the buffer again when the transport
    takes it; otherwise the refusal is logged and the buffer is in no
    queue. *)
Theorem dispatch_then_recv_handle `{virtio_wl_h} (fuel : nat) (vi : virtwl_info)
    (ptr kz id target : Z) (vfd : virtwl_vfd) (hdr_ : inbuf) (cap : Z) (nonblock : bool)
    (copy_ok : Z -> Z -> bool) (count : Z) (script : list recv_wait) :
  hdr_type hdr_ = VIRTIO_WL_CMD_VFD_RECV -> recv_vfd_count hdr_ = 1 ->
  vfds vi !! msg_vfd_id hdr_ = Some ptr -> objs vi !! ptr = Some vfd ->
  in_queue vfd = [] ->
  le32_at (body hdr_) 0 = id -> vfds vi !! id = Some target ->
  0 < count ->
  exists vi1 vi2,
    vq_dispatch_hdr vi (Some kz) (sizeof_recv + sizeof_le32) hdr_ = Done (vi1, false) /\
    virtwl_vfd_recv (S fuel) vi1 ptr nonblock copy_ok cap true count script =
      Some (Done (vi2, RecvOk 0 [] [target])) /\
    vfds vi2 = vfds vi /\ objs vi2 = objs vi /\
    vq_in vi2 = virtqueue_kick (fst (vq_return_inbuf_locked (vq_in vi) hdr_)) /\
    (let ret := hd 0 (add_inbuf_results (vq_in vi)) in
     inbufs (vq_in vi2) = inbufs (vq_in vi) ++ (if ret =? 0 then [hdr_] else []) /\
     kicks (vq_in vi2) = S (kicks (vq_in vi)) /\
     klog vi2 = klog vi ++ (if ret =? 0 then [] else [MsgGiveInbufFailed ret]) /\
     kfreed (vq_in vi2) = kfreed (vq_in vi)).
Proof.
  intros Ht Hc Hid Hobj Hq Hle Htarget Hcount.
  exists (set_objs vi
            (<[ptr := set_in_queue vfd
                        (in_queue vfd ++
                         [{| hdr := hdr_; len := sizeof_recv + sizeof_le32;
                             vfd_offset := 0; data_offset := 0 |}])]>
               (objs vi))),
         (set_vq_in vi (virtqueue_kick (fst (vq_return_inbuf_locked (vq_in vi) hdr_)))).
  split.
  { unfold vq_dispatch_hdr, vq_handle_recv, idr_find. rewrite Ht, Hid, Hobj.
    rewrite bool_decide_eq_true_2 by eauto. cbn [negb]. reflexivity. }
  split.
  2:{ split; [reflexivity|]. split; [reflexivity|]. split; [reflexivity|].
      exact (release_fields (vq_in vi) hdr_). }
  cbn [virtwl_vfd_recv objs set_objs]. rewrite lookup_insert_eq.
  cbn [in_queue set_in_queue]. rewrite Hq. cbn [app].
  rewrite (vfd_out_locked_no_payload copy_ok hdr_ cap _ Hc).
  cbn [out_count out_bytes out_queue out_vq vfds vq_in set_vq_in set_objs].
  change (0 <? 0) with false. cbn iota.
  assert (E3 : (count =? 0) = false) by (apply Z.eqb_neq; lia).
  rewrite E3. cbn [andb negb].
  rewrite (vfd_out_vfds_locked_single (vfds vi) hdr_ count id target _ Ht Hc Hle Htarget Hcount).
  cbn [vr_vfds vr_queue vr_vq vr_msgs length].
  change (0 =? 0) with true. change (Z.of_nat 1 =? 0) with false. cbn [andb].
  assert (Hsame : <[ptr := set_in_queue vfd []]> (objs vi) = objs vi).
  { apply insert_id. rewrite Hobj. f_equal. destruct vfd; cbn in *; now subst. }
  do 3 f_equal. unfold set_vq_in, set_objs. cbn.
  rewrite !insert_insert_eq.
  change (set_in_queue (set_in_queue vfd _) []) with (set_in_queue vfd []).
  rewrite Hsame. reflexivity.
Qed.

Lemma dispatch_then_recv_handle_witness :
  (hdr_type msg_ctx = VIRTIO_WL_CMD_VFD_RECV /\ recv_vfd_count msg_ctx = 1 /\
   le32_at (body msg_ctx) 0 = 1 /\ vfds vi_idle !! 1 = Some 100) /\
  exists vi1 vi2,
    vq_dispatch_hdr vi_idle (Some 7) (@sizeof_recv upstream_h + sizeof_le32) msg_ctx
      = Done (vi1, false) /\
    @virtwl_vfd_recv upstream_h 1 vi1 100 true copy_always 64 true 8 [] =
      Some (Done (vi2, RecvOk 0 [] [100])) /\
    inbufs (vq_in vi2) = [msg_ctx] /\ klog vi2 = [].
Proof.
  split; [repeat split; reflexivity|].
  destruct (@dispatch_then_recv_handle upstream_h 0 vi_idle 100 7 1 100 _ msg_ctx 64 true
              copy_always 8 [] eq_refl eq_refl eq_refl eq_refl eq_refl eq_refl eq_refl
              eq_refl) as (vi1 & vi2 & Hd & Hr & _ & _ & _ & Hi & _ & Hl & _).
  exists vi1, vi2. split; [exact Hd|]. split; [exact Hr|]. split; [exact Hi | exact Hl].
Defined.
